(** * hdnet.spikes: a shallow embedding of the [Spikes] class

    The development follows [src/hdnet/spikes.py].  A numpy array is a
    shape together with its row-major buffer; Python integers are [Z].
    A finite double is the rational it denotes.  Where the source
    computes an index or a dimension from doubles (the binning of event
    times) every operation is followed by the rounding to a 53-bit
    significand ([F64.round]); the exponent range is not modelled, the
    magnitudes reached from 64-bit integers staying far inside it.  The
    covariance is computed on exact rationals: its theorems state what
    does not depend on the last digit.  The non-finite values that a
    division by zero produces ([nan], [inf]) are kept as separate
    constructors where the source can produce them (the covariance).
    Python exceptions are explicit results, and a loop that mutates an
    array threads the array through its iterations. *)

From Stdlib Require Import ZArith QArith Qround Qabs Lia Lqa Ascii.
From stdpp Require Import base list strings pretty sorting.

(** ** Python results *)

Inductive exn : Type :=
  | IndexError
  | ValueError
  | AttributeError
  | ZeroDivisionError
  | OverflowError
  | OutOfModel.
(** [OutOfModel] is not a Python exception: it marks the calls that this
    development does not describe (slicing a held array that has more
    than three axes, the mean over an axis of length zero). *)

Inductive result (A : Type) : Type :=
  | Ok (a : A)
  | Raise (e : exn).
Arguments Ok {A} a.
Arguments Raise {A} e.

#[global] Instance result_ret : MRet result := fun A a => Ok a.
#[global] Instance result_bind : MBind result := fun A B k r =>
  match r with
  | Ok a => k a
  | Raise e => Raise e
  end.

(** [for x in xs: body], threading the mutated object. *)
Fixpoint for_each {S A} (xs : list A) (body : A -> S -> result S) (s : S)
  : result S :=
  match xs with
  | [] => Ok s
  | x :: xs' => s' ← body x s; for_each xs' body s'
  end.

(** [range(n)] and [xrange(lo, hi)]. *)
Definition range (n : Z) : list Z := Z.of_nat <$> seq 0 (Z.to_nat n).
Definition xrange (lo hi : Z) : list Z :=
  (fun k => (lo + Z.of_nat k)%Z) <$> seq 0 (Z.to_nat (hi - lo)).

(** [enumerate(xs)]. *)
Definition enumerate {A} (xs : list A) : list (Z * A) :=
  imap (fun c x => (Z.of_nat c, x)) xs.

(** [x or d] for an optional list argument: [None] and the empty list are
    falsy. *)
Definition or_list {A} (x : option (list A)) (d : list A) : list A :=
  match x with
  | None => d
  | Some [] => d
  | Some l => l
  end.

(** [x or d] for an optional integer argument: [None] and [0] are falsy. *)
Definition or_int (x : option Z) (d : Z) : Z :=
  match x with
  | None => d
  | Some v => if (v =? 0)%Z then d else v
  end.

(** ** Doubles *)

Module F64.

(** [floor(log2 |q|)] for [q <> 0]. *)
Definition ilog2 (q : Q) : Z :=
  let a := Qabs q in
  if Qle_bool 1 a then Z.log2 (Qfloor a) else (- Z.log2_up (Qceiling (/ a)))%Z.

(** The nearest integer, ties to the even one. *)
Definition rne (y : Q) : Z :=
  let f := Qfloor y in
  match (y - inject_Z f ?= 1 # 2)%Q with
  | Lt => f
  | Gt => (f + 1)%Z
  | Eq => if Z.even f then f else (f + 1)%Z
  end.

(** The double nearest to [q]: [q] is scaled by the power of two that
    brings its magnitude into [2^52 .. 2^53), rounded to the nearest
    integer, and scaled back. *)
Definition round (q : Q) : Q :=
  if Qeq_bool q 0 then 0%Q
  else
    let e := ilog2 q in
    if (e <=? 52)%Z
    then (inject_Z (rne (q * inject_Z (2 ^ (52 - e)))) / inject_Z (2 ^ (52 - e)))%Q
    else (inject_Z (rne (q / inject_Z (2 ^ (e - 52)))) * inject_Z (2 ^ (e - 52)))%Q.

(** [float(z)] and the arithmetic of doubles. *)
Definition of_int (z : Z) : Q := round (inject_Z z).
Definition mul (x y : Q) : Q := round (x * y).
Definition div (x y : Q) : Q := round (x / y).
Definition add (x y : Q) : Q := round (x + y).

End F64.

(** A Python number: an integer or a double. *)
Inductive pynum : Type :=
  | PyInt (z : Z)
  | PyFloat (x : Q).

Definition to_float (n : pynum) : Q :=
  match n with
  | PyInt z => F64.of_int z
  | PyFloat x => x
  end.

(** [x or d] for a number: [0] and [0.0] are falsy. *)
Definition or_num (x : pynum) (d : pynum) : pynum :=
  match x with
  | PyInt z => if (z =? 0)%Z then d else x
  | PyFloat q => if Qeq_bool q 0 then d else x
  end.

(** [int(x)] on a finite float: truncation towards zero. *)
Definition py_int (q : Q) : Z := Z.quot (Qnum q) (Zpos (Qden q)).

(** [a / b] on Python 2 integers (floor division) and on doubles. *)
Definition py_floordiv (a b : Z) : result Z :=
  if (b =? 0)%Z then Raise ZeroDivisionError else Ok (a / b)%Z.
Definition py_truediv (a b : Q) : result Q :=
  if Qeq_bool b 0 then Raise ZeroDivisionError else Ok (F64.div a b).

(** [l[-1]]. *)
Definition last_item {A} (l : list A) : result A :=
  match last l with
  | Some x => Ok x
  | None => Raise IndexError
  end.

(** ** numpy arrays *)

Module Np.

Record ndarray (A : Type) : Type := NDArray {
  shape : list nat;
  data : list A
}.
Arguments NDArray {A} shape data.
Arguments shape {A} n.
Arguments data {A} n.

Definition size_of (sh : list nat) : nat := foldr Nat.mul 1%nat sh.

(** Every numpy array holds exactly as many items as its shape says. *)
Definition wf {A} (a : ndarray A) : Prop :=
  length (data a) = size_of (shape a).

(** [a.shape[k]] on the shape tuple. *)
Definition shape_at (sh : list nat) (k : nat) : result Z :=
  match sh !! k with
  | Some d => Ok (Z.of_nat d)
  | None => Raise IndexError
  end.

(** An index on an axis of length [n]: negative indices count from the
    end, anything else out of range raises. *)
Definition norm_index (n : nat) (i : Z) : result nat :=
  if (0 <=? i)%Z && (i <? Z.of_nat n)%Z then Ok (Z.to_nat i)
  else if (- Z.of_nat n <=? i)%Z && (i <? 0)%Z then Ok (Z.to_nat (i + Z.of_nat n))
  else Raise IndexError.

(** The bounds of a slice [lo:hi] on an axis of length [n], clamped the
    way Python clamps them: first position and number of positions. *)
Definition clamp (n : nat) (i : Z) : nat :=
  let i' := if (i <? 0)%Z then (i + Z.of_nat n)%Z else i in
  Z.to_nat (Z.min (Z.max i' 0) (Z.of_nat n)).
Definition slice_bounds (n : nat) (lo hi : Z) : nat * nat :=
  (clamp n lo, clamp n hi - clamp n lo).

(** [np.zeros(dims)]. *)
Definition zeros (dims : list Z) : result (ndarray Q) :=
  if forallb (fun d => (0 <=? d)%Z) dims
  then Ok (NDArray (Z.to_nat <$> dims)
             (replicate (size_of (Z.to_nat <$> dims)) 0%Q))
  else Raise ValueError.

(** [a.reshape(dims)].  A dimension [-1] stands for whatever makes the
    sizes agree: at most one is allowed, and the other dimensions must
    divide the size. *)
Definition infer_dims (size : nat) (dims : list Z) : result (list nat) :=
  if forallb (fun d => (0 <=? d)%Z) dims
  then (if size_of (Z.to_nat <$> dims) =? size
        then Ok (Z.to_nat <$> dims)
        else Raise ValueError)
  else if forallb (fun d => (-1 <=? d)%Z) dims
          && (length (filter (fun d => d = (-1)%Z) dims) =? 1)
  then (let p := size_of (Z.to_nat <$> filter (fun d => d <> (-1)%Z) dims) in
        if p =? 0 then Raise ValueError
        else if size mod p =? 0
        then Ok ((fun d => if (d =? -1)%Z then size / p else Z.to_nat d) <$> dims)
        else Raise ValueError)
  else Raise ValueError.
Definition reshape {A} (a : ndarray A) (dims : list Z) : result (ndarray A) :=
  sh ← infer_dims (length (data a)) dims;
  Ok (NDArray sh (data a)).

(** [np.sign] and [//] on finite values. *)
Definition sign (x : Q) : Q :=
  match (x ?= 0)%Q with
  | Lt => (-1)%Q
  | Eq => 0%Q
  | Gt => 1%Q
  end.
Definition floor_divide (a b : Q) : Q := inject_Z (Qfloor (a / b)).

(** Element-wise application, shape kept. *)
Definition map {A B} (f : A -> B) (a : ndarray A) : ndarray B :=
  NDArray (shape a) (f <$> data a).

(** [np.double(a)]: the same items as doubles.  Called on an array of
    exactly one item, numpy returns a scalar: an array without axes. *)
Definition double {A} (a : ndarray A) : ndarray A :=
  if size_of (shape a) =? 1 then NDArray [] (data a) else a.

(** Reading one item of a three-axis array. *)
Definition get3 {A} (a : ndarray A) (t n m : nat) : option A :=
  match shape a with
  | [d0; d1; d2] =>
      if decide (t < d0 /\ n < d1 /\ m < d2)
      then data a !! ((t * d1 + n) * d2 + m)
      else None
  | _ => None
  end.

(** Reading one item of a two-axis array. *)
Definition get2 {A} (a : ndarray A) (r c : nat) : option A :=
  match shape a with
  | [d0; d1] =>
      if decide (r < d0 /\ c < d1)
      then data a !! (r * d1 + c)
      else None
  | _ => None
  end.

(** Reading and writing the buffer at a list of positions. *)
Definition gather {A} (ks : list nat) (buf : list A) : list A :=
  omap (fun k => buf !! k) ks.

Fixpoint scatter {A} (ks : list nat) (v : list A) (buf : list A) : list A :=
  match ks, v with
  | k :: ks', x :: v' => scatter ks' v' (<[k := x]> buf)
  | _, _ => buf
  end.

(** The right-hand side of an assignment to a one-axis region of [n]
    items: same length, or a single item that is repeated. *)
Definition broadcast1 {A} (n : nat) (v : list A) : result (list A) :=
  if length v =? n then Ok v
  else match v with
       | [x] => Ok (replicate n x)
       | _ => Raise ValueError
       end.

(** The error for an index expression with three subscripts on an array
    that does not have three axes. *)
Definition bad_rank {A} (sh : list nat) : result A :=
  if length sh <? 3 then Raise IndexError else Raise OutOfModel.

(** [a[t, :, lo:hi].ravel()]: row-major, axis 1 outermost. *)
Definition getitem_t_all_slice_ravel {A} (a : ndarray A) (t lo hi : Z)
  : result (list A) :=
  match shape a with
  | [d0; d1; d2] =>
      t' ← norm_index d0 t;
      let '(l, w) := slice_bounds d2 lo hi in
      Ok (gather (n ← seq 0 d1; m ← seq l w; [(t' * d1 + n) * d2 + m]) (data a))
  | sh => bad_rank sh
  end.

(** [a[c, :, i] = v]. *)
Definition setitem_c_all_i {A} (a : ndarray A) (c i : Z) (v : list A)
  : result (ndarray A) :=
  match shape a with
  | [d0; d1; d2] =>
      c' ← norm_index d0 c;
      i' ← norm_index d2 i;
      v' ← broadcast1 d1 v;
      Ok (NDArray (shape a)
            (scatter ((fun r => (c' * d1 + r) * d2 + i') <$> seq 0 d1) v' (data a)))
  | sh => bad_rank sh
  end.

(** [a[t, :, j]]. *)
Definition getitem_t_all_j {A} (a : ndarray A) (t j : Z) : result (list A) :=
  match shape a with
  | [d0; d1; d2] =>
      t' ← norm_index d0 t;
      j' ← norm_index d2 j;
      Ok (gather ((fun r => (t' * d1 + r) * d2 + j') <$> seq 0 d1) (data a))
  | sh => bad_rank sh
  end.

(** [a[r, :] = v] on a two-axis array. *)
Definition setitem_row {A} (a : ndarray A) (r : Z) (v : list A)
  : result (ndarray A) :=
  match shape a with
  | [d0; d1] =>
      r' ← norm_index d0 r;
      v' ← broadcast1 d1 v;
      Ok (NDArray (shape a) (scatter (seq (r' * d1) d1) v' (data a)))
  | _ => Raise IndexError
  end.

(** [a[r, c] = x] on a two-axis array. *)
Definition setitem2 {A} (a : ndarray A) (r c : Z) (x : A) : result (ndarray A) :=
  match shape a with
  | [d0; d1] =>
      r' ← norm_index d0 r;
      c' ← norm_index d1 c;
      Ok (NDArray (shape a) (<[r' * d1 + c' := x]> (data a)))
  | _ => Raise IndexError
  end.

(** [a[trials, :, lo:hi]]: an index list on axis 0 and a slice on axis 2. *)
Definition getitem_list_all_slice {A} (a : ndarray A) (trials : list Z)
    (lo hi : Z) : result (ndarray A) :=
  match shape a with
  | [d0; d1; d2] =>
      ts ← mapM (norm_index d0) trials;
      let '(l, w) := slice_bounds d2 lo hi in
      Ok (NDArray [length ts; d1; w]
            (gather (t ← ts; n ← seq 0 d1; m ← seq l w; [(t * d1 + n) * d2 + m])
                    (data a)))
  | sh => bad_rank sh
  end.

(** [a[t]] on a three-axis array: the two-axis array at index [t]. *)
Definition getitem0 {A} (a : ndarray A) (t : Z) : result (ndarray A) :=
  match shape a with
  | [d0; d1; d2] =>
      t' ← norm_index d0 t;
      Ok (NDArray [d1; d2] (take (d1 * d2) (drop (t' * (d1 * d2)) (data a))))
  | sh => bad_rank sh
  end.

(** [a[t] = c] for a two-axis right-hand side [c]: same shape, or a
    single item that is repeated. *)
Definition setitem0 {A} (a : ndarray A) (t : Z) (c : ndarray A)
  : result (ndarray A) :=
  match shape a with
  | [d0; d1; d2] =>
      t' ← norm_index d0 t;
      v ← (if decide (shape c = [d1; d2]) then Ok (data c)
           else match data c with
                | [x] => Ok (replicate (d1 * d2) x)
                | _ => Raise ValueError
                end);
      Ok (NDArray (shape a) (scatter (seq (t' * (d1 * d2)) (d1 * d2)) v (data a)))
  | sh => bad_rank sh
  end.

(** [a[:, sel, :]]: an index list on axis 1. *)
Definition getitem_all_list_all {A} (a : ndarray A) (sel : list nat)
  : result (ndarray A) :=
  match shape a with
  | [d0; d1; d2] =>
      Ok (NDArray [d0; length sel; d2]
            (gather (t ← seq 0 d0; n ← sel; m ← seq 0 d2; [(t * d1 + n) * d2 + m])
                    (data a)))
  | sh => bad_rank sh
  end.

(** [l[lo:]] on a sequence. *)
Definition slice_from {A} (l : list A) (lo : Z) : list A :=
  drop (clamp (length l) lo) l.

(** Sums and means of finite values. *)
Definition sum (l : list Q) : Q := foldr Qplus 0%Q l.
Definition mean (l : list Q) : Q := (sum l / inject_Z (Z.of_nat (length l)))%Q.

(** [a.mean(axis=0).mean(axis=1)] on a three-axis array: for each index
    [n] of axis 1, the mean over axis 2 of the means over axis 0. *)
Definition mean_axis0_mean_axis1 (a : ndarray Q) : result (list Q) :=
  match shape a with
  | [d0; d1; d2] =>
      if (d0 =? 0) || (d2 =? 0) then Raise OutOfModel
      else Ok ((fun n =>
             mean ((fun m =>
               mean (gather ((fun t => (t * d1 + n) * d2 + m) <$> seq 0 d0) (data a)))
               <$> seq 0 d2)) <$> seq 0 d1)
  | sh => bad_rank sh
  end.

(** Values of a float array that a division may have made non-finite. *)
Inductive npfloat : Type :=
  | Fin (q : Q)
  | PInf
  | NInf
  | NaN.

(** IEEE division on these values (signed zeros are not distinguished). *)
Definition fdiv (a b : npfloat) : npfloat :=
  match a, b with
  | NaN, _ | _, NaN => NaN
  | Fin x, Fin y =>
      if Qeq_bool y 0 then
        match (x ?= 0)%Q with
        | Eq => NaN
        | Gt => PInf
        | Lt => NInf
        end
      else Fin (x / y)
  | Fin _, (PInf | NInf) => Fin 0
  | (PInf | NInf), (PInf | NInf) => NaN
  | PInf, Fin y => if Qle_bool 0 y then PInf else NInf
  | NInf, Fin y => if Qle_bool 0 y then NInf else PInf
  end.

(** The larger of two values, [nan] propagating as in [np.max]; on the
    values without [nan] it is also Python's [max]. *)
Definition fmax (a b : npfloat) : npfloat :=
  match a, b with
  | NaN, _ | _, NaN => NaN
  | PInf, _ | _, PInf => PInf
  | NInf, y => y
  | x, NInf => x
  | Fin x, Fin y => if Qle_bool x y then Fin y else Fin x
  end.

(** [a.max()]: the largest item; an empty array has none. *)
Definition amax (a : ndarray npfloat) : result npfloat :=
  match data a with
  | [] => Raise ValueError
  | x :: xs => Ok (foldl fmax x xs)
  end.

(** [np.cov(m)] for a two-axis [m], rows the variables and columns the
    observations: each row is centred on its mean, and entry [(i, j)] is
    the dot product of rows [i] and [j] over [columns - 1].  With fewer
    than two columns the divisor is zero and numpy yields [nan].  (For a
    single row numpy squeezes the [1 x 1] result to a scalar, which the
    assignment [new_arr[t] = ...] broadcasts back; the source only calls
    [np.cov] on two-axis arrays.)  The arithmetic here is exact: the
    doubles of numpy agree with it up to rounding, so an entry that is
    [1] here may be [0.9999999999999999] there, and a variance that is
    exactly [0] here only for rows whose mean is computed exactly (as
    for binary rows that are constant). *)
Definition row {A} (a : ndarray A) (w : nat) (i : nat) : list A :=
  take w (drop (i * w) (data a)).
Definition centred (xs : list Q) : list Q :=
  (fun x => (x - mean xs)%Q) <$> xs.
Definition dot (xs ys : list Q) : Q :=
  sum (zip_with Qmult xs ys).
Definition cov_entry (w : nat) (xs ys : list Q) : npfloat :=
  if w <=? 1 then NaN
  else Fin (dot (centred xs) (centred ys) / inject_Z (Z.of_nat w - 1)).
Definition cov (m : ndarray Q) : result (ndarray npfloat) :=
  match shape m with
  | [n; w] =>
      Ok (NDArray [n; n]
            (i ← seq 0 n; j ← seq 0 n; [cov_entry w (row m w i) (row m w j)]))
  | _ => Raise OutOfModel
  end.

End Np.

(** ** The Spikes object *)

Record Spikes : Type := MkSpikes {
  _spikes_arr : Np.ndarray Q;
  _T : Z;
  _N : Z;
  _M : Z;
  idx : option (list nat);
  mean_activities : option (list Q)
}.

(** [preprocess]: [np.double((np.sign(arr) + 1) // 2)]. *)
Definition binarize (x : Q) : Q := Np.floor_divide (Np.sign x + 1) 2.

Definition preprocess (self : Spikes) : Spikes :=
  {| _spikes_arr := Np.double (Np.map binarize (_spikes_arr self));
     _T := _T self; _N := _N self; _M := _M self;
     idx := idx self; mean_activities := mean_activities self |}.

(** [load_from_spikes_times]: the horizon [self.max_millisec], then the
    grid.  The call leaves the object without an array ([None]) when the
    collection is empty. *)
Definition py_int_f (x : Np.npfloat) : result Z :=
  match x with
  | Np.Fin q => Ok (py_int q)
  | Np.NaN => Raise ValueError
  | _ => Raise OverflowError
  end.

Definition max_millisec (spike_times_lists : list (list Z)) : result Np.npfloat :=
  for_each spike_times_lists
    (fun spike_times mx =>
       t ← last_item spike_times;
       let milisec := F64.div (F64.mul 1 (F64.of_int t)) (F64.of_int (10 ^ 3)) in
       Ok (Np.fmax mx (Np.Fin milisec)))
    Np.NInf.

(** [k / bin_size + 1] as [np.zeros] takes it for a dimension: Python 2
    integer arithmetic when [bin_size] is an integer; otherwise a double,
    which [np.zeros] truncates. *)
Definition grid_columns (k : Z) (bin_size : pynum) : result Z :=
  match bin_size with
  | PyInt b => q ← py_floordiv k b; Ok (q + 1)%Z
  | PyFloat b => q ← py_truediv (F64.of_int k) b; Ok (py_int (F64.add q 1))
  end.

Definition load_from_spikes_times (spike_times_lists : list (list Z))
    (bin_size : pynum) : result (option (Np.ndarray Q)) :=
  if length spike_times_lists =? 0 then Ok None
  else
    mx ← max_millisec spike_times_lists;
    k ← py_int_f mx;
    w ← grid_columns k bin_size;
    arr ← Np.zeros [Z.of_nat (length spike_times_lists); w];
    arr ← for_each (enumerate spike_times_lists)
          (fun '(c, spike_times) arr =>
             for_each spike_times
               (fun spike_time arr =>
                  d ← py_truediv (F64.of_int spike_time)
                        (F64.mul 1000 (to_float bin_size));
                  let a := py_int d in
                  w ← Np.shape_at (Np.shape arr) 1;
                  if (a <? w)%Z then Np.setitem2 arr c a 1%Q else Ok arr)
               arr)
          arr;
    Ok (Some arr).

(** [__init__]: the array given directly ([spikes_arr]) or binned from
    event times (the [spk_files] branch once the files are read); then the
    shape is normalised. *)
Inductive source : Type :=
  | FromArray (spikes_arr : Np.ndarray Q)
  | FromSpikeTimes (time_stamps : list (list Z)) (bin_size : pynum).

Definition __init__ (src : source) (preprocess_flag : bool) : result Spikes :=
  arr0 ← match src with
         | FromArray a => Ok a
         | FromSpikeTimes ts b =>
             r ← load_from_spikes_times ts (or_num b (PyInt 1));
             match r with
             | Some a => Ok a
             | None => Raise AttributeError
             end
         end;
  let spikes_shape := Np.shape arr0 in
  arr ← (if length spikes_shape =? 2
         then s0 ← Np.shape_at spikes_shape 0;
              s1 ← Np.shape_at spikes_shape 1;
              Np.reshape arr0 [1%Z; s0; s1]
         else Ok arr0);
  T ← Np.shape_at (Np.shape arr) 0;
  N ← Np.shape_at (Np.shape arr) 1;
  M ← Np.shape_at (Np.shape arr) 2;
  let self := MkSpikes arr T N M None None in
  Ok (if preprocess_flag then preprocess self else self).

(** [to_windowed]: a new [Spikes] object, or the sample matrix when
    [reshape] is set. *)
Inductive windowed : Type :=
  | WSpikes (s : Spikes)
  | WMatrix (Y : Np.ndarray Q).

Definition to_windowed (self : Spikes) (window_size : Z)
    (trials : option (list Z)) (reshape : bool) : result windowed :=
  let trials := or_list trials (range (_T self)) in
  X ← Np.zeros [Z.of_nat (length trials); (window_size * _N self)%Z;
                (_M self - window_size + 1)%Z];
  X ← for_each (enumerate trials)
        (fun '(c, t) X =>
           for_each (xrange 0 (_M self - window_size + 1))
             (fun i X =>
                v ← Np.getitem_t_all_slice_ravel (_spikes_arr self) t i
                      (window_size + i);
                Np.setitem_c_all_i X c i v)
             X)
        X;
  if reshape then
    s0 ← Np.shape_at (Np.shape X) 0;
    s1 ← Np.shape_at (Np.shape X) 1;
    s2 ← Np.shape_at (Np.shape X) 2;
    Y ← Np.zeros [(s0 * s2)%Z; s1];
    '(Y, _) ← for_each (xrange 0 (Z.of_nat (length trials)))
        (fun t st =>
           for_each (xrange 0 s2)
             (fun j '(Y, tot) =>
                v ← Np.getitem_t_all_j X t j;
                Y ← Np.setitem_row Y tot v;
                Ok (Y, (tot + 1)%Z))
             st)
        (Y, 0%Z);
    Ok (WMatrix Y)
  else
    s ← __init__ (FromArray X) true;
    Ok (WSpikes s).

(** [rasterize]: [None] is returned when the picture is saved instead. *)
Definition rasterize (self : Spikes) (trials : option (list Z)) (start : Z)
    (stop : option Z) (save_png_name : option string)
  : result (option (Np.ndarray Q)) :=
  let stop := or_int stop (_M self) in
  let trials := or_list trials (range (_T self)) in
  sub_spikes_arr ← Np.getitem_list_all_slice (_spikes_arr self) trials start stop;
  m ← Np.reshape sub_spikes_arr
        [(Z.of_nat (length trials) * _N self)%Z; (stop - start)%Z];
  match save_png_name with
  | Some _ => Ok None
  | None => Ok (Some m)
  end.

(** [covariance]: the per-trial matrices before the shared division
    ([covariance_raw], the state of [new_arr] after the loop), and the
    whole call. *)
Definition covariance_raw (self : Spikes) (trials : option (list Z))
    (start : Z) (stop : option Z) : result (Np.ndarray Np.npfloat) :=
  let stop := or_int stop (_M self) in
  let trials := or_list trials (range (_T self)) in
  sub_spikes_arr ← Np.getitem_list_all_slice (_spikes_arr self) trials start stop;
  new_arr ← Np.zeros [Z.of_nat (length trials); _N self; _N self];
  for_each (enumerate trials)
    (fun '(t, trial) new_arr =>
       m ← Np.getitem0 sub_spikes_arr trial;
       c ← Np.cov m;
       Np.setitem0 new_arr t c)
    (Np.map Np.Fin new_arr).

Definition covariance (self : Spikes) (trials : option (list Z)) (start : Z)
    (stop : option Z) (save_png_name : option string)
  : result (option (Np.ndarray Np.npfloat)) :=
  new_arr ← covariance_raw self trials start stop;
  mx ← Np.amax new_arr;
  let new_arr := Np.map (fun x => Np.fdiv x mx) new_arr in
  match save_png_name with
  | Some _ =>
      _ ← Np.reshape new_arr
            [(Z.of_nat (length (or_list trials (range (_T self)))) * _N self)%Z;
             _N self];
      Ok None
  | None => Ok (Some new_arr)
  end.

(** [restrict_to_most_active_neurons], for any [argsort] (numpy's default
    sort is not stable; what it guarantees is stated where it is used). *)
Definition restrict_to_most_active_neurons (argsort : list Q -> list nat)
    (self : Spikes) (top_neurons : option Z) : result Spikes :=
  let N := or_int top_neurons (_N self) in
  activity ← Np.mean_axis0_mean_axis1 (_spikes_arr self);
  let idx := argsort activity in
  let sel := Np.slice_from idx (- N) in
  arr ← Np.getitem_all_list_all (_spikes_arr self) sel;
  Ok {| _spikes_arr := arr; _T := _T self; _N := N; _M := _M self;
        idx := Some sel;
        mean_activities := Some (Np.gather sel activity) |}.

(** ** Concrete inputs used in the examples below *)


Definition s111 : Spikes := MkSpikes (Np.NDArray [1; 1; 1] [1%Q]) 1 1 1 None None.

(** The quantities of the binning contract, in the specification's
    words: the bin index [floor(t / (1000 * bin_size))] of a timestamp
    and the grid width [floor(max_timestamp_ms / bin_size) + 1]. *)
Definition bin_index (t bin_size : Z) : Z :=
  Qfloor (inject_Z t / (1000 * inject_Z bin_size)).
Definition grid_width (max_timestamp bin_size : Z) : Z :=
  (Qfloor ((inject_Z max_timestamp / 1000) / inject_Z bin_size) + 1)%Z.

Definition scenario_A : list (list Z) := [[1000; 2000]; [1500]]%Z.

(** A [Spikes] object in its canonical state: the stored dimensions are
    those of the held three-axis array. *)
Definition spikes_wf (self : Spikes) (T N M : nat) : Prop :=
  Np.shape (_spikes_arr self) = [T; N; M] /\
  Np.wf (_spikes_arr self) /\
  _T self = Z.of_nat T /\ _N self = Z.of_nat N /\ _M self = Z.of_nat M.

(** The held array is binary, as [preprocess] leaves it. *)
Definition binary (a : Np.ndarray Q) : Prop :=
  forall x, x ∈ Np.data a -> x = 0%Q \/ x = 1%Q.

(** Scenario B: a binary [1 x 4 x 5] tensor. *)
Definition scenario_B : Spikes :=
  MkSpikes
    (Np.NDArray [1; 4; 5]
       [1; 0; 0; 1; 1;  0; 1; 0; 1; 0;  1; 1; 1; 0; 0;  0; 0; 0; 0; 1]%Q)
    1 4 5 None None.

(** What [argsort] guarantees: a permutation of the positions along
    which the values do not decrease. *)
Definition argsort_spec (argsort : list Q -> list nat) : Prop :=
  forall l,
    argsort l ≡ₚ seq 0 (length l) /\
    forall i j a b x y, i <= j ->
      argsort l !! i = Some a -> argsort l !! j = Some b ->
      l !! a = Some x -> l !! b = Some y -> (x <= y)%Q.

(** An executable [argsort]: insertion sort on the positions. *)
Definition value_at (l : list Q) (k : nat) : Q := default 0%Q (l !! k).

Fixpoint insert_index (l : list Q) (k : nat) (ks : list nat) : list nat :=
  match ks with
  | [] => [k]
  | k' :: ks' =>
      if Qle_bool (value_at l k) (value_at l k') then k :: ks
      else k' :: insert_index l k ks'
  end.

Definition insertion_argsort (l : list Q) : list nat :=
  foldr (insert_index l) [] (seq 0 (length l)).

(** A [2 x 3 x 2] binary tensor. *)
Definition s232 : Spikes :=
  MkSpikes
    (Np.NDArray [2; 3; 2] [1; 1;  0; 0;  1; 0;   1; 1;  0; 0;  0; 0]%Q)
    2 3 2 None None.

(** A [2 x 2 x 3] binary tensor whose two trials have different
    covariance matrices, and an all-zero [1 x 2 x 3] tensor. *)
Definition s223 : Spikes :=
  MkSpikes
    (Np.NDArray [2; 2; 3] [1; 0; 0;  0; 1; 0;   1; 1; 0;  1; 1; 0]%Q)
    2 2 3 None None.
Definition s123_zero : Spikes :=
  MkSpikes (Np.NDArray [1; 2; 3] [0; 0; 0;  0; 0; 0]%Q) 1 2 3 None None.


(** The per-trial covariance in the contract's words: entry [(i, j)] for
    trial [t] over the [w] time bins from [lo], sources as variables and
    time bins as samples. *)
Definition trial_samples (a : Np.ndarray Q) (t i lo w : nat) : list Q :=
  (fun k => default 0%Q (Np.get3 a t i (lo + k))) <$> seq 0 w.
Definition trial_covariance (a : Np.ndarray Q) (t lo w i j : nat) : Np.npfloat :=
  Np.cov_entry w (trial_samples a t i lo w) (trial_samples a t j lo w).

(** The arrays before normalisation and their maxima on the two inputs. *)
Definition raw223 : Np.ndarray Np.npfloat :=
  Eval vm_compute in
    match covariance_raw s223 None 0 None with
    | Ok r => r
    | Raise _ => Np.NDArray [] []
    end.
Definition max223 : Q :=
  Eval vm_compute in
    match Np.amax raw223 with
    | Ok (Np.Fin g) => g
    | _ => 0%Q
    end.
Definition raw123_zero : Np.ndarray Np.npfloat :=
  Eval vm_compute in
    match covariance_raw s123_zero None 0 None with
    | Ok r => r
    | Raise _ => Np.NDArray [] []
    end.
Definition max123_zero : Q :=
  Eval vm_compute in
    match Np.amax raw123_zero with
    | Ok (Np.Fin g) => g
    | _ => 1%Q
    end.

(** The shape of one trial's block in the covariance array: every entry
    [nan] (fewer than two samples), or finite, symmetric, and bounded in
    size by the mean of the two diagonal entries of its row and column. *)
Definition cov_block (A : Np.ndarray Np.npfloat) (N t : nat) : Prop :=
  (forall i j, i < N -> j < N ->
     Np.data A !! ((t * N + i) * N + j) = Some Np.NaN) \/
  (exists f : nat -> nat -> Q,
     (forall i j, i < N -> j < N ->
        Np.data A !! ((t * N + i) * N + j) = Some (Np.Fin (f i j))) /\
     (forall i j, i < N -> j < N ->
        (f i j == f j i)%Q /\
        (2 * f i j <= f i i + f j j)%Q /\
        (- (f i i + f j j) <= 2 * f i j)%Q)).


(** ** The representation *)

(** [str.format] with keyword arguments, for a template with named
    fields: the template is read from left to right, the text outside
    braces is copied, and a field [{name}] is replaced by the string of
    the keyword argument of that name; a name that is not among the
    keyword arguments raises [KeyError].  (Doubled braces, positional
    fields, conversions and format specifications do not occur in the
    template of the source.)  The second argument is the field name read
    so far, when the reader is inside a field. *)
Inductive formatted : Type :=
  | Formatted (s : string)
  | KeyError (key : string).

Fixpoint kwarg (name : string) (kwargs : list (string * string))
  : option string :=
  match kwargs with
  | [] => None
  | (k, v) :: kwargs' => if String.eqb k name then Some v else kwarg name kwargs'
  end.

Definition prepend (s : string) (r : formatted) : formatted :=
  match r with
  | Formatted s' => Formatted (s +:+ s')
  | KeyError k => KeyError k
  end.

Fixpoint str_format (template : string) (field : option string)
    (kwargs : list (string * string)) : formatted :=
  match template, field with
  | EmptyString, _ => Formatted EmptyString
  | String c rest, None =>
      if Ascii.eqb c "{"%char then str_format rest (Some EmptyString) kwargs
      else prepend (String c EmptyString) (str_format rest None kwargs)
  | String c rest, Some name =>
      if Ascii.eqb c "}"%char then
        match kwarg name kwargs with
        | Some v => prepend v (str_format rest None kwargs)
        | None => KeyError name
        end
      else str_format rest (Some (name +:+ String c EmptyString)) kwargs
  end.

(** [__repr__]: the template names the fields [n], [m] and [t]; the
    keyword arguments are [n], [u] and [t]. *)
Definition __repr__ (self : Spikes) : formatted :=
  str_format "<Spikes: {n} neurons, {m} bins, {t} trials>" None
    [("n", pretty (_N self)); ("u", pretty (_M self)); ("t", pretty (_T self))].

(** * Properties *)

(** ** The binarizer *)

Lemma sign_cases (x : Q) :
  Np.sign x = inject_Z (Z.sgn (Qnum x)).
Proof.
  destruct x as [[|p|p] d]; unfold Np.sign, Qcompare; simpl; reflexivity.
Qed.

Lemma binarize_formula (x : Q) :
  binarize x = inject_Z ((Z.sgn (Qnum x) + 1) / 2)%Z.
Proof.
  unfold binarize. rewrite sign_cases.
  destruct x as [[|p|p] d]; vm_compute; reflexivity.
Qed.

Lemma binarize_01 (x : Q) : binarize x = 0%Q \/ binarize x = 1%Q.
Proof.
  rewrite binarize_formula. destruct x as [[|p|p] d]; simpl; auto.
Qed.

Lemma double_data {A} (a : Np.ndarray A) : Np.data (Np.double a) = Np.data a.
Proof. unfold Np.double. by destruct (_ =? _). Qed.

Lemma double_shape {A} (a : Np.ndarray A) :
  Np.shape (Np.double a)
  = if Np.size_of (Np.shape a) =? 1 then [] else Np.shape a.
Proof. unfold Np.double. by destruct (_ =? _). Qed.

Lemma double_many {A} (a : Np.ndarray A) :
  Np.size_of (Np.shape a) <> 1 -> Np.double a = a.
Proof. unfold Np.double. intros H%Nat.eqb_neq. by rewrite H. Qed.

Lemma double_wf {A} (a : Np.ndarray A) : Np.wf a -> Np.wf (Np.double a).
Proof.
  unfold Np.wf, Np.double. destruct (Nat.eqb_spec (Np.size_of (Np.shape a)) 1);
    simpl; [|done]. congruence.
Qed.



(** ** Shape normalisation and trial selection *)

Lemma bind_Ok {A B} (a : A) (k : A -> result B) : (Ok a ≫= k) = k a.
Proof. reflexivity. Qed.

Lemma shape_at_lookup sh k d :
  sh !! k = Some d -> Np.shape_at sh k = Ok (Z.of_nat d).
Proof. unfold Np.shape_at. by intros ->. Qed.

Lemma forallb_nonneg_of_nat (l : list nat) :
  forallb (fun d => (0 <=? d)%Z) (Z.of_nat <$> l) = true.
Proof.
  induction l as [|x l IH]; csimpl; [done|].
  rewrite IH, andb_true_r. apply Z.leb_le. lia.
Qed.

Lemma to_nat_of_nat_list (l : list nat) : Z.to_nat <$> (Z.of_nat <$> l) = l.
Proof.
  induction l as [|x l IH]; csimpl; [done|]. by rewrite Nat2Z.id, IH.
Qed.

Lemma reshape_of_nat {A} (a : Np.ndarray A) (sh : list nat) :
  Np.size_of sh = length (Np.data a) ->
  Np.reshape a (Z.of_nat <$> sh) = Ok (Np.NDArray sh (Np.data a)).
Proof.
  intros H. unfold Np.reshape, Np.infer_dims.
  rewrite forallb_nonneg_of_nat, to_nat_of_nat_list.
  by rewrite (proj2 (Nat.eqb_eq _ _) H).
Qed.

Lemma reshape_mismatch {A} (a : Np.ndarray A) (dims : list Z) :
  forallb (fun d => (0 <=? d)%Z) dims = true ->
  Np.size_of (Z.to_nat <$> dims) <> length (Np.data a) ->
  Np.reshape a dims = Raise ValueError.
Proof.
  intros Hnn Hsz%Nat.eqb_neq. unfold Np.reshape, Np.infer_dims.
  by rewrite Hnn, Hsz.
Qed.




(** C10.  An empty [trials] list is falsy, so [trials or range(T)] is
    [range(T)] and every trial [0 <= t < T] is selected: [to_windowed],
    [rasterize] and [covariance] return on [trials = []] exactly what they
    return without a [trials] argument. *)
Theorem empty_trials_selects_all (self : Spikes) (window_size start : Z)
    (reshape : bool) (stop : option Z) (save_png_name : option string) :
  or_list (Some []) (range (_T self)) = range (_T self) /\
  (forall t, (0 <= t < _T self)%Z -> t ∈ or_list (Some []) (range (_T self))) /\
  to_windowed self window_size (Some []) reshape
    = to_windowed self window_size None reshape /\
  rasterize self (Some []) start stop save_png_name
    = rasterize self None start stop save_png_name /\
  covariance self (Some []) start stop save_png_name
    = covariance self None start stop save_png_name.
Proof.
  split; [reflexivity|]. split; [|repeat split; reflexivity].
  intros t Ht. simpl. unfold range. apply list_elem_of_fmap.
  exists (Z.to_nat t). split; [lia|]. apply elem_of_seq. lia.
Qed.

(** ** Oversized windows *)

Lemma for_each_skip {S A} (xs : list A) (body : A -> S -> result S) (s : S) :
  (forall x s', x ∈ xs -> body x s' = Ok s') -> for_each xs body s = Ok s.
Proof.
  induction xs as [|x xs IH]; intros H; simpl; [done|].
  rewrite H by left. simpl. apply IH. intros. apply H. by right.
Qed.

Lemma xrange_empty lo hi : (hi <= lo)%Z -> xrange lo hi = [].
Proof. intros H. unfold xrange. by replace (Z.to_nat (hi - lo)) with 0 by lia. Qed.

Lemma zeros_of_nat (sh : list nat) :
  Np.zeros (Z.of_nat <$> sh)
  = Ok (Np.NDArray sh (replicate (Np.size_of sh) 0%Q)).
Proof.
  unfold Np.zeros. by rewrite forallb_nonneg_of_nat, to_nat_of_nat_list.
Qed.

(** C8, as amended.  With [window_size = M + 1] the output has an empty
    time axis and nothing is raised.  With [window_size > M + 1] the time
    dimension [M - window_size + 1] of the output is negative and
    [np.zeros] raises [ValueError]. *)
Theorem to_windowed_oversized (self : Spikes) (window_size : Z)
    (trials : option (list Z)) (reshape : bool) :
  ((0 <= _N self)%Z -> (0 <= _M self)%Z -> window_size = (_M self + 1)%Z ->
   exists out, to_windowed self window_size trials reshape = Ok out /\
     match out with
     | WSpikes s' =>
         Np.shape (_spikes_arr s')
           = [length (or_list trials (range (_T self)));
              Z.to_nat (window_size * _N self); 0] /\
         Np.data (_spikes_arr s') = [] /\ _M s' = 0%Z
     | WMatrix Y =>
         Np.shape Y = [0; Z.to_nat (window_size * _N self)] /\ Np.data Y = []
     end) /\
  ((_M self + 1 < window_size)%Z ->
   to_windowed self window_size trials reshape = Raise ValueError).
Proof.
  split.
  - intros HN HM ->. unfold to_windowed.
    set (sel := or_list trials (range (_T self))).
    replace (_M self - (_M self + 1) + 1)%Z with 0%Z by lia.
    replace [Z.of_nat (length sel); ((_M self + 1) * _N self)%Z; 0%Z]
      with (Z.of_nat <$> [length sel; Z.to_nat ((_M self + 1) * _N self); 0]).
    2:{ csimpl. f_equal. f_equal. rewrite Z2Nat.id; [done | nia]. }
    rewrite zeros_of_nat, bind_Ok.
    rewrite for_each_skip.
    2:{ intros [c t] X _. by rewrite xrange_empty. }
    rewrite bind_Ok.
    assert (Hsz : Np.size_of [length sel; Z.to_nat ((_M self + 1) * _N self); 0] = 0).
    { simpl. lia. }
    rewrite Hsz. simpl replicate.
    destruct reshape.
    + simpl Np.shape. unfold Np.shape_at at 1 2 3. simpl lookup.
      cbv beta iota. rewrite !bind_Ok.
      replace [(Z.of_nat (length sel) * Z.of_nat 0)%Z;
               Z.of_nat (Z.to_nat ((_M self + 1) * _N self))]
        with (Z.of_nat <$> [0; Z.to_nat ((_M self + 1) * _N self)]).
      2:{ csimpl. f_equal. lia. }
      rewrite zeros_of_nat, bind_Ok.
      rewrite for_each_skip.
      2:{ intros t st _. by rewrite xrange_empty. }
      rewrite bind_Ok. eexists. split; [reflexivity|].
      done.
    + unfold __init__. rewrite bind_Ok. simpl.
      eexists. split; [reflexivity|]. unfold preprocess.
      cbn [_spikes_arr _M]. rewrite double_data, double_shape. simpl.
      replace (length sel * (Z.to_nat ((_M self + 1) * _N self) * 0)) with 0
        by lia.
      done.
  - intros Hws. unfold to_windowed, Np.zeros.
    cbn [forallb].
    replace (0 <=? _M self - window_size + 1)%Z with false
      by (symmetry; apply Z.leb_gt; lia).
    by rewrite !andb_false_r.
Qed.

Lemma to_windowed_oversized_witness :
  (0 <= _N s111)%Z /\ (0 <= _M s111)%Z /\ 2%Z = (_M s111 + 1)%Z /\
  (exists out, to_windowed s111 2 None false = Ok out /\
     match out with
     | WSpikes s' =>
         Np.shape (_spikes_arr s') = [1; 2; 0] /\
         Np.data (_spikes_arr s') = [] /\ _M s' = 0%Z
     | WMatrix Y => Np.shape Y = [0; 2] /\ Np.data Y = []
     end) /\
  ((_M s111 + 1 < 3)%Z /\ to_windowed s111 3 None false = Raise ValueError).
Proof.
  assert (H0 : (0 <= 1)%Z) by lia.
  split; [exact H0|]. split; [exact H0|]. split; [reflexivity|].
  split.
  - exact (proj1 (to_windowed_oversized s111 2 None false) H0 H0 eq_refl).
  - assert (H : (_M s111 + 1 < 3)%Z) by (simpl; lia).
    split; [exact H|].
    exact (proj2 (to_windowed_oversized s111 3 None false) H).
Defined.

(** C8 fails as stated: with [M = 1] and [window_size = 3] the call
    raises [ValueError], with or without [reshape]. *)
Lemma to_windowed_oversized_raises :
  (_M s111 < 3)%Z /\ to_windowed s111 3 None false = Raise ValueError
  /\ to_windowed s111 3 None true = Raise ValueError.
Proof. split; [simpl; lia|]. split; reflexivity. Qed.

(** ** Temporal binning *)

Lemma for_each_inv {St A} (I : nat -> St -> Prop) (xs : list A)
    (body : A -> St -> result St) (s : St) :
  I 0 s ->
  (forall k x s0, xs !! k = Some x -> I k s0 ->
     exists s1, body x s0 = Ok s1 /\ I (S k) s1) ->
  exists s', for_each xs body s = Ok s' /\ I (length xs) s'.
Proof.
  revert I s. induction xs as [|x xs IH]; intros I s H0 Hstep; simpl.
  - eauto.
  - destruct (Hstep 0 x s eq_refl H0) as (s1 & -> & H1). simpl.
    apply (IH (fun k => I (S k))); [done|].
    intros k y s0 Hk. apply (Hstep (S k)). done.
Qed.

Lemma enumerate_lookup {A} (xs : list A) k x :
  xs !! k = Some x -> enumerate xs !! k = Some (Z.of_nat k, x).
Proof. intros H. unfold enumerate. by rewrite list_lookup_imap, H. Qed.

Lemma enumerate_lookup_inv {A} (xs : list A) k c x :
  enumerate xs !! k = Some (c, x) -> c = Z.of_nat k /\ xs !! k = Some x.
Proof.
  unfold enumerate. rewrite list_lookup_imap.
  destruct (xs !! k); simpl; [|done]. by intros [= <- <-].
Qed.

Lemma length_enumerate {A} (xs : list A) : length (enumerate xs) = length xs.
Proof. unfold enumerate. by rewrite length_imap. Qed.

(** Row-major positions of a two-axis array are distinct. *)
Lemma idx2_inj (w r c r' c' : nat) :
  c < w -> c' < w -> r * w + c = r' * w + c' -> r = r' /\ c = c'.
Proof.
  intros Hc Hc' E.
  assert (Hr : r = r').
  { assert (H1 : (r * w + c) / w = r)
      by (rewrite Nat.div_add_l, Nat.div_small by lia; lia).
    assert (H2 : (r' * w + c') / w = r')
      by (rewrite Nat.div_add_l, Nat.div_small by lia; lia).
    rewrite E in H1. congruence. }
  subst r'. lia.
Qed.

Lemma idx2_lt (h w r c : nat) : r < h -> c < w -> r * w + c < h * w.
Proof. intros. nia. Qed.

Lemma norm_index_nat (n k : nat) : k < n -> Np.norm_index n (Z.of_nat k) = Ok k.
Proof.
  intros H. unfold Np.norm_index.
  replace (0 <=? Z.of_nat k)%Z with true by (symmetry; apply Z.leb_le; lia).
  replace (Z.of_nat k <? Z.of_nat n)%Z with true by (symmetry; apply Z.ltb_lt; lia).
  simpl. by rewrite Nat2Z.id.
Qed.

(** Truncation and floor of a quotient of nonnegative integers. *)
Lemma Qdiv_inject_pos (t : Z) (p : positive) :
  (inject_Z t / inject_Z (Zpos p))%Q = (t * 1 # 1 * p)%Q.
Proof. reflexivity. Qed.

Lemma py_int_frac (n : Z) (d : positive) :
  (0 <= n)%Z -> py_int (n # d) = (n / Zpos d)%Z.
Proof. intros H. unfold py_int. simpl. apply Z.quot_div_nonneg; lia. Qed.

Lemma bin_index_eq (t : Z) (b : positive) :
  bin_index t (Zpos b) = (t / (1000 * Zpos b))%Z.
Proof.
  unfold bin_index. change (1000 * inject_Z (Z.pos b))%Q with (inject_Z (Zpos (1000 * b))).
  rewrite Qdiv_inject_pos. unfold Qfloor. f_equal; lia.
Qed.

(** *** Doubles *)

Lemma py_int_floor (q : Q) : (0 <= q)%Q -> py_int q = Qfloor q.
Proof.
  destruct q as [n d]. unfold Qle, py_int, Qfloor. simpl. intros H.
  apply Z.quot_div_nonneg; lia.
Qed.

Lemma Qfloor_unique (q : Q) (k : Z) :
  (inject_Z k <= q)%Q -> (q < inject_Z (k + 1))%Q -> Qfloor q = k.
Proof.
  intros H1 H2.
  assert (k <= Qfloor q)%Z.
  { rewrite <- (Qfloor_Z k). by apply Qfloor_resp_le. }
  assert (Qfloor q < k + 1)%Z.
  { rewrite Zlt_Qlt. eapply Qle_lt_trans; [apply Qfloor_le|done]. }
  lia.
Qed.

Lemma rne_comp (y y' : Q) : (y == y')%Q -> F64.rne y = F64.rne y'.
Proof.
  intros E. unfold F64.rne. rewrite (Qfloor_comp _ _ E).
  assert (E2 : (y - inject_Z (Qfloor y') ?= 1 # 2)%Q
               = (y' - inject_Z (Qfloor y') ?= 1 # 2)%Q)
    by (by rewrite E).
  by rewrite E2.
Qed.

Lemma rne_Z (n : Z) : F64.rne (inject_Z n) = n.
Proof.
  unfold F64.rne. rewrite Qfloor_Z.
  assert (E : (inject_Z n - inject_Z n ?= 1 # 2)%Q = Lt).
  { apply Qlt_alt. setoid_replace (inject_Z n - inject_Z n)%Q with 0%Q using relation Qeq by ring.
    reflexivity. }
  by rewrite E.
Qed.

Lemma rne_ge (y : Q) (n : Z) : (inject_Z n <= y)%Q -> (n <= F64.rne y)%Z.
Proof.
  intros H.
  assert (n <= Qfloor y)%Z.
  { rewrite <- (Qfloor_Z n). by apply Qfloor_resp_le. }
  unfold F64.rne. destruct (_ ?= _)%Q; [destruct (Z.even _)| |]; lia.
Qed.

Lemma rne_lt (y : Q) (n : Z) :
  (y < inject_Z n - (1 # 2))%Q -> (F64.rne y < n)%Z.
Proof.
  intros H.
  pose proof (Qfloor_le y) as Hf.
  assert (Hn : (Qfloor y < n)%Z).
  { rewrite Zlt_Qlt. lra. }
  unfold F64.rne.
  destruct (Qcompare_spec (y - inject_Z (Qfloor y)) (1 # 2)) as [E|E|E];
    [| lia |].
  - assert (Qfloor y + 1 < n)%Z; [|destruct (Z.even _); lia].
    rewrite Zlt_Qlt, inject_Z_plus. change (inject_Z 1) with 1%Q. lra.
  - assert (Qfloor y + 1 < n)%Z; [|lia].
    assert (Qfloor y + 1 <> n)%Z.
    { intros <-. rewrite inject_Z_plus in H. change (inject_Z 1) with 1%Q in H.
      lra. }
    lia.
Qed.

Lemma ilog2_comp (q q' : Q) : (q == q')%Q -> F64.ilog2 q = F64.ilog2 q'.
Proof.
  intros E. unfold F64.ilog2.
  assert (Ea : (Qabs q == Qabs q')%Q) by (by rewrite E).
  assert (Eb : Qle_bool 1 (Qabs q) = Qle_bool 1 (Qabs q')).
  { apply eq_true_iff_eq. rewrite !Qle_bool_iff. by rewrite Ea. }
  rewrite Eb, (Qfloor_comp _ _ Ea).
  assert (Ec : (/ Qabs q == / Qabs q')%Q) by (by rewrite Ea).
  by rewrite (Qceiling_comp _ _ Ec).
Qed.

Lemma round_comp (q q' : Q) : (q == q')%Q -> F64.round q = F64.round q'.
Proof.
  intros E. unfold F64.round.
  assert (Eb : Qeq_bool q 0 = Qeq_bool q' 0).
  { apply eq_true_iff_eq. rewrite !Qeq_bool_iff. by rewrite E. }
  rewrite Eb, (ilog2_comp _ _ E).
  destruct (Qeq_bool q' 0); [done|]. destruct (_ <=? _)%Z.
  - f_equal. f_equal. apply rne_comp. by rewrite E.
  - f_equal. f_equal. apply rne_comp. by rewrite E.
Qed.

(** The scaled significand of a positive number below [2^53]. *)
Lemma significand_bounds (x : Q) :
  (0 < x)%Q -> (x < inject_Z (2 ^ 53))%Q ->
  (F64.ilog2 x <= 52)%Z /\
  (inject_Z (2 ^ 52) <= x * inject_Z (2 ^ (52 - F64.ilog2 x)))%Q.
Proof.
  intros Hpos Hlt.
  assert (Hil : F64.ilog2 x
                = if Qle_bool 1 x then Z.log2 (Qfloor x)
                  else (- Z.log2_up (Qceiling (/ x)))%Z).
  { unfold F64.ilog2.
    assert (Ea : (Qabs x == x)%Q) by (apply Qabs_pos; lra).
    assert (Eb : Qle_bool 1 (Qabs x) = Qle_bool 1 x).
    { apply eq_true_iff_eq. rewrite !Qle_bool_iff. by rewrite Ea. }
    assert (Ec : (/ Qabs x == / x)%Q) by (by rewrite Ea).
    by rewrite Eb, (Qfloor_comp _ _ Ea), (Qceiling_comp _ _ Ec). }
  rewrite Hil. clear Hil.
  destruct (Qle_bool 1 x) eqn:E1.
  - cbv iota. apply Qle_bool_iff in E1.
    assert (Hf1 : (1 <= Qfloor x)%Z).
    { rewrite <- (Qfloor_Z 1). by apply Qfloor_resp_le. }
    assert (Hf2 : (Qfloor x < 2 ^ 53)%Z).
    { rewrite Zlt_Qlt. eapply Qle_lt_trans; [apply Qfloor_le|done]. }
    set (p := Z.log2 (Qfloor x)).
    assert (Hp0 : (0 <= p)%Z) by apply Z.log2_nonneg.
    destruct (Z.log2_spec (Qfloor x)) as [Hlo Hhi]; [lia|]. fold p in Hlo, Hhi.
    assert (Hp : (p <= 52)%Z).
    { assert (p < 53)%Z; [|lia]. apply (Z.pow_lt_mono_r_iff 2); lia. }
    split; [done|].
    assert (Hx : (inject_Z (2 ^ p) <= x)%Q).
    { eapply Qle_trans; [|apply Qfloor_le]. by rewrite <- Zle_Qle. }
    replace (2 ^ 52)%Z with (2 ^ p * 2 ^ (52 - p))%Z
      by (rewrite <- Z.pow_add_r by lia; f_equal; lia).
    rewrite inject_Z_mult.
    apply Qmult_le_compat_r; [done|].
    change 0%Q with (inject_Z 0). rewrite <- Zle_Qle. apply Z.pow_nonneg. lia.
  - cbv iota. assert (Hx1 : (x < 1)%Q).
    { apply Qnot_le_lt. intros H. apply Qle_bool_iff in H. congruence. }
    set (j := Z.log2_up (Qceiling (/ x))).
    assert (Hinv : (1 < / x)%Q).
    { apply Qlt_shift_inv_l; lra. }
    assert (Hc : (1 < Qceiling (/ x))%Z).
    { rewrite Zlt_Qlt. eapply Qlt_le_trans; [exact Hinv|apply Qle_ceiling]. }
    destruct (Z.log2_up_spec (Qceiling (/ x)) Hc) as [_ Hhi]. fold j in Hhi.
    assert (Hj : (0 < j)%Z) by (apply Z.log2_up_pos; lia).
    split; [lia|].
    assert (Hle : (/ x <= inject_Z (2 ^ j))%Q).
    { eapply Qle_trans; [apply Qle_ceiling|]. by rewrite <- Zle_Qle. }
    assert (H2j : (0 < inject_Z (2 ^ j))%Q).
    { change 0%Q with (inject_Z 0). rewrite <- Zlt_Qlt. apply Z.pow_pos_nonneg; lia. }
    assert (Hx : (1 <= x * inject_Z (2 ^ j))%Q).
    { apply (Qmult_le_l _ _ x) in Hle; [|done].
      rewrite Qmult_inv_r in Hle by lra. done. }
    replace (52 - - j)%Z with (j + 52)%Z by lia.
    rewrite Z.pow_add_r by lia. rewrite inject_Z_mult.
    assert (H52 : (0 <= inject_Z (2 ^ 52))%Q).
    { change 0%Q with (inject_Z 0). by rewrite <- Zle_Qle. }
    rewrite Qmult_assoc.
    setoid_replace (inject_Z (2 ^ 52)) with (1 * inject_Z (2 ^ 52))%Q using relation Qeq at 1 by ring.
    by apply Qmult_le_compat_r.
Qed.

(** Integers below [2^53] are doubles. *)
Lemma round_Z (n : Z) :
  (0 <= n < 2 ^ 53)%Z -> (F64.round (inject_Z n) == inject_Z n)%Q.
Proof.
  intros Hn. unfold F64.round.
  destruct (Qeq_bool (inject_Z n) 0) eqn:E0.
  { apply Qeq_bool_iff in E0. by rewrite E0. }
  assert (Hpos : (0 < inject_Z n)%Q).
  { apply Qeq_bool_neq in E0. change 0%Q with (inject_Z 0) in *.
    rewrite <- Zlt_Qlt. rewrite inject_Z_injective in E0. lia. }
  destruct (significand_bounds (inject_Z n) Hpos) as [He _].
  { rewrite <- Zlt_Qlt. lia. }
  apply Z.leb_le in He as He'. rewrite He'.
  set (s := (2 ^ (52 - F64.ilog2 (inject_Z n)))%Z).
  assert (Hs : (0 < s)%Z) by (apply Z.pow_pos_nonneg; lia).
  rewrite <- inject_Z_mult, rne_Z, inject_Z_mult.
  field. change 0%Q with (inject_Z 0). rewrite inject_Z_injective. lia.
Qed.

(** Dividing two integers below [2^53] in doubles and truncating gives
    the integer quotient. *)
Lemma floor_round_div (t d : Z) :
  (0 <= t < 2 ^ 53)%Z -> (0 < d)%Z ->
  Qfloor (F64.round (inject_Z t / inject_Z d)) = (t / d)%Z /\
  (0 <= F64.round (inject_Z t / inject_Z d))%Q.
Proof.
  intros Ht Hd.
  assert (Hdq : (0 < inject_Z d)%Q).
  { change 0%Q with (inject_Z 0). by rewrite <- Zlt_Qlt. }
  unfold F64.round.
  destruct (Qeq_bool (inject_Z t / inject_Z d) 0) eqn:E0.
  { apply Qeq_bool_iff in E0.
    assert (t = 0)%Z as ->.
    { apply (Qmult_inj_r _ _ (inject_Z d)) in E0; [|lra].
      rewrite Qmult_0_l in E0.
      assert (E : (inject_Z t / inject_Z d * inject_Z d == inject_Z t)%Q)
        by (field; lra).
      rewrite E in E0. change 0%Q with (inject_Z 0) in E0.
      by rewrite inject_Z_injective in E0. }
    split; [done|lra]. }
  set (x := (inject_Z t / inject_Z d)%Q) in *.
  assert (Htpos : (0 < t)%Z).
  { apply Qeq_bool_neq in E0. destruct (decide (t = 0%Z)) as [->|]; [|lia].
    exfalso. apply E0. subst x. unfold Qdiv. by rewrite Qmult_0_l. }
  assert (Hxpos : (0 < x)%Q).
  { subst x. apply Qlt_shift_div_l; [done|]. rewrite Qmult_0_l.
    change 0%Q with (inject_Z 0). by rewrite <- Zlt_Qlt. }
  assert (Hxt : (x <= inject_Z t)%Q).
  { subst x. apply Qle_shift_div_r; [done|].
    rewrite <- inject_Z_mult, <- Zle_Qle. nia. }
  destruct (significand_bounds x Hxpos) as [He Hsig].
  { eapply Qle_lt_trans; [exact Hxt|]. rewrite <- Zlt_Qlt. lia. }
  apply Z.leb_le in He as He'. rewrite He'.
  set (s := (2 ^ (52 - F64.ilog2 x))%Z) in *.
  assert (Hs : (0 < s)%Z) by (apply Z.pow_pos_nonneg; lia).
  assert (Hsq : (0 < inject_Z s)%Q).
  { change 0%Q with (inject_Z 0). by rewrite <- Zlt_Qlt. }
  set (k := (t / d)%Z).
  assert (Hk : (k * d <= t < (k + 1) * d)%Z).
  { subst k. pose proof (Z.mul_div_le t d Hd).
    pose proof (Z.mul_succ_div_gt t d Hd). lia. }
  assert (Hk0 : (0 <= k)%Z) by (apply Z.div_pos; lia).
  (* d < 2 s *)
  assert (Hxd : (x * inject_Z d == inject_Z t)%Q) by (subst x; field; lra).
  assert (Hd2s : (d < 2 * s)%Z).
  { assert (H1 : (inject_Z (2 ^ 52) * inject_Z d <= inject_Z t * inject_Z s)%Q).
    { rewrite <- Hxd.
      setoid_replace (x * inject_Z d * inject_Z s)%Q
        with (x * inject_Z s * inject_Z d)%Q using relation Qeq by ring.
      apply Qmult_le_compat_r; [done|lra]. }
    rewrite <- !inject_Z_mult, <- Zle_Qle in H1. nia. }
  (* bounds on the scaled value *)
  assert (Hlo : (inject_Z (k * s) <= x * inject_Z s)%Q).
  { rewrite inject_Z_mult. apply Qmult_le_compat_r; [|lra].
    subst x. apply Qle_shift_div_l; [done|].
    rewrite <- inject_Z_mult, <- Zle_Qle. lia. }
  assert (Hhi : (x * inject_Z s < inject_Z ((k + 1) * s) - (1 # 2))%Q).
  { assert (H1 : (x + 1 / inject_Z d <= inject_Z (k + 1))%Q).
    { subst x.
      setoid_replace (inject_Z t / inject_Z d + 1 / inject_Z d)%Q
        with ((inject_Z (t + 1)) / inject_Z d)%Q using relation Qeq by (rewrite inject_Z_plus; change (inject_Z 1) with 1%Q; field; lra).
      apply Qle_shift_div_r; [done|].
      rewrite <- inject_Z_mult, <- Zle_Qle. lia. }
    assert (H2 : ((1 # 2) < inject_Z s / inject_Z d)%Q).
    { apply Qlt_shift_div_l; [done|].
      setoid_replace ((1 # 2) * inject_Z d)%Q with (inject_Z d / 2)%Q using relation Qeq by field.
      apply Qlt_shift_div_r; [lra|].
      change 2%Q with (inject_Z 2). rewrite <- inject_Z_mult, <- Zlt_Qlt. lia. }
    rewrite inject_Z_mult.
    assert (H3 : ((x + 1 / inject_Z d) * inject_Z s
                  <= inject_Z (k + 1) * inject_Z s)%Q)
      by (apply Qmult_le_compat_r; [done|lra]).
    assert (H4 : ((x + 1 / inject_Z d) * inject_Z s
                  == x * inject_Z s + inject_Z s / inject_Z d)%Q)
      by (field; lra).
    rewrite H4 in H3. lra. }
  pose proof (rne_ge _ _ Hlo) as Hr1.
  pose proof (rne_lt _ _ Hhi) as Hr2.
  set (m := F64.rne (x * inject_Z s)) in *.
  split.
  - apply Qfloor_unique.
    + apply Qle_shift_div_l; [done|].
      rewrite <- inject_Z_mult, <- Zle_Qle. lia.
    + apply Qlt_shift_div_r; [done|].
      rewrite <- inject_Z_mult, <- Zlt_Qlt. lia.
  - apply Qle_shift_div_l; [done|]. rewrite Qmult_0_l.
    change 0%Q with (inject_Z 0). rewrite <- Zle_Qle. nia.
Qed.

(** *** The horizon and the bin index *)

Local Abbreviation ms t :=
  (F64.div (F64.mul 1 (F64.of_int t)) (F64.of_int (10 ^ 3))).

Lemma ms_round (t : Z) :
  (0 <= t < 2 ^ 53)%Z -> ms t = F64.round (inject_Z t / inject_Z 1000).
Proof.
  intros Ht. unfold F64.div, F64.mul, F64.of_int.
  change (10 ^ 3)%Z with 1000%Z. apply round_comp.
  assert (E1 : (F64.round (inject_Z 1000) == inject_Z 1000)%Q)
    by (apply round_Z; lia).
  assert (E2 : (1 * F64.round (inject_Z t) == inject_Z t)%Q).
  { rewrite Qmult_1_l. by apply round_Z. }
  rewrite (round_comp _ _ E2), E1. by rewrite (round_Z t Ht).
Qed.

Lemma py_int_ms (t : Z) :
  (0 <= t < 2 ^ 53)%Z -> py_int (ms t) = (t / 1000)%Z /\ (0 <= ms t)%Q.
Proof.
  intros Ht. rewrite (ms_round t Ht).
  destruct (floor_round_div t 1000 Ht) as [Hf Hn]; [lia|].
  by rewrite py_int_floor.
Qed.

Lemma fmax_fin_cases (a b : Q) :
  exists r, Np.fmax (Np.Fin a) (Np.Fin b) = Np.Fin r /\
    (r = a \/ r = b) /\ (a <= r)%Q /\ (b <= r)%Q.
Proof.
  unfold Np.fmax. destruct (Qle_bool a b) eqn:E.
  - apply Qle_bool_iff in E. exists b. repeat split; auto. apply Qle_refl.
  - assert (~ (a <= b)%Q) as H by (rewrite <- Qle_bool_iff; congruence).
    exists a. repeat split; auto; [apply Qle_refl|].
    apply Qlt_le_weak. by apply Qnot_le_lt.
Qed.

Lemma last_item_Some {A} (l : list A) x : last l = Some x -> last_item l = Ok x.
Proof. unfold last_item. by intros ->. Qed.

(** The horizon loop from a running maximum [q0]: the result is [q0] or
    the milliseconds of some source's last timestamp, and it bounds all
    of them. *)
Lemma max_millisec_from (lists : list (list Z)) (q0 : Q) :
  (forall l, l ∈ lists -> l ≠ []) ->
  exists q,
    for_each lists
      (fun spike_times mx =>
         t ← last_item spike_times;
         Ok (Np.fmax mx (Np.Fin (ms t))))
      (Np.Fin q0) = Ok (Np.Fin q) /\
    (q0 <= q)%Q /\
    (forall l x, l ∈ lists -> last l = Some x -> (ms x <= q)%Q) /\
    (q = q0 \/ exists l x, l ∈ lists /\ last l = Some x /\ q = ms x).
Proof.
  revert q0. induction lists as [|l lists IH]; intros q0 Hne; cbn [for_each].
  - exists q0. split; [done|]. split; [apply Qle_refl|]. split; [|by left].
    intros l x Hl. by apply elem_of_nil in Hl.
  - assert (exists x, last l = Some x) as [x Hx].
    { destruct (last l) eqn:E; [eauto|]. apply last_None in E.
      exfalso. eapply Hne; [left|done]. }
    rewrite (last_item_Some l x Hx), !bind_Ok.
    destruct (fmax_fin_cases q0 (ms x)) as (r & -> & Hr & Hr0 & Hrx).
    destruct (IH r) as (q & Hq & Hle & Hall & Hex).
    { intros. apply Hne. by right. }
    exists q. split; [done|]. split; [by eapply Qle_trans|]. split.
    + intros l' x' [->|Hl']%elem_of_cons Hx'.
      * rewrite Hx in Hx'. injection Hx' as <-. by eapply Qle_trans.
      * eauto.
    + destruct Hex as [->|(l' & x' & Hl' & Hx' & ->)].
      * destruct Hr as [->| ->]; [by left|].
        right. exists l, x. split; [left|done].
      * right. exists l', x'. split; [by right|done].
Qed.

(** With at least one source and an event in every source the horizon
    is the milliseconds of some last timestamp and bounds all of them. *)
Lemma max_millisec_some (lists : list (list Z)) :
  lists ≠ [] -> (forall l, l ∈ lists -> l ≠ []) ->
  exists q l x,
    max_millisec lists = Ok (Np.Fin q) /\
    l ∈ lists /\ last l = Some x /\ q = ms x /\
    (forall l' x', l' ∈ lists -> last l' = Some x' -> (ms x' <= q)%Q).
Proof.
  intros Hnil Hne. unfold max_millisec.
  destruct lists as [|l lists]; [done|].
  cbn [for_each].
  assert (exists x, last l = Some x) as [x Hx].
  { destruct (last l) eqn:E; [eauto|]. apply last_None in E.
    exfalso. eapply Hne; [left|done]. }
  cbv beta. rewrite (last_item_Some l x Hx), !bind_Ok.
  change (Np.fmax Np.NInf (Np.Fin (ms x))) with (Np.Fin (ms x)).
  destruct (max_millisec_from lists (ms x)) as (q & Hq & Hle & Hall & Hex).
  { intros. apply Hne. by right. }
  rewrite Hq.
  assert (Hb : forall l' x', l' ∈ l :: lists -> last l' = Some x' ->
                 (ms x' <= q)%Q).
  { intros l' x' [->|Hl']%elem_of_cons Hx'.
    - rewrite Hx in Hx'. by injection Hx' as <-.
    - eauto. }
  destruct Hex as [->|(l' & x' & Hl' & Hx' & ->)].
  - exists (ms x), l, x. split; [done|]. split; [left|]. done.
  - exists (ms x'), l', x'. split; [done|]. split; [by right|]. done.
Qed.

(** When the last timestamps are below [2^53] the truncated horizon is
    that of the largest of them. *)
Lemma max_millisec_largest_last (lists : list (list Z)) (L : Z) :
  (forall l, l ∈ lists -> l ≠ []) ->
  (forall l x, l ∈ lists -> last l = Some x -> (0 <= x < 2 ^ 53)%Z) ->
  (exists l, l ∈ lists /\ last l = Some L) ->
  (forall l x, l ∈ lists -> last l = Some x -> (x <= L)%Z) ->
  exists q, max_millisec lists = Ok (Np.Fin q) /\ py_int q = (L / 1000)%Z.
Proof.
  intros Hne Hrange (l0 & Hl0 & HL0) Hmax.
  destruct (max_millisec_some lists) as (q & l & x & Hq & Hl & Hx & -> & Hb);
    [intros ->; by apply elem_of_nil in Hl0|done|].
  exists (ms x). split; [done|].
  pose proof (Hrange l x Hl Hx) as Hxr.
  pose proof (Hrange l0 L Hl0 HL0) as HLr.
  destruct (py_int_ms x Hxr) as [Hpx Hx0].
  destruct (py_int_ms L HLr) as [HpL HL0'].
  rewrite Hpx.
  assert (x / 1000 <= L / 1000)%Z.
  { apply Z.div_le_mono; [lia|]. by apply (Hmax l). }
  assert (L / 1000 <= x / 1000)%Z.
  { rewrite <- HpL, <- Hpx, !py_int_floor by done.
    apply Qfloor_resp_le. by apply (Hb l0). }
  lia.
Qed.

(** The bin index of a timestamp below [2^53], for an integer width. *)
Lemma cell_index (t : Z) (b : positive) :
  (0 <= t < 2 ^ 53)%Z -> (1000 * Zpos b < 2 ^ 53)%Z ->
  exists d,
    py_truediv (F64.of_int t) (F64.mul 1000 (to_float (PyInt (Zpos b)))) = Ok d /\
    py_int d = bin_index t (Zpos b).
Proof.
  intros Ht Hb. cbn [to_float].
  assert (E1 : (F64.mul 1000 (F64.of_int (Zpos b)) == inject_Z (1000 * Zpos b))%Q).
  { unfold F64.mul, F64.of_int.
    rewrite (round_comp _ (inject_Z (1000 * Zpos b))).
    - apply round_Z. lia.
    - rewrite round_Z by lia. by rewrite inject_Z_mult. }
  unfold py_truediv.
  assert (E0 : Qeq_bool (F64.mul 1000 (F64.of_int (Zpos b))) 0 = false).
  { apply not_true_is_false. rewrite Qeq_bool_iff, E1.
    change 0%Q with (inject_Z 0). rewrite inject_Z_injective. lia. }
  rewrite E0. eexists. split; [reflexivity|].
  unfold F64.div. rewrite (round_comp _ (inject_Z t / inject_Z (1000 * Zpos b))).
  2:{ unfold F64.of_int. rewrite (round_Z t Ht). by rewrite E1. }
  destruct (floor_round_div t (1000 * Zpos b)) as [Hf Hn]; [lia|lia|].
  rewrite py_int_floor by done. by rewrite Hf, bin_index_eq.
Qed.

Lemma grid_width_eq (L : Z) (b : positive) :
  grid_width L (Zpos b) = (L / 1000 / Zpos b + 1)%Z.
Proof.
  unfold grid_width. f_equal.
  change (inject_Z L / 1000 / inject_Z (Z.pos b))%Q
    with ((L * 1 * 1) # (1 * 1000 * b))%Q.
  unfold Qfloor. rewrite Z.div_div by lia. f_equal; lia.
Qed.

Lemma get2_lookup {A} (a : Np.ndarray A) h w r c :
  Np.shape a = [h; w] -> r < h -> c < w ->
  Np.get2 a r c = Np.data a !! (r * w + c).
Proof.
  intros Hsh Hr Hc. unfold Np.get2. rewrite Hsh.
  by rewrite decide_True by done.
Qed.

Section binning.
Context (lists : list (list Z)) (b : positive) (M : nat).
Hypothesis Hrange : forall l t, l ∈ lists -> t ∈ l -> (0 <= t < 2 ^ 53)%Z.
Hypothesis Hwidth : (1000 * Zpos b < 2 ^ 53)%Z.

Let cell (l : list Z) (j : nat) : Q :=
    if existsb (fun t => (bin_index t (Zpos b) =? Z.of_nat j)%Z) l then 1%Q else 0%Q.

Let inner_inv (c : nat) (l : list Z) (k : nat) (arr : Np.ndarray Q) : Prop :=
    Np.shape arr = [length lists; M] /\
    length (Np.data arr) = length lists * M /\
    forall c' l' j, lists !! c' = Some l' -> j < M ->
      Np.data arr !! (c' * M + j)
      = Some (if decide (c' < c) then cell l' j
              else if decide (c' = c) then cell (take k l) j else 0%Q).

Lemma binning_row (c : nat) (l : list Z) (arr : Np.ndarray Q) :
    lists !! c = Some l ->
    inner_inv c l 0 arr ->
    exists arr',
      for_each l
        (fun spike_time arr =>
           d ← py_truediv (F64.of_int spike_time)
                      (F64.mul 1000 (to_float (PyInt (Zpos b))));
           let a := py_int d in
           w ← Np.shape_at (Np.shape arr) 1;
           if (a <? w)%Z then Np.setitem2 arr (Z.of_nat c) a 1%Q else Ok arr)
        arr = Ok arr' /\
      inner_inv c l (length l) arr'.
  Proof.
    intros Hc H0. apply (for_each_inv (inner_inv c l)); [done|].
    intros k t arr0 Hk (Hsh & Hlen & Hcells).
    assert (Ht : (0 <= t < 2 ^ 53)%Z).
    { eapply Hrange; [by eapply list_elem_of_lookup_2|by eapply list_elem_of_lookup_2]. }
    destruct (cell_index t b Ht Hwidth) as (d & -> & Hd).
    rewrite bind_Ok. cbv zeta. rewrite Hd.
    rewrite (shape_at_lookup _ 1 M) by (by rewrite Hsh). rewrite bind_Ok.
    assert (Hc' : c < length lists) by (by eapply lookup_lt_Some).
    assert (Hb : (0 <= bin_index t (Zpos b))%Z).
    { rewrite bin_index_eq. apply Z.div_pos; lia. }
    assert (Hcell : forall j, cell (take (S k) l) j
              = if (bin_index t (Zpos b) =? Z.of_nat j)%Z then 1%Q
                else cell (take k l) j).
    { intros j. unfold cell. rewrite (take_S_r _ _ _ Hk), existsb_app. simpl.
      rewrite orb_false_r.
      destruct (existsb _ (take k l)), (bin_index t (Z.pos b) =? Z.of_nat j)%Z; done. }
    destruct (bin_index t (Zpos b) <? Z.of_nat M)%Z eqn:Elt.
    - apply Z.ltb_lt in Elt.
      set (a := Z.to_nat (bin_index t (Zpos b))).
      assert (Ha : bin_index t (Zpos b) = Z.of_nat a) by lia.
      assert (a < M) by lia.
      unfold Np.setitem2. rewrite Hsh.
      rewrite norm_index_nat, bind_Ok by done.
      rewrite Ha, norm_index_nat, bind_Ok by done.
      eexists. split; [reflexivity|]. split; [done|].
      split; [simpl; by rewrite length_insert|].
      intros c' l' j Hl' Hj. simpl.
      destruct (decide (c' * M + j = c * M + a)) as [E|NE].
      + apply idx2_inj in E as [-> ->]; [|done..].
        rewrite list_lookup_insert_eq.
        2:{ rewrite Hlen. by apply idx2_lt. }
        rewrite decide_False, decide_True by lia.
        rewrite Hcell, Ha, Z.eqb_refl. done.
      + rewrite list_lookup_insert_ne by done.
        rewrite (Hcells c' l' j) by done.
        repeat case_decide; try done. subst c'.
        rewrite Hcell, Ha.
        destruct (Z.eqb_spec (Z.of_nat a) (Z.of_nat j)); [|done].
        exfalso. apply NE. f_equal. lia.
    - apply Z.ltb_ge in Elt.
      eexists. split; [reflexivity|]. split; [done|]. split; [done|].
      intros c' l' j Hl' Hj. rewrite (Hcells c' l' j) by done.
      repeat case_decide; try done.
      rewrite Hcell.
      destruct (Z.eqb_spec (bin_index t (Z.pos b)) (Z.of_nat j)); [lia|done].
  Qed.

Lemma binning_grid (arr : Np.ndarray Q) :
    Np.shape arr = [length lists; M] ->
    Np.data arr = replicate (length lists * M) 0%Q ->
    exists arr',
      for_each (enumerate lists)
        (fun '(c, spike_times) arr =>
           for_each spike_times
             (fun spike_time arr =>
                d ← py_truediv (F64.of_int spike_time)
                      (F64.mul 1000 (to_float (PyInt (Zpos b))));
                let a := py_int d in
                w ← Np.shape_at (Np.shape arr) 1;
                if (a <? w)%Z then Np.setitem2 arr c a 1%Q else Ok arr)
             arr)
        arr = Ok arr' /\
      Np.shape arr' = [length lists; M] /\
      length (Np.data arr') = length lists * M /\
      forall c l j, lists !! c = Some l -> j < M ->
        Np.data arr' !! (c * M + j)
        = Some (if existsb (fun t => (bin_index t (Zpos b) =? Z.of_nat j)%Z) l
                then 1%Q else 0%Q).
  Proof.
    intros Hsh Hdata.
    pose (outer_inv := fun (c : nat) (arr : Np.ndarray Q) =>
      Np.shape arr = [length lists; M] /\
      length (Np.data arr) = length lists * M /\
      forall c' l' j, lists !! c' = Some l' -> j < M ->
        Np.data arr !! (c' * M + j)
        = Some (if decide (c' < c) then cell l' j else 0%Q)).
    destruct (for_each_inv outer_inv (enumerate lists)
      (fun '(c, spike_times) arr =>
           for_each spike_times
             (fun spike_time arr =>
                d ← py_truediv (F64.of_int spike_time)
                      (F64.mul 1000 (to_float (PyInt (Zpos b))));
                let a := py_int d in
                w ← Np.shape_at (Np.shape arr) 1;
                if (a <? w)%Z then Np.setitem2 arr c a 1%Q else Ok arr)
             arr) arr) as (arr' & Harr' & Hsh' & Hlen' & Hcells').
    - split; [done|]. split; [by rewrite Hdata, length_replicate|].
      intros c' l' j Hl' Hj. rewrite Hdata, lookup_replicate_2.
      + by rewrite decide_False by lia.
      + apply idx2_lt; [by eapply lookup_lt_Some|done].
    - intros k [c l] arr0 Hk (Hsh0 & Hlen0 & Hcells0).
      apply enumerate_lookup_inv in Hk as [-> Hl].
      destruct (binning_row k l arr0 Hl) as (arr1 & Harr1 & Hsh1 & Hlen1 & Hcells1).
      { split; [done|]. split; [done|].
        intros c' l' j Hl' Hj. rewrite (Hcells0 c' l' j) by done.
        repeat case_decide; done. }
      exists arr1. split; [done|]. split; [done|]. split; [done|].
      intros c' l' j Hl' Hj. rewrite (Hcells1 c' l' j) by done.
      rewrite firstn_all.
      repeat case_decide; try done; try lia.
      subst c'. congruence.
    - exists arr'. split; [done|]. split; [done|]. split; [done|].
      intros c l j Hl Hj. rewrite (Hcells' c l j) by done.
      rewrite length_enumerate, decide_True; [done|by eapply lookup_lt_Some].
  Qed.
End binning.




(** ** Windowed feature extraction *)

(** Row-major positions of a three-axis array. *)
Lemma idx3_inj (d1 d2 c r i c' r' i' : nat) :
  r < d1 -> i < d2 -> r' < d1 -> i' < d2 ->
  (c * d1 + r) * d2 + i = (c' * d1 + r') * d2 + i' ->
  c = c' /\ r = r' /\ i = i'.
Proof.
  intros Hr Hi Hr' Hi' E.
  apply idx2_inj in E as [E ->]; [|done..].
  apply idx2_inj in E as [-> ->]; done.
Qed.

Lemma idx3_lt (d0 d1 d2 c r i : nat) :
  c < d0 -> r < d1 -> i < d2 -> (c * d1 + r) * d2 + i < d0 * d1 * d2.
Proof.
  intros. apply idx2_lt; [|done]. by apply idx2_lt.
Qed.

Lemma idx3_decomp (d0 d1 d2 k : nat) :
  k < d0 * d1 * d2 ->
  exists c r i, c < d0 /\ r < d1 /\ i < d2 /\ k = (c * d1 + r) * d2 + i.
Proof.
  intros Hk.
  assert (0 < d2) by (destruct d2; lia).
  assert (0 < d1) by (destruct d1; lia).
  exists (k / d2 / d1), ((k / d2) mod d1), (k mod d2).
  split.
  { apply Nat.Div0.div_lt_upper_bound. apply Nat.Div0.div_lt_upper_bound. lia. }
  split; [apply Nat.mod_upper_bound; lia|].
  split; [apply Nat.mod_upper_bound; lia|].
  rewrite (Nat.div_mod_eq k d2) at 1.
  rewrite (Nat.div_mod_eq (k / d2) d1) at 1. lia.
Qed.

Lemma get3_lookup {A} (a : Np.ndarray A) d0 d1 d2 c r i :
  Np.shape a = [d0; d1; d2] -> c < d0 -> r < d1 -> i < d2 ->
  Np.get3 a c r i = Np.data a !! ((c * d1 + r) * d2 + i).
Proof.
  intros Hsh Hc Hr Hi. unfold Np.get3. rewrite Hsh.
  by rewrite decide_True by done.
Qed.

(** Scattering into and gathering from a buffer. *)
Lemma length_scatter {A} (ks : list nat) (v buf : list A) :
  length (Np.scatter ks v buf) = length buf.
Proof.
  revert v buf. induction ks as [|k ks IH]; intros [|x v] buf; simpl; try done.
  by rewrite IH, length_insert.
Qed.

Lemma scatter_lookup_notin {A} (ks : list nat) (v buf : list A) k :
  k ∉ ks -> Np.scatter ks v buf !! k = buf !! k.
Proof.
  revert v buf. induction ks as [|k0 ks IH]; intros [|x v] buf Hk; simpl; try done.
  apply not_elem_of_cons in Hk as [Hne Hk].
  rewrite IH by done. by rewrite list_lookup_insert_ne.
Qed.

Lemma scatter_lookup_in {A} (ks : list nat) (v buf : list A) r k x :
  NoDup ks -> ks !! r = Some k -> v !! r = Some x -> k < length buf ->
  Np.scatter ks v buf !! k = Some x.
Proof.
  revert v buf r. induction ks as [|k0 ks IH]; intros [|x0 v] buf r Hnd Hk Hx Hlt;
    try done.
  apply NoDup_cons in Hnd as [Hk0 Hnd].
  destruct r as [|r]; simpl in *.
  - injection Hk as ->. injection Hx as ->.
    rewrite scatter_lookup_notin by done. by apply list_lookup_insert_eq.
  - apply (IH v _ r); try done. by rewrite length_insert.
Qed.

Lemma gather_lookup {A} (ks : list nat) (buf : list A) r k :
  (forall k', k' ∈ ks -> k' < length buf) ->
  ks !! r = Some k -> Np.gather ks buf !! r = buf !! k.
Proof.
  unfold Np.gather. revert r.
  induction ks as [|k0 ks IH]; intros r Hin Hr; [done|].
  destruct (lookup_lt_is_Some_2 buf k0) as [x Hx]; [apply Hin; left|].
  simpl. rewrite Hx.
  destruct r as [|r]; simpl in *.
  - by injection Hr as ->.
  - apply IH; [|done]. intros. apply Hin. by right.
Qed.

Lemma length_gather {A} (ks : list nat) (buf : list A) :
  (forall k', k' ∈ ks -> k' < length buf) ->
  length (Np.gather ks buf) = length ks.
Proof.
  unfold Np.gather.
  induction ks as [|k0 ks IH]; intros Hin; [done|].
  destruct (lookup_lt_is_Some_2 buf k0) as [x Hx]; [apply Hin; left|].
  simpl. rewrite Hx. simpl. f_equal. apply IH. intros. apply Hin. by right.
Qed.

(** A comprehension whose inner lists all have the same length. *)
Lemma length_bind_const {A B} (f : A -> list B) (l : list A) (w : nat) :
  (forall x, x ∈ l -> length (f x) = w) -> length (l ≫= f) = length l * w.
Proof.
  induction l as [|x l IH]; intros H; [done|].
  csimpl. rewrite length_app, H, IH; [lia| |left].
  intros. apply H. by right.
Qed.

Lemma lookup_bind_const {A B} (f : A -> list B) (l : list A) (w i j : nat) x :
  (forall x, x ∈ l -> length (f x) = w) ->
  l !! i = Some x -> j < w ->
  (l ≫= f) !! (i * w + j) = f x !! j.
Proof.
  revert i. induction l as [|y l IH]; intros i H Hi Hj; [done|].
  csimpl. destruct i as [|i]; simpl in *.
  - injection Hi as ->. rewrite lookup_app_l; [done|]. rewrite H; [done|left].
  - rewrite lookup_app_r; rewrite H; try left; [|lia].
    replace (w + i * w + j - w) with (i * w + j) by lia.
    apply IH; [|done..]. intros. apply H. by right.
Qed.

Lemma xrange_lookup (n : Z) (k : nat) :
  (Z.of_nat k < n)%Z -> xrange 0 n !! k = Some (Z.of_nat k).
Proof.
  intros H. unfold xrange. rewrite list_lookup_fmap, lookup_seq_lt by lia.
  done.
Qed.

Lemma xrange_lookup_inv (n : Z) (k : nat) (i : Z) :
  xrange 0 n !! k = Some i -> i = Z.of_nat k /\ (Z.of_nat k < n)%Z.
Proof.
  unfold xrange. rewrite list_lookup_fmap.
  destruct (seq 0 (Z.to_nat (n - 0)) !! k) eqn:E; [|done].
  apply lookup_seq in E as [-> ?]. simpl. intros [= <-]. lia.
Qed.

Lemma length_xrange (n : Z) : length (xrange 0 n) = Z.to_nat n.
Proof. unfold xrange. rewrite length_fmap, length_seq. f_equal. lia. Qed.

Lemma range_lookup (n : Z) (k : nat) :
  (Z.of_nat k < n)%Z -> range n !! k = Some (Z.of_nat k).
Proof.
  intros H. unfold range. rewrite list_lookup_fmap, lookup_seq_lt by lia. done.
Qed.

Lemma length_range (n : Z) : length (range n) = Z.to_nat n.
Proof. unfold range. by rewrite length_fmap, length_seq. Qed.


Lemma bind_unit_fmap {A B} (f : A -> B) (l : list A) :
  (l ≫= fun x => [f x]) = f <$> l.
Proof. induction l as [|x l IH]; csimpl; [done|]. by rewrite IH. Qed.

Lemma clamp_nat (n k : nat) : k <= n -> Np.clamp n (Z.of_nat k) = k.
Proof.
  intros H. unfold Np.clamp.
  replace (Z.of_nat k <? 0)%Z with false by (symmetry; apply Z.ltb_ge; lia).
  lia.
Qed.

Lemma norm_index_Z (n : nat) (t : Z) :
  (0 <= t < Z.of_nat n)%Z -> Np.norm_index n t = Ok (Z.to_nat t).
Proof.
  intros H. rewrite <- (Z2Nat.id t) at 1 by lia. apply norm_index_nat. lia.
Qed.

(** [a[t, :, i:i+ws].ravel()] inside the array. *)
Lemma getitem_window {A} (a : Np.ndarray A) (T N M t i ws : nat) :
  Np.shape a = [T; N; M] -> length (Np.data a) = T * N * M ->
  t < T -> i + ws <= M ->
  exists v,
    Np.getitem_t_all_slice_ravel a (Z.of_nat t) (Z.of_nat i)
      (Z.of_nat ws + Z.of_nat i) = Ok v /\
    length v = N * ws /\
    forall n k, n < N -> k < ws ->
      v !! (n * ws + k) = Np.data a !! ((t * N + n) * M + (i + k)).
Proof.
  intros Hsh Hlen Ht Hi. unfold Np.getitem_t_all_slice_ravel. rewrite Hsh.
  rewrite norm_index_nat, bind_Ok by done.
  unfold Np.slice_bounds.
  replace (Z.of_nat ws + Z.of_nat i)%Z with (Z.of_nat (ws + i)) by lia.
  rewrite !clamp_nat by lia.
  replace (ws + i - i) with ws by lia.
  set (ks := seq 0 N ≫= _).
  assert (Hks : ks = seq 0 N ≫= fun n => (fun m => (t * N + n) * M + m) <$> seq i ws).
  { subst ks. f_equal. }
  assert (Hin : forall k', k' ∈ ks -> k' < length (Np.data a)).
  { rewrite Hks. intros k' (n & Hk' & Hn)%list_elem_of_bind.
    apply list_elem_of_fmap in Hk' as (m & -> & Hm).
    apply elem_of_seq in Hn, Hm. rewrite Hlen. apply idx3_lt; lia. }
  eexists. split; [reflexivity|]. split.
  - rewrite length_gather by done. rewrite Hks.
    rewrite (length_bind_const _ _ ws), length_seq; [done|].
    intros. by rewrite length_fmap, length_seq.
  - intros n k Hn Hk.
    apply gather_lookup; [done|]. rewrite Hks.
    rewrite (lookup_bind_const _ _ ws n k n); [| |by apply lookup_seq_lt|done].
    + rewrite list_lookup_fmap, lookup_seq_lt by done. done.
    + intros. by rewrite length_fmap, length_seq.
Qed.

Lemma broadcast1_same {A} (n : nat) (v : list A) :
  length v = n -> Np.broadcast1 n v = Ok v.
Proof. intros H. unfold Np.broadcast1. by rewrite (proj2 (Nat.eqb_eq _ _) H). Qed.

(** [X[c, :, i] = v] changes the column [(c, i)] and nothing else. *)
Lemma setitem_column {A} (X : Np.ndarray A) (d0 d1 d2 c i : nat) (v : list A) :
  Np.shape X = [d0; d1; d2] -> length (Np.data X) = d0 * d1 * d2 ->
  c < d0 -> i < d2 -> length v = d1 ->
  exists X',
    Np.setitem_c_all_i X (Z.of_nat c) (Z.of_nat i) v = Ok X' /\
    Np.shape X' = [d0; d1; d2] /\ length (Np.data X') = d0 * d1 * d2 /\
    forall c' r i', c' < d0 -> r < d1 -> i' < d2 ->
      Np.data X' !! ((c' * d1 + r) * d2 + i')
      = if decide (c' = c /\ i' = i) then v !! r
        else Np.data X !! ((c' * d1 + r) * d2 + i').
Proof.
  intros Hsh Hlen Hc Hi Hv. unfold Np.setitem_c_all_i. rewrite Hsh.
  rewrite !norm_index_nat, !bind_Ok by done.
  rewrite broadcast1_same, bind_Ok by done.
  eexists. split; [reflexivity|]. split; [done|].
  split; [simpl; by rewrite length_scatter|].
  intros c' r i' Hc' Hr Hi'. simpl.
  case_decide as Hd.
  - destruct Hd as [-> ->].
    destruct (lookup_lt_is_Some_2 v r) as [x Hx]; [lia|].
    rewrite Hx. apply (scatter_lookup_in _ _ _ r); [| |done|].
    + apply NoDup_fmap_2_strong; [|apply NoDup_seq].
      intros r1 r2 Hr1 Hr2 E. apply elem_of_seq in Hr1, Hr2.
      apply idx3_inj in E; [|lia..]. lia.
    + by rewrite list_lookup_fmap, lookup_seq_lt.
    + rewrite Hlen. by apply idx3_lt.
  - apply scatter_lookup_notin.
    intros (r0 & E & Hr0)%list_elem_of_fmap. apply elem_of_seq in Hr0.
    apply idx3_inj in E; [|lia..]. lia.
Qed.

(** [X[t, :, j]]. *)
Lemma getitem_column {A} (X : Np.ndarray A) (d0 d1 d2 t j : nat) :
  Np.shape X = [d0; d1; d2] -> length (Np.data X) = d0 * d1 * d2 ->
  t < d0 -> j < d2 ->
  exists v,
    Np.getitem_t_all_j X (Z.of_nat t) (Z.of_nat j) = Ok v /\
    length v = d1 /\
    forall r, r < d1 -> v !! r = Np.data X !! ((t * d1 + r) * d2 + j).
Proof.
  intros Hsh Hlen Ht Hj. unfold Np.getitem_t_all_j. rewrite Hsh.
  rewrite !norm_index_nat, !bind_Ok by done.
  assert (Hin : forall k', k' ∈ ((fun r => (t * d1 + r) * d2 + j) <$> seq 0 d1) ->
                  k' < length (Np.data X)).
  { intros k' (r & -> & Hr)%list_elem_of_fmap. apply elem_of_seq in Hr.
    rewrite Hlen. apply idx3_lt; lia. }
  eexists. split; [reflexivity|]. split.
  - by rewrite length_gather, length_fmap, length_seq.
  - intros r Hr. apply gather_lookup; [done|].
    by rewrite list_lookup_fmap, lookup_seq_lt.
Qed.

(** [Y[r, :] = v] changes row [r] and nothing else. *)
Lemma setitem_row_spec {A} (Y : Np.ndarray A) (d0 d1 r : nat) (v : list A) :
  Np.shape Y = [d0; d1] -> length (Np.data Y) = d0 * d1 ->
  r < d0 -> length v = d1 ->
  exists Y',
    Np.setitem_row Y (Z.of_nat r) v = Ok Y' /\
    Np.shape Y' = [d0; d1] /\ length (Np.data Y') = d0 * d1 /\
    forall r' c, r' < d0 -> c < d1 ->
      Np.data Y' !! (r' * d1 + c)
      = if decide (r' = r) then v !! c else Np.data Y !! (r' * d1 + c).
Proof.
  intros Hsh Hlen Hr Hv. unfold Np.setitem_row. rewrite Hsh.
  rewrite !norm_index_nat, !bind_Ok by done.
  rewrite broadcast1_same, bind_Ok by done.
  eexists. split; [reflexivity|]. split; [done|].
  split; [simpl; by rewrite length_scatter|].
  intros r' c Hr' Hc. simpl.
  case_decide as Hd.
  - subst r'.
    destruct (lookup_lt_is_Some_2 v c) as [x Hx]; [lia|].
    rewrite Hx. apply (scatter_lookup_in _ _ _ c); [apply NoDup_seq| |done|].
    + rewrite lookup_seq_lt by done. done.
    + rewrite Hlen. by apply idx2_lt.
  - apply scatter_lookup_notin.
    intros Hin%elem_of_seq.
    assert (r' * d1 + c < r * d1 + d1) by lia.
    assert (r' = r); [|done]. nia.
Qed.

Section windowing.
Context (arr : Np.ndarray Q) (T N M ws : nat) (sel : list Z).
Hypothesis Hsh : Np.shape arr = [T; N; M].
Hypothesis Hlen : length (Np.data arr) = T * N * M.
Hypothesis Hws : 1 <= ws <= M.
Hypothesis Hsel : forall t, t ∈ sel -> (0 <= t < Z.of_nat T)%Z.

(** The item that belongs at position [(c, r, i)] of the windowed array:
    source [r / ws] at time [i + r mod ws] of the [c]-th selected trial. *)
Let tgt (c r i : nat) : option Q :=
  sel !! c ≫= fun t =>
    Np.data arr !! ((Z.to_nat t * N + r / ws) * M + (i + r mod ws)).

Let filled (c i : nat) (X : Np.ndarray Q) : Prop :=
  Np.shape X = [length sel; ws * N; M - ws + 1] /\
  length (Np.data X) = length sel * (ws * N) * (M - ws + 1) /\
  forall c' r i', c' < length sel -> r < ws * N -> i' < M - ws + 1 ->
    c' < c \/ (c' = c /\ i' < i) ->
    Np.data X !! ((c' * (ws * N) + r) * (M - ws + 1) + i') = tgt c' r i'.

Lemma windowed_fill (hi wz : Z) (X0 : Np.ndarray Q) :
  hi = Z.of_nat (M - ws + 1) -> wz = Z.of_nat ws ->
  Np.shape X0 = [length sel; ws * N; M - ws + 1] ->
  length (Np.data X0) = length sel * (ws * N) * (M - ws + 1) ->
  exists X,
    for_each (enumerate sel)
      (fun '(c, t) X =>
         for_each (xrange 0 hi)
           (fun i X =>
              v ← Np.getitem_t_all_slice_ravel arr t i (wz + i);
              Np.setitem_c_all_i X c i v)
           X)
      X0 = Ok X /\
    Np.shape X = [length sel; ws * N; M - ws + 1] /\
    length (Np.data X) = length sel * (ws * N) * (M - ws + 1) /\
    forall c t r i, sel !! c = Some t -> r < ws * N -> i < M - ws + 1 ->
      Np.data X !! ((c * (ws * N) + r) * (M - ws + 1) + i)
      = Np.data arr !! ((Z.to_nat t * N + r / ws) * M + (i + r mod ws)).
Proof.
  intros -> -> Hsh0 Hlen0.
  destruct (for_each_inv (fun c => filled c 0) (enumerate sel)
    (fun '(c, t) X =>
         for_each (xrange 0 (Z.of_nat (M - ws + 1)))
           (fun i X =>
              v ← Np.getitem_t_all_slice_ravel arr t i (Z.of_nat ws + i);
              Np.setitem_c_all_i X c i v)
           X) X0) as (X & HX & HshX & HlenX & Hcells).
  - split; [done|]. split; [done|]. intros; lia.
  - intros c [cz t] X1 Hc HX1.
    apply enumerate_lookup_inv in Hc as [-> Ht].
    assert (Hc : c < length sel) by (by eapply lookup_lt_Some).
    assert (Htr : (0 <= t < Z.of_nat T)%Z).
    { apply Hsel. by eapply list_elem_of_lookup_2. }
    destruct (for_each_inv (filled c) (xrange 0 (Z.of_nat (M - ws + 1)))
      (fun i X =>
              v ← Np.getitem_t_all_slice_ravel arr t i (Z.of_nat ws + i);
              Np.setitem_c_all_i X (Z.of_nat c) i v) X1)
      as (X2 & HX2 & Hsh2 & Hlen2 & Hcells2); [done| |].
    + intros i iz X3 Hi (Hsh3 & Hlen3 & Hcells3).
      apply xrange_lookup_inv in Hi as [-> Hi].
      destruct (getitem_window arr T N M (Z.to_nat t) i ws)
        as (v & Hv & Hvlen & Hvcells); [done|done|lia|lia|].
      rewrite Z2Nat.id in Hv by lia. rewrite Hv, bind_Ok.
      destruct (setitem_column X3 (length sel) (ws * N) (M - ws + 1) c i v)
        as (X4 & HX4 & Hsh4 & Hlen4 & Hcells4); [done|done|done|lia|lia|].
      exists X4. split; [done|]. split; [done|]. split; [done|].
      intros c' r i' Hc' Hr Hi' Hdone.
      rewrite Hcells4 by done.
      case_decide as Hd.
      * destruct Hd as [-> ->]. unfold tgt. rewrite Ht. simpl.
        assert (Hws0 : ws ≠ 0) by lia.
        rewrite <- Hvcells.
        -- f_equal. rewrite (Nat.div_mod_eq r ws) at 1. lia.
        -- apply Nat.Div0.div_lt_upper_bound. lia.
        -- apply Nat.mod_upper_bound. lia.
      * apply Hcells3; try done. lia.
    + exists X2. split; [done|]. split; [done|]. split; [done|].
      intros c' r i' Hc' Hr Hi' Hdone.
      apply Hcells2; try done. rewrite length_xrange. lia.
  - exists X. split; [done|]. split; [done|]. split; [done|].
    intros c t r i Hc Hr Hi.
    rewrite Hcells; try done.
    + unfold tgt. by rewrite Hc.
    + by eapply lookup_lt_Some.
    + rewrite length_enumerate. left. by eapply lookup_lt_Some.
Qed.

End windowing.

Section reshape.
Context (d0 d1 d2 : nat).

Let copied (t j : nat) (X Y : Np.ndarray Q) : Prop :=
  Np.shape Y = [d0 * d2; d1] /\
  length (Np.data Y) = d0 * d2 * d1 /\
  forall c r i, c < d0 -> r < d1 -> i < d2 ->
    c < t \/ (c = t /\ i < j) ->
    Np.data Y !! ((c * d2 + i) * d1 + r)
    = Np.data X !! ((c * d1 + r) * d2 + i).

Lemma windowed_reshape (n hi : Z) (X Y0 : Np.ndarray Q) :
  n = Z.of_nat d0 -> hi = Z.of_nat d2 ->
  Np.shape X = [d0; d1; d2] ->
  length (Np.data X) = d0 * d1 * d2 ->
  Np.shape Y0 = [d0 * d2; d1] ->
  length (Np.data Y0) = d0 * d2 * d1 ->
  exists Y tot,
    for_each (xrange 0 n)
      (fun t st =>
         for_each (xrange 0 hi)
           (fun j '(Y, tot) =>
              v ← Np.getitem_t_all_j X t j;
              Y ← Np.setitem_row Y tot v;
              Ok (Y, (tot + 1)%Z))
           st)
      (Y0, 0%Z) = Ok (Y, tot) /\
    Np.shape Y = [d0 * d2; d1] /\
    length (Np.data Y) = d0 * d2 * d1 /\
    forall c r i, c < d0 -> r < d1 -> i < d2 ->
      Np.data Y !! ((c * d2 + i) * d1 + r)
      = Np.data X !! ((c * d1 + r) * d2 + i).
Proof.
  intros -> -> HshX HlenX HshY0 HlenY0.
  destruct (for_each_inv
    (fun t '(Y, tot) => tot = Z.of_nat (t * d2) /\ copied t 0 X Y)
    (xrange 0 (Z.of_nat d0))
    (fun t st =>
         for_each (xrange 0 (Z.of_nat d2))
           (fun j '(Y, tot) =>
              v ← Np.getitem_t_all_j X t j;
              Y ← Np.setitem_row Y tot v;
              Ok (Y, (tot + 1)%Z))
           st) (Y0, 0%Z)) as ([Y tot] & HY & Htot & HshY & HlenY & Hcells).
  - split; [simpl; lia|]. split; [done|]. split; [done|]. intros; lia.
  - intros t tz [Y1 tot1] Ht [Htot1 HY1].
    apply xrange_lookup_inv in Ht as [-> Ht].
    destruct (for_each_inv
      (fun j '(Y, tot) => tot = Z.of_nat (t * d2 + j) /\ copied t j X Y)
      (xrange 0 (Z.of_nat d2))
      (fun j '(Y, tot) =>
              v ← Np.getitem_t_all_j X (Z.of_nat t) j;
              Y ← Np.setitem_row Y tot v;
              Ok (Y, (tot + 1)%Z)) (Y1, tot1))
      as ([Y2 tot2] & HY2 & Htot2 & Hsh2 & Hlen2 & Hcells2).
    + split; [lia|done].
    + intros j jz [Y3 tot3] Hj (Htot3 & Hsh3 & Hlen3 & Hcells3).
      apply xrange_lookup_inv in Hj as [-> Hj].
      destruct (getitem_column X d0 d1 d2 t j)
        as (v & Hv & Hvlen & Hvcells); [done|done|lia|lia|].
      rewrite Hv, bind_Ok. subst tot3.
      destruct (setitem_row_spec Y3 (d0 * d2) d1
                  (t * d2 + j) v)
        as (Y4 & HY4 & Hsh4 & Hlen4 & Hcells4); [done|done|nia|done|].
      rewrite HY4, bind_Ok.
      exists (Y4, (Z.of_nat (t * d2 + j) + 1)%Z).
      split; [done|]. split; [lia|]. split; [done|]. split; [done|].
      intros c r i Hc Hr Hi Hdone.
      rewrite Hcells4; [|nia|done].
      case_decide as Hd.
      * apply idx2_inj in Hd as [-> ->]; [|lia..]. by apply Hvcells.
      * apply Hcells3; try done.
        destruct Hdone as [?|[-> ?]]; [by left|right].
        split; [done|]. destruct (decide (i = j)) as [->|]; [done|lia].
    + exists (Y2, tot2). split; [done|].
      rewrite length_xrange in Htot2, Hcells2.
      split; [lia|]. split; [done|]. split; [done|].
      intros c r i Hc Hr Hi Hdone. apply Hcells2; try done. lia.
  - exists Y, tot. split; [done|]. split; [done|]. split; [done|].
    intros c r i Hc Hr Hi. apply Hcells; try done.
    rewrite length_xrange. lia.
Qed.
End reshape.

Lemma binarize_binary (x : Q) : x = 0%Q \/ x = 1%Q -> binarize x = x.
Proof. by intros [-> | ->]. Qed.

Lemma init_three_axes (X : Np.ndarray Q) (d0 d1 d2 : nat) :
  Np.shape X = [d0; d1; d2] ->
  __init__ (FromArray X) true
  = Ok (preprocess (MkSpikes X (Z.of_nat d0) (Z.of_nat d1) (Z.of_nat d2)
                      None None)).
Proof.
  intros H. unfold __init__. rewrite bind_Ok, H. simpl. by rewrite H.
Qed.

(** The constructor with its default [preprocess=True] leaves the object
    in canonical state: dimensions read off the array, binary entries. *)
Lemma init_canonical (a : Np.ndarray Q) (T N M : nat) :
  Np.wf a -> T * N * M <> 1 ->
  Np.shape a = [T; N; M] \/ (T = 1 /\ Np.shape a = [N; M]) ->
  exists s,
    __init__ (FromArray a) true = Ok s /\
    spikes_wf s T N M /\ binary (_spikes_arr s).
Proof.
  intros Hwf Hne [Hsh | [-> Hsh]].
  - rewrite (init_three_axes a T N M Hsh).
    eexists. split; [reflexivity|]. unfold preprocess. split.
    + unfold spikes_wf. cbn [_spikes_arr _T _N _M].
      rewrite double_many by (simpl; rewrite Hsh; simpl; lia).
      unfold Np.wf, Np.map in *. simpl. rewrite length_fmap. done.
    + intros x. cbn [_spikes_arr]. rewrite double_data. simpl.
      intros (y & -> & _)%list_elem_of_fmap. apply binarize_01.
  - unfold __init__. rewrite bind_Ok, Hsh. simpl.
    change [1%Z; Z.of_nat N; Z.of_nat M] with (Z.of_nat <$> [1; N; M]).
    rewrite reshape_of_nat.
    2:{ rewrite Hwf, Hsh. simpl. lia. }
    rewrite bind_Ok. cbn [Np.shape].
    rewrite (shape_at_lookup _ 0 1), bind_Ok by done.
    rewrite (shape_at_lookup _ 1 N), bind_Ok by done.
    rewrite (shape_at_lookup _ 2 M), bind_Ok by done.
    eexists. split; [reflexivity|]. unfold preprocess. split.
    + unfold spikes_wf. cbn [_spikes_arr _T _N _M].
      rewrite double_many by (simpl; lia).
      unfold Np.wf, Np.map in *. simpl.
      rewrite length_fmap, Hwf, Hsh. simpl. repeat split; lia.
    + intros x. cbn [_spikes_arr]. rewrite double_data. simpl.
      intros (y & -> & _)%list_elem_of_fmap. apply binarize_01.
Qed.


(** The run of [to_windowed] on a tensor in canonical state, binary or
    not: the filled array [X], and the sample matrix copied from it. *)
Lemma to_windowed_run (self : Spikes) (T N M : nat) (window_size : Z)
    (trials : option (list Z)) :
  spikes_wf self T N M ->
  (1 <= window_size <= Z.of_nat M)%Z ->
  (forall t, t ∈ or_list trials (range (_T self)) -> (0 <= t < Z.of_nat T)%Z) ->
  let sel := or_list trials (range (_T self)) in
  let ws := Z.to_nat window_size in
  exists X Y,
    Np.shape X = [length sel; ws * N; M - ws + 1] /\
    length (Np.data X) = length sel * (ws * N) * (M - ws + 1) /\
    (forall c t i n k, sel !! c = Some t -> i <= M - ws -> n < N -> k < ws ->
       Np.data X !! ((c * (ws * N) + (n * ws + k)) * (M - ws + 1) + i)
       = Np.data (_spikes_arr self) !! ((Z.to_nat t * N + n) * M + (i + k))) /\
    to_windowed self window_size trials false
    = (s ← __init__ (FromArray X) true; Ok (WSpikes s)) /\
    to_windowed self window_size trials true = Ok (WMatrix Y) /\
    Np.shape Y = [length sel * (M - ws + 1); ws * N] /\
    length (Np.data Y) = length sel * (M - ws + 1) * (ws * N) /\
    (forall c r i, c < length sel -> r < ws * N -> i < M - ws + 1 ->
       Np.data Y !! ((c * (M - ws + 1) + i) * (ws * N) + r)
       = Np.data X !! ((c * (ws * N) + r) * (M - ws + 1) + i)).
Proof.
  intros (Hsh & Hwf & HT & HN & HM) Hws Hsel sel ws.
  unfold Np.wf in Hwf. rewrite Hsh in Hwf. simpl in Hwf.
  assert (Hlen : length (Np.data (_spikes_arr self)) = T * N * M) by lia.
  assert (Hwsz : window_size = Z.of_nat ws) by lia.
  assert (Hws' : 1 <= ws <= M) by lia.
  destruct (windowed_fill (_spikes_arr self) T N M ws sel Hsh Hlen Hws' Hsel
              (Z.of_nat M - window_size + 1) window_size
              (Np.NDArray [length sel; ws * N; M - ws + 1]
                 (replicate (Np.size_of [length sel; ws * N; M - ws + 1]) 0%Q)))
    as (X & HX & HshX & HlenX & Hcells); [lia|done|done| |].
  { simpl. rewrite length_replicate. lia. }
  assert (Hrun : forall reshape, to_windowed self window_size trials reshape
      = (if reshape then
           s0 ← Np.shape_at (Np.shape X) 0;
           s1 ← Np.shape_at (Np.shape X) 1;
           s2 ← Np.shape_at (Np.shape X) 2;
           Y ← Np.zeros [(s0 * s2)%Z; s1];
           '(Y, _) ← for_each (xrange 0 (Z.of_nat (length sel)))
               (fun t st =>
                  for_each (xrange 0 s2)
                    (fun j '(Y, tot) =>
                       v ← Np.getitem_t_all_j X t j;
                       Y ← Np.setitem_row Y tot v;
                       Ok (Y, (tot + 1)%Z))
                    st)
               (Y, 0%Z);
           Ok (WMatrix Y)
         else s ← __init__ (FromArray X) true; Ok (WSpikes s))).
  { intros reshape. unfold to_windowed. fold sel. rewrite HN, HM.
    replace [Z.of_nat (length sel); (window_size * Z.of_nat N)%Z;
             (Z.of_nat M - window_size + 1)%Z]
      with (Z.of_nat <$> [length sel; ws * N; M - ws + 1])
      by (csimpl; repeat f_equal; lia).
    rewrite zeros_of_nat, bind_Ok. by rewrite HX, bind_Ok. }
  destruct (windowed_reshape (length sel) (ws * N) (M - ws + 1)
              (Z.of_nat (length sel)) (Z.of_nat (M - ws + 1)) X
              (Np.NDArray [length sel * (M - ws + 1); ws * N]
                 (replicate (Np.size_of [length sel * (M - ws + 1); ws * N]) 0%Q)))
    as (Y & tot & HY & HshY & HlenY & HcellsY); [done|done|done|done|done| |].
  { simpl. rewrite length_replicate. lia. }
  exists X, Y. split; [done|]. split; [done|]. split.
  { intros c t i n k Hc Hi Hn Hk.
    rewrite (Hcells c t) by (done || nia).
    assert (Hd : (n * ws + k) / ws = n)
      by (rewrite Nat.div_add_l, Nat.div_small by lia; lia).
    assert (Hm : (n * ws + k) mod ws = k)
      by (rewrite Nat.add_comm, Nat.Div0.mod_add, Nat.mod_small by lia; done).
    by rewrite Hd, Hm. }
  split; [apply (Hrun false)|]. split.
  { rewrite (Hrun true), HshX.
    rewrite (shape_at_lookup _ 0 (length sel)), bind_Ok by done.
    rewrite (shape_at_lookup _ 1 (ws * N)), bind_Ok by done.
    rewrite (shape_at_lookup _ 2 (M - ws + 1)), bind_Ok by done.
    replace [(Z.of_nat (length sel) * Z.of_nat (M - ws + 1))%Z; Z.of_nat (ws * N)]
      with (Z.of_nat <$> [length sel * (M - ws + 1); ws * N])
      by (csimpl; repeat f_equal; lia).
    rewrite zeros_of_nat, bind_Ok. by rewrite HY, bind_Ok. }
  split; [done|]. split; [done|].
  intros c r i Hc Hr Hi. by apply HcellsY.
Qed.




(** ** Activity ranking *)

Lemma insert_index_perm (l : list Q) (k : nat) (ks : list nat) :
  insert_index l k ks ≡ₚ k :: ks.
Proof.
  induction ks as [|k' ks IH]; simpl; [done|].
  destruct (Qle_bool _ _); [done|]. rewrite IH. apply Permutation_swap.
Qed.

Lemma insert_index_sorted (l : list Q) (k : nat) (ks : list nat) :
  StronglySorted (fun a b => (value_at l a <= value_at l b)%Q) ks ->
  StronglySorted (fun a b => (value_at l a <= value_at l b)%Q)
    (insert_index l k ks).
Proof.
  induction ks as [|k' ks IH]; intros Hs; simpl.
  - apply StronglySorted_cons. split; [constructor|done].
  - apply StronglySorted_cons in Hs as [Hall Hs].
    destruct (Qle_bool (value_at l k) (value_at l k')) eqn:E.
    + apply Qle_bool_iff in E.
      apply StronglySorted_cons. split.
      * constructor; [done|].
        eapply Forall_impl; [exact Hall|]. intros b Hb. simpl in *.
        by eapply Qle_trans.
      * apply StronglySorted_cons. done.
    + assert (value_at l k' <= value_at l k)%Q.
      { apply Qlt_le_weak, Qnot_le_lt. rewrite <- Qle_bool_iff. congruence. }
      apply StronglySorted_cons. split; [|by apply IH].
      rewrite insert_index_perm. by constructor.
Qed.

Lemma StronglySorted_lookup {A} (R : A -> A -> Prop) (ks : list A) i j a b :
  StronglySorted R ks -> i < j -> ks !! i = Some a -> ks !! j = Some b -> R a b.
Proof.
  revert i j. induction ks as [|k ks IH]; intros i j Hs Hij Hi Hj; [done|].
  apply StronglySorted_cons in Hs as [Hall Hs].
  destruct j as [|j]; [lia|]. simpl in Hj.
  destruct i as [|i]; simpl in Hi.
  - injection Hi as ->. rewrite Forall_forall in Hall. apply Hall.
    by eapply list_elem_of_lookup_2.
  - apply (IH i j); [done|lia|done|done].
Qed.

Lemma insertion_argsort_spec : argsort_spec insertion_argsort.
Proof.
  intros l. unfold insertion_argsort.
  assert (Hgen : forall ks,
    foldr (insert_index l) [] ks ≡ₚ ks /\
    StronglySorted (fun a b => (value_at l a <= value_at l b)%Q)
      (foldr (insert_index l) [] ks)).
  { induction ks as [|k ks [IHp IHs]]; simpl.
    - split; [done|constructor].
    - split; [by rewrite insert_index_perm, IHp|by apply insert_index_sorted]. }
  destruct (Hgen (seq 0 (length l))) as [Hp Hs].
  split; [done|].
  intros i j a b x y Hij Ha Hb Hx Hy.
  destruct (decide (i = j)) as [->|Hne].
  - rewrite Ha in Hb. injection Hb as ->. rewrite Hx in Hy. injection Hy as ->.
    apply Qle_refl.
  - assert (Hlt : i < j) by lia.
    pose proof (StronglySorted_lookup _ _ i j a b Hs Hlt Ha Hb) as HR.
    unfold value_at in HR. by rewrite Hx, Hy in HR.
Qed.

Lemma mean_axes_length (a : Np.ndarray Q) (T N M : nat) :
  Np.shape a = [T; N; M] -> 1 <= T -> 1 <= M ->
  exists activity,
    Np.mean_axis0_mean_axis1 a = Ok activity /\ length activity = N.
Proof.
  intros Hsh HT HM. unfold Np.mean_axis0_mean_axis1. rewrite Hsh.
  destruct (Nat.eqb_spec T 0) as [?|_]; [lia|].
  destruct (Nat.eqb_spec M 0) as [?|_]; [lia|]. simpl.
  eexists. split; [reflexivity|]. by rewrite length_fmap, length_seq.
Qed.

Lemma slice_from_all {A} (l : list A) :
  Np.slice_from l (- Z.of_nat (length l)) = l.
Proof.
  unfold Np.slice_from, Np.clamp.
  destruct (Z.ltb_spec (- Z.of_nat (length l)) 0).
  - replace (- Z.of_nat (length l) + Z.of_nat (length l))%Z with 0%Z by lia.
    replace (Z.to_nat _) with 0 by lia. done.
  - assert (l = []) as -> by (apply nil_length_inv; lia). done.
Qed.

Lemma or_int_all (N : nat) (self : Spikes) (top_neurons : option Z) :
  _N self = Z.of_nat N ->
  top_neurons = None \/ top_neurons = Some (Z.of_nat N) ->
  or_int top_neurons (_N self) = Z.of_nat N.
Proof.
  intros HN [-> | ->]; simpl; [done|].
  destruct (Z.eqb_spec (Z.of_nat N) 0); [|done]. rewrite HN. done.
Qed.

(** C9.  With no target count, or the target count [N], and any
    [argsort] that returns a sorting permutation: [idx] is a permutation
    of the source indices [0 .. N-1], without omission or duplicate,
    [mean_activities] lists the mean activities of the sources in that
    order, and it does not decrease. *)
Theorem restrict_all_is_permutation (argsort : list Q -> list nat)
    (self : Spikes) (T N M : nat) (top_neurons : option Z) :
  argsort_spec argsort ->
  spikes_wf self T N M -> 1 <= T -> 1 <= M ->
  top_neurons = None \/ top_neurons = Some (Z.of_nat N) ->
  exists s' sel ma activity,
    restrict_to_most_active_neurons argsort self top_neurons = Ok s' /\
    idx s' = Some sel /\ mean_activities s' = Some ma /\
    sel ≡ₚ seq 0 N /\ NoDup sel /\ (forall n, n ∈ sel <-> n < N) /\
    Np.mean_axis0_mean_axis1 (_spikes_arr self) = Ok activity /\
    length ma = length sel /\
    (forall i n, sel !! i = Some n -> ma !! i = activity !! n) /\
    (forall i j x y, i <= j -> ma !! i = Some x -> ma !! j = Some y ->
       (x <= y)%Q).
Proof.
  intros Hsort (Hsh & Hwf & HT & HN & HM) HT1 HM1 Htop.
  destruct (mean_axes_length _ T N M Hsh HT1 HM1) as (activity & Hact & Hlen).
  destruct (Hsort activity) as [Hperm Hsorted]. rewrite Hlen in Hperm.
  unfold restrict_to_most_active_neurons.
  rewrite Hact, bind_Ok, (or_int_all N) by done.
  assert (Hall : Np.slice_from (argsort activity) (- Z.of_nat N)
                 = argsort activity).
  { pose proof (slice_from_all (argsort activity)) as Hs.
    by rewrite (Permutation_length Hperm), length_seq in Hs. }
  rewrite Hall. unfold Np.getitem_all_list_all. rewrite Hsh, bind_Ok.
  assert (Hin : forall n, n ∈ argsort activity <-> n < N).
  { intros n. rewrite Hperm, elem_of_seq. lia. }
  assert (Hbound : forall k, k ∈ argsort activity -> k < length activity).
  { intros k Hk. rewrite Hlen. by apply Hin. }
  eexists _, (argsort activity), _, activity.
  split; [reflexivity|]. simpl.
  split; [done|]. split; [done|]. split; [done|].
  split; [rewrite Hperm; apply NoDup_seq|]. split; [done|]. split; [done|].
  split; [by apply length_gather|].
  split.
  - intros i n Hi. by apply gather_lookup.
  - intros i j x y Hij Hx Hy.
    destruct (lookup_lt_is_Some_2 (argsort activity) i) as [a Ha].
    { apply lookup_lt_Some in Hx. by rewrite length_gather in Hx. }
    destruct (lookup_lt_is_Some_2 (argsort activity) j) as [b Hb].
    { apply lookup_lt_Some in Hy. by rewrite length_gather in Hy. }
    rewrite (gather_lookup _ _ i a) in Hx by done.
    rewrite (gather_lookup _ _ j b) in Hy by done.
    by apply (Hsorted i j a b).
Qed.

Lemma restrict_all_is_permutation_witness :
  argsort_spec insertion_argsort /\
  spikes_wf s232 2 3 2 /\ 1 <= 2 /\ 1 <= 2 /\
  exists s' sel ma,
    restrict_to_most_active_neurons insertion_argsort s232 None = Ok s' /\
    idx s' = Some sel /\ mean_activities s' = Some ma /\
    sel ≡ₚ seq 0 3 /\
    (forall i j x y, i <= j -> ma !! i = Some x -> ma !! j = Some y ->
       (x <= y)%Q).
Proof.
  assert (H1 : spikes_wf s232 2 3 2) by (repeat split).
  assert (H2 : 1 <= 2) by lia.
  split; [exact insertion_argsort_spec|]. split; [exact H1|].
  split; [exact H2|]. split; [exact H2|].
  destruct (restrict_all_is_permutation insertion_argsort s232 2 3 2 None
              insertion_argsort_spec H1 H2 H2 (or_introl eq_refl))
    as (s' & sel & ma & activity & Hrun & Hidx & Hma & Hperm & _ & _ & _ & _ & _ & Hs).
  exists s', sel, ma. repeat split; assumption.
Defined.

(** ** Covariance *)

Lemma dot_nil_r (xs : list Q) : Np.dot xs [] = 0%Q.
Proof. by destruct xs. Qed.

Lemma dot_cons (x y : Q) (xs ys : list Q) :
  Np.dot (x :: xs) (y :: ys) = (x * y + Np.dot xs ys)%Q.
Proof. reflexivity. Qed.

Lemma dot_comm (xs ys : list Q) : (Np.dot xs ys == Np.dot ys xs)%Q.
Proof.
  revert ys. induction xs as [|x xs IH]; intros [|y ys]; try reflexivity.
  rewrite !dot_cons, IH. ring.
Qed.

Lemma Qsquare_nonneg (z : Q) : (0 <= z * z)%Q.
Proof. unfold Qle. simpl. rewrite Z.mul_1_r. apply Z.square_nonneg. Qed.

Lemma dot_self_nonneg (xs : list Q) : (0 <= Np.dot xs xs)%Q.
Proof.
  induction xs as [|x xs IH]; [apply Qle_refl|].
  rewrite dot_cons. pose proof (Qsquare_nonneg x). lra.
Qed.

Lemma dot_bound (xs ys : list Q) :
  (2 * Np.dot xs ys <= Np.dot xs xs + Np.dot ys ys)%Q /\
  (- (Np.dot xs xs + Np.dot ys ys) <= 2 * Np.dot xs ys)%Q.
Proof.
  revert ys. induction xs as [|x xs IH]; intros ys.
  - pose proof (dot_self_nonneg ys). change (Np.dot [] ys) with 0%Q.
    change (Np.dot [] []) with 0%Q. split; lra.
  - destruct ys as [|y ys].
    + pose proof (dot_self_nonneg (x :: xs)).
      change (Np.dot (x :: xs) []) with 0%Q. change (Np.dot [] []) with 0%Q.
      split; lra.
    + rewrite !dot_cons. destruct (IH ys) as [H1 H2].
      pose proof (Qsquare_nonneg (x - y)) as H3.
      pose proof (Qsquare_nonneg (x + y)) as H4.
      split; lra.
Qed.

(** What a covariance block looks like: symmetric, and no entry larger
    in size than the average of the two variances on its diagonal. *)
Lemma cov_entry_finite (w : nat) (xs ys : list Q) :
  1 < w ->
  Np.cov_entry w xs ys
  = Np.Fin (Np.dot (Np.centred xs) (Np.centred ys) / inject_Z (Z.of_nat w - 1)).
Proof.
  intros H. unfold Np.cov_entry.
  by destruct (Nat.leb_spec w 1); [lia|].
Qed.

Lemma cov_entry_nan (w : nat) (xs ys : list Q) :
  w <= 1 -> Np.cov_entry w xs ys = Np.NaN.
Proof.
  intros H. unfold Np.cov_entry.
  by destruct (Nat.leb_spec w 1); [|lia].
Qed.

Lemma scaled_dot_facts (d : Q) (xs ys : list Q) :
  (0 < d)%Q ->
  (Np.dot xs ys / d == Np.dot ys xs / d)%Q /\
  (2 * (Np.dot xs ys / d) <= Np.dot xs xs / d + Np.dot ys ys / d)%Q /\
  (- (Np.dot xs xs / d + Np.dot ys ys / d) <= 2 * (Np.dot xs ys / d))%Q.
Proof.
  intros Hd. destruct (dot_bound xs ys) as [H1 H2].
  assert (Hinv : (0 < / d)%Q) by (by apply Qinv_lt_0_compat).
  pose proof (Qmult_le_compat_r _ _ (/ d) H1 (Qlt_le_weak _ _ Hinv)) as H3.
  pose proof (Qmult_le_compat_r _ _ (/ d) H2 (Qlt_le_weak _ _ Hinv)) as H4.
  unfold Qdiv. split; [by rewrite dot_comm|]. split; lra.
Qed.

Lemma comprehension2_lookup {B} (f : nat -> nat -> B) (n i j : nat) :
  i < n -> j < n ->
  (i ← seq 0 n; j ← seq 0 n; [f i j]) !! (i * n + j) = Some (f i j).
Proof.
  intros Hi Hj.
  rewrite (lookup_bind_const _ _ n i j i); [| |by apply lookup_seq_lt|done].
  - by rewrite bind_unit_fmap, list_lookup_fmap, lookup_seq_lt.
  - intros x _. by rewrite bind_unit_fmap, length_fmap, length_seq.
Qed.

Lemma length_comprehension2 {B} (f : nat -> nat -> B) (n : nat) :
  length (i ← seq 0 n; j ← seq 0 n; [f i j]) = n * n.
Proof.
  rewrite (length_bind_const _ _ n), length_seq; [done|].
  intros x _. by rewrite bind_unit_fmap, length_fmap, length_seq.
Qed.

Lemma for_each_inv_partial {St A} (I : nat -> St -> Prop) (xs : list A)
    (body : A -> St -> result St) (s s' : St) :
  I 0 s ->
  (forall k x s0 s1, xs !! k = Some x -> I k s0 -> body x s0 = Ok s1 ->
     I (S k) s1) ->
  for_each xs body s = Ok s' -> I (length xs) s'.
Proof.
  revert I s. induction xs as [|x xs IH]; intros I s H0 Hstep; simpl.
  - by intros [= <-].
  - destruct (body x s) as [s1|e] eqn:E; [|done]. simpl.
    apply (IH (fun k => I (S k))).
    + by apply (Hstep 0 x s s1).
    + intros k y s0 s2 Hk. by apply (Hstep (S k)).
Qed.

Lemma mapM_length {A B} (f : A -> result B) (l : list A) (ks : list B) :
  mapM f l = Ok ks -> length ks = length l.
Proof.
  revert ks. induction l as [|x l IH]; intros ks; simpl.
  - by intros [= <-].
  - destruct (f x) as [y|e]; [|done]. simpl.
    destruct (mapM f l) as [ks'|e]; [|done]. simpl.
    intros [= <-]. simpl. f_equal. by apply IH.
Qed.

Lemma getitem_list_shape {A} (a sub : Np.ndarray A) (T N M : nat)
    (trials : list Z) (lo hi : Z) :
  Np.shape a = [T; N; M] ->
  Np.getitem_list_all_slice a trials lo hi = Ok sub ->
  exists w, Np.shape sub = [length trials; N; w].
Proof.
  intros Hsh. unfold Np.getitem_list_all_slice. rewrite Hsh.
  destruct (mapM _ trials) as [ts|e] eqn:E; [|done]. simpl.
  intros [= <-]. eexists. simpl. by rewrite (mapM_length _ _ _ E).
Qed.

Lemma getitem0_shape {A} (a m : Np.ndarray A) (d0 d1 d2 : nat) (t : Z) :
  Np.shape a = [d0; d1; d2] ->
  Np.getitem0 a t = Ok m -> Np.shape m = [d1; d2].
Proof.
  intros Hsh. unfold Np.getitem0. rewrite Hsh.
  destruct (Np.norm_index d0 t) as [t'|e]; [|done]. simpl. by intros [= <-].
Qed.

(** [np.cov] of a two-axis array yields a block of the expected kind. *)
Lemma cov_matrix (m : Np.ndarray Q) (c : Np.ndarray Np.npfloat) (n w : nat) :
  Np.shape m = [n; w] -> Np.cov m = Ok c ->
  Np.shape c = [n; n] /\ length (Np.data c) = n * n /\
  ((forall i j, i < n -> j < n -> Np.data c !! (i * n + j) = Some Np.NaN) \/
   (exists f : nat -> nat -> Q,
      (forall i j, i < n -> j < n ->
         Np.data c !! (i * n + j) = Some (Np.Fin (f i j))) /\
      (forall i j, i < n -> j < n ->
         (f i j == f j i)%Q /\
         (2 * f i j <= f i i + f j j)%Q /\
         (- (f i i + f j j) <= 2 * f i j)%Q))).
Proof.
  intros Hsh. unfold Np.cov. rewrite Hsh. intros [= <-]. simpl.
  split; [done|]. split; [apply length_comprehension2|].
  destruct (decide (w <= 1)) as [Hw|Hw].
  - left. intros i j Hi Hj.
    by rewrite comprehension2_lookup, cov_entry_nan.
  - right.
    exists (fun i j =>
      (Np.dot (Np.centred (Np.row m w i)) (Np.centred (Np.row m w j))
       / inject_Z (Z.of_nat w - 1))%Q).
    split.
    + intros i j Hi Hj.
      by rewrite comprehension2_lookup, cov_entry_finite by (done || lia).
    + intros i j _ _. apply scaled_dot_facts.
      unfold Qlt. simpl. lia.
Qed.

(** [A[t] = c] replaces block [t] and nothing else. *)
Lemma setitem0_spec {A} (a c : Np.ndarray A) (d0 d1 d2 t : nat) :
  Np.shape a = [d0; d1; d2] -> length (Np.data a) = d0 * d1 * d2 ->
  t < d0 -> Np.shape c = [d1; d2] -> length (Np.data c) = d1 * d2 ->
  exists a',
    Np.setitem0 a (Z.of_nat t) c = Ok a' /\
    Np.shape a' = [d0; d1; d2] /\ length (Np.data a') = d0 * d1 * d2 /\
    forall t' i j, t' < d0 -> i < d1 -> j < d2 ->
      Np.data a' !! ((t' * d1 + i) * d2 + j)
      = if decide (t' = t) then Np.data c !! (i * d2 + j)
        else Np.data a !! ((t' * d1 + i) * d2 + j).
Proof.
  intros Hsh Hlen Ht Hshc Hlenc. unfold Np.setitem0. rewrite Hsh.
  rewrite norm_index_nat, bind_Ok by done.
  rewrite decide_True, bind_Ok by done.
  eexists. split; [reflexivity|]. split; [done|].
  split; [simpl; by rewrite length_scatter|].
  intros t' i j Ht' Hi Hj. simpl.
  assert (Hij : i * d2 + j < d1 * d2) by (by apply idx2_lt).
  replace ((t' * d1 + i) * d2 + j) with (t' * (d1 * d2) + (i * d2 + j)) by lia.
  case_decide as Hd.
  - subst t'.
    destruct (lookup_lt_is_Some_2 (Np.data c) (i * d2 + j)) as [x Hx]; [lia|].
    rewrite Hx. apply (scatter_lookup_in _ _ _ (i * d2 + j)); [apply NoDup_seq| |done|].
    + by rewrite lookup_seq_lt.
    + rewrite Hlen. replace (d0 * d1 * d2) with (d0 * (d1 * d2)) by lia.
      by apply idx2_lt.
  - apply scatter_lookup_notin. intros Hin%elem_of_seq.
    assert (t' * (d1 * d2) + (i * d2 + j) = t' * (d1 * d2) + (i * d2 + j)) by done.
    assert (t' = t); [|done]. nia.
Qed.

Lemma covariance_raw_blocks (self : Spikes) (T N M : nat)
    (trials : option (list Z)) (start : Z) (stop : option Z)
    (R : Np.ndarray Np.npfloat) :
  Np.shape (_spikes_arr self) = [T; N; M] -> _N self = Z.of_nat N ->
  covariance_raw self trials start stop = Ok R ->
  Np.shape R = [length (or_list trials (range (_T self))); N; N] /\
  length (Np.data R) = length (or_list trials (range (_T self))) * N * N /\
  forall t, t < length (or_list trials (range (_T self))) -> cov_block R N t.
Proof.
  intros Hsh HN. unfold covariance_raw.
  set (sel := or_list trials (range (_T self))).
  destruct (Np.getitem_list_all_slice _ sel start _) as [sub|e] eqn:Esub; [|done].
  destruct (getitem_list_shape _ _ T N M _ _ _ Hsh Esub) as [w Hshsub].
  rewrite bind_Ok, HN.
  change [Z.of_nat (length sel); Z.of_nat N; Z.of_nat N]
    with (Z.of_nat <$> [length sel; N; N]).
  rewrite zeros_of_nat, bind_Ok. intros Hloop.
  apply (for_each_inv_partial
    (fun (k : nat) (A : Np.ndarray Np.npfloat) =>
       Np.shape A = [length sel; N; N] /\
       length (Np.data A) = length sel * N * N /\
       forall t, t < length sel -> cov_block A N t)) in Hloop; [exact Hloop| |].
  - split; [done|]. split; [simpl; rewrite length_fmap, length_replicate; lia|].
    intros t Ht. right. exists (fun _ _ => 0%Q). split.
    + intros i j Hi Hj. simpl. rewrite list_lookup_fmap, lookup_replicate_2; [done|].
      simpl. rewrite Nat.mul_1_r, Nat.mul_assoc. by apply idx3_lt.
    + intros i j _ _. split; [reflexivity|]. split; lra.
  - intros k [tz trial] A0 A1 Hk (HshA & HlenA & Hblocks) Hbody.
    apply enumerate_lookup_inv in Hk as [-> Hk].
    assert (Hklt : k < length sel) by (by eapply lookup_lt_Some).
    destruct (Np.getitem0 sub trial) as [m|e] eqn:Em; [|done].
    rewrite bind_Ok in Hbody.
    pose proof (getitem0_shape _ _ _ _ _ _ Hshsub Em) as Hshm.
    destruct (Np.cov m) as [c|e] eqn:Ec; [|done]. rewrite bind_Ok in Hbody.
    destruct (cov_matrix m c N w Hshm Ec) as (Hshc & Hlenc & Hc).
    destruct (setitem0_spec A0 c (length sel) N N k HshA HlenA Hklt Hshc Hlenc)
      as (A' & HA' & HshA' & HlenA' & Hcells).
    rewrite HA' in Hbody. injection Hbody as <-.
    split; [done|]. split; [done|].
    intros t Ht. destruct (decide (t = k)) as [->|Hne].
    + destruct Hc as [Hnan|(f & Hf & Hprops)].
      * left. intros i j Hi Hj.
        rewrite Hcells, decide_True by done. by apply Hnan.
      * right. exists f. split; [|done]. intros i j Hi Hj.
        rewrite Hcells, decide_True by done. by apply Hf.
    + destruct (Hblocks t Ht) as [Hnan|(f & Hf & Hprops)].
      * left. intros i j Hi Hj.
        rewrite Hcells, decide_False by done. by apply Hnan.
      * right. exists f. split; [|done]. intros i j Hi Hj.
        rewrite Hcells, decide_False by done. by apply Hf.
Qed.

(** A finite maximum bounds every item, and no item is [nan] or [+inf]. *)
Lemma fmax_fin_inv (a b : Np.npfloat) (g : Q) :
  match Np.fmax a b with
  | Np.Fin q => (q <= g)%Q
  | Np.NInf => True
  | _ => False
  end ->
  match a with Np.Fin q => (q <= g)%Q | Np.NInf => True | _ => False end /\
  match b with Np.Fin q => (q <= g)%Q | Np.NInf => True | _ => False end.
Proof.
  destruct a as [x| | |], b as [y| | |]; simpl; try done.
  destruct (Qle_bool x y) eqn:E.
  - apply Qle_bool_iff in E. intros H. split; [|done]. by eapply Qle_trans.
  - intros H. split; [done|].
    assert (y < x)%Q.
    { apply Qnot_le_lt. rewrite <- Qle_bool_iff. congruence. }
    eapply Qle_trans; [by apply Qlt_le_weak|done].
Qed.

Lemma foldl_fmax_fin (xs : list Np.npfloat) (x : Np.npfloat) (g : Q) :
  match foldl Np.fmax x xs with
  | Np.Fin q => (q <= g)%Q
  | Np.NInf => True
  | _ => False
  end ->
  Forall (fun e =>
    match e with Np.Fin q => (q <= g)%Q | Np.NInf => True | _ => False end)
    (x :: xs).
Proof.
  revert x. induction xs as [|e xs IH]; intros x H; simpl in H.
  - by constructor.
  - apply IH in H. apply Forall_cons in H as [H Hxs].
    apply fmax_fin_inv in H as [Hx He].
    constructor; [done|]. by constructor.
Qed.

Lemma amax_fin (A : Np.ndarray Np.npfloat) (g : Q) :
  Np.amax A = Ok (Np.Fin g) ->
  Np.data A ≠ [] /\
  forall k e, Np.data A !! k = Some e ->
    match e with Np.Fin q => (q <= g)%Q | Np.NInf => True | _ => False end.
Proof.
  unfold Np.amax. destruct (Np.data A) as [|x xs] eqn:E; [done|].
  intros [= H]. split; [done|].
  assert (Hall : Forall (fun e =>
    match e with Np.Fin q => (q <= g)%Q | Np.NInf => True | _ => False end)
    (x :: xs)).
  { apply foldl_fmax_fin. rewrite H. apply Qle_refl. }
  intros k e Hk. rewrite Forall_forall in Hall. apply Hall.
  by eapply list_elem_of_lookup_2.
Qed.

Lemma covariance_entries (self : Spikes) (T N M : nat)
    (trials : option (list Z)) (start : Z) (stop : option Z)
    (R : Np.ndarray Np.npfloat) (g : Q) :
  spikes_wf self T N M ->
  covariance_raw self trials start stop = Ok R ->
  Np.amax R = Ok (Np.Fin g) ->
  covariance self trials start stop None
    = Ok (Some (Np.map (fun x => Np.fdiv x (Np.Fin g)) R)) /\
  Np.shape R = [length (or_list trials (range (_T self))); N; N] /\
  (0 <= g)%Q /\
  forall t i j, t < length (or_list trials (range (_T self))) -> i < N -> j < N ->
    exists r r',
      Np.data R !! ((t * N + i) * N + j) = Some (Np.Fin r) /\
      Np.data R !! ((t * N + j) * N + i) = Some (Np.Fin r') /\
      (r == r')%Q /\ (r <= g)%Q /\ (- g <= r)%Q.
Proof.
  intros (Hsh & _ & _ & HN & _) Hraw Hmax.
  destruct (covariance_raw_blocks self T N M trials start stop R Hsh HN Hraw)
    as (HshR & HlenR & Hblocks).
  destruct (amax_fin R g Hmax) as [Hne Hle].
  set (sel := or_list trials (range (_T self))) in *.
  assert (Hentries : forall t i j, t < length sel -> i < N -> j < N ->
    exists r r' a b,
      Np.data R !! ((t * N + i) * N + j) = Some (Np.Fin r) /\
      Np.data R !! ((t * N + j) * N + i) = Some (Np.Fin r') /\
      Np.data R !! ((t * N + i) * N + i) = Some (Np.Fin a) /\
      Np.data R !! ((t * N + j) * N + j) = Some (Np.Fin b) /\
      (r == r')%Q /\ (2 * r <= a + b)%Q /\ (- (a + b) <= 2 * r)%Q /\
      (a <= g)%Q /\ (b <= g)%Q /\ (0 <= a)%Q).
  { intros t i j Ht Hi Hj.
    destruct (Hblocks t Ht) as [Hnan|(f & Hf & Hprops)].
    - specialize (Hle _ _ (Hnan i j Hi Hj)). done.
    - exists (f i j), (f j i), (f i i), (f j j).
      destruct (Hprops i j Hi Hj) as (Hsym & Hup & Hlo).
      destruct (Hprops i i Hi Hi) as (_ & _ & Hdiag).
      pose proof (Hle _ _ (Hf i i Hi Hi)) as Ha. simpl in Ha.
      pose proof (Hle _ _ (Hf j j Hj Hj)) as Hb. simpl in Hb.
      repeat split; try (by apply Hf); try done. lra. }
  split.
  { unfold covariance. by rewrite Hraw, bind_Ok, Hmax, bind_Ok. }
  split; [done|].
  assert (Hg : (0 <= g)%Q).
  { destruct (Np.data R) as [|e es] eqn:E; [done|].
    assert (0 < length sel * N * N) by (rewrite <- HlenR; simpl; lia).
    assert (0 < length sel) by (destruct (length sel); lia).
    assert (0 < N) by (destruct N; lia).
    destruct (Hentries 0 0 0) as (r & r' & a & b & _ & _ & _ & _ & _ & _ & _ & Ha & _ & Ha0);
      try done.
    lra. }
  split; [done|].
  intros t i j Ht Hi Hj.
  destruct (Hentries t i j Ht Hi Hj)
    as (r & r' & a & b & Hr & Hr' & _ & _ & Hsym & Hup & Hlo & Ha & Hb & _).
  exists r, r'. repeat split; try done; lra.
Qed.

Lemma get3_map {A B} (f : A -> B) (a : Np.ndarray A) (t i j : nat) :
  Np.get3 (Np.map f a) t i j = f <$> Np.get3 a t i j.
Proof.
  unfold Np.get3, Np.map. simpl.
  destruct (Np.shape a) as [|d0 [|d1 [|d2 [|? ?]]]]; try done.
  case_decide; [|done]. by rewrite list_lookup_fmap.
Qed.

(** *** The default selection *)

Lemma mapM_norm_index_nat (T : nat) (l : list nat) :
  (forall k, k ∈ l -> k < T) ->
  mapM (Np.norm_index T) (Z.of_nat <$> l) = Ok l.
Proof.
  induction l as [|k l IH]; intros H; [done|].
  assert (E : mapM (Np.norm_index T) (Z.of_nat <$> l) = Ok l).
  { apply IH. intros. apply H. by right. }
  change (Z.of_nat <$> k :: l) with (Z.of_nat k :: (Z.of_nat <$> l)).
  cbn [mapM]. rewrite norm_index_nat by (apply H; left).
  by rewrite bind_Ok, E.
Qed.

Lemma clamp_le (n : nat) (i : Z) : Np.clamp n i <= n.
Proof. unfold Np.clamp. destruct (i <? 0)%Z; lia. Qed.

(** [a[range(T), :, lo:hi]] copies the time range of every trial. *)
Lemma getitem_all_trials (a : Np.ndarray Q) (T N M : nat) (start stop : Z) :
  Np.shape a = [T; N; M] -> length (Np.data a) = T * N * M ->
  exists sub,
    Np.getitem_list_all_slice a (range (Z.of_nat T)) start stop = Ok sub /\
    Np.shape sub = [T; N; (Np.slice_bounds M start stop).2] /\
    length (Np.data sub) = T * N * (Np.slice_bounds M start stop).2 /\
    forall t n k, t < T -> n < N -> k < (Np.slice_bounds M start stop).2 ->
      Np.data sub !! ((t * N + n) * (Np.slice_bounds M start stop).2 + k)
      = Np.data a !! ((t * N + n) * M + ((Np.slice_bounds M start stop).1 + k)).
Proof.
  intros Hsh Hlen. unfold Np.getitem_list_all_slice. rewrite Hsh.
  unfold range. rewrite Nat2Z.id, mapM_norm_index_nat, bind_Ok.
  2:{ intros k Hk%elem_of_seq. lia. }
  destruct (Np.slice_bounds M start stop) as [lo w] eqn:Esl. simpl.
  assert (Hlw : lo + w <= M).
  { unfold Np.slice_bounds in Esl. injection Esl as <- <-.
    pose proof (clamp_le M start). pose proof (clamp_le M stop). lia. }
  set (ks := seq 0 T ≫= _).
  assert (Hks : ks = seq 0 T ≫= fun t => seq 0 N ≫= fun n =>
                  (fun m => (t * N + n) * M + m) <$> seq lo w).
  { subst ks. f_equal. }
  assert (Hin : forall k', k' ∈ ks -> k' < length (Np.data a)).
  { rewrite Hks. intros k' (t & Hk' & Ht)%list_elem_of_bind.
    apply list_elem_of_bind in Hk' as (n & Hk' & Hn).
    apply list_elem_of_fmap in Hk' as (m & -> & Hm).
    apply elem_of_seq in Ht, Hn, Hm. rewrite Hlen. apply idx3_lt; lia. }
  assert (Hinner : forall t, length (seq 0 N ≫= fun n =>
                  (fun m => (t * N + n) * M + m) <$> seq lo w) = N * w).
  { intros t. rewrite (length_bind_const _ _ w), length_seq; [done|].
    intros. by rewrite length_fmap, length_seq. }
  eexists. split; [reflexivity|]. simpl. rewrite length_seq.
  split; [done|]. split.
  - rewrite length_gather by done. rewrite Hks.
    rewrite (length_bind_const _ _ (N * w)), length_seq; [lia|done].
  - intros t n k Ht Hn Hk.
    rewrite (gather_lookup _ _ _ ((t * N + n) * M + (lo + k))); [done|done|].
    rewrite Hks.
    replace ((t * N + n) * w + k) with (t * (N * w) + (n * w + k)) by lia.
    rewrite (lookup_bind_const _ _ (N * w) t (n * w + k) t);
      [|done|by apply lookup_seq_lt|by apply idx2_lt].
    rewrite (lookup_bind_const _ _ w n k n); [| |by apply lookup_seq_lt|done].
    + by rewrite list_lookup_fmap, lookup_seq_lt.
    + intros. by rewrite length_fmap, length_seq.
Qed.

(** The rows of [sub[t]]. *)
Lemma getitem0_rows {A} (sub : Np.ndarray A) (T N w t : nat) :
  Np.shape sub = [T; N; w] -> length (Np.data sub) = T * N * w -> t < T ->
  exists m,
    Np.getitem0 sub (Z.of_nat t) = Ok m /\ Np.shape m = [N; w] /\
    forall i, i < N ->
      length (Np.row m w i) = w /\
      forall k, k < w ->
        Np.row m w i !! k = Np.data sub !! ((t * N + i) * w + k).
Proof.
  intros Hsh Hlen Ht. unfold Np.getitem0. rewrite Hsh.
  rewrite norm_index_nat, bind_Ok by done.
  eexists. split; [reflexivity|]. split; [done|].
  intros i Hi. unfold Np.row. simpl.
  assert (H1 : t * (N * w) + N * w <= T * N * w) by nia.
  assert (H2 : i * w + w <= N * w) by nia.
  split.
  - rewrite length_take, length_drop, length_take, length_drop. lia.
  - intros k Hk.
    rewrite lookup_take_lt, lookup_drop, lookup_take_lt, lookup_drop by lia.
    f_equal. lia.
Qed.

Lemma row_trial_samples (a sub m : Np.ndarray Q) (T N M lo w t i : nat) :
  Np.shape a = [T; N; M] -> length (Np.data a) = T * N * M ->
  lo + w <= M -> t < T -> i < N ->
  length (Np.row m w i) = w ->
  (forall k, k < w ->
     Np.row m w i !! k = Np.data a !! ((t * N + i) * M + (lo + k))) ->
  Np.row m w i = trial_samples a t i lo w.
Proof.
  intros Hsh Hlen Hlw Ht Hi Hrl Hrow.
  apply list_eq_same_length with w; [unfold trial_samples; by rewrite length_fmap, length_seq|done|].
  intros k x y Hk Hx Hy.
  unfold trial_samples in Hy.
  rewrite list_lookup_fmap, lookup_seq_lt in Hy by done. simpl in Hy.
  rewrite (get3_lookup a T N M) in Hy by (done || lia).
  rewrite Hrow in Hx by done. rewrite Hx in Hy. simpl in Hy. congruence.
Qed.

(** With the default selection the per-trial loop succeeds, and block
    [t] of [new_arr] is the covariance of trial [t] over the time range. *)
Lemma covariance_default_trials (self : Spikes) (T N M : nat) (start : Z)
    (stop : option Z) :
  spikes_wf self T N M ->
  exists R,
    covariance_raw self None start stop = Ok R /\
    Np.shape R = [T; N; N] /\
    forall t i j, t < T -> i < N -> j < N ->
      Np.get3 R t i j
      = Some (trial_covariance (_spikes_arr self) t
                (Np.slice_bounds M start (or_int stop (Z.of_nat M))).1
                (Np.slice_bounds M start (or_int stop (Z.of_nat M))).2 i j).
Proof.
  intros (Hsh & Hwf & HT & HN & HM).
  unfold Np.wf in Hwf. rewrite Hsh in Hwf. simpl in Hwf.
  assert (Hlen : length (Np.data (_spikes_arr self)) = T * N * M) by lia.
  unfold covariance_raw. simpl or_list. rewrite HT, HN, HM.
  destruct (getitem_all_trials (_spikes_arr self) T N M start
              (or_int stop (Z.of_nat M)) Hsh Hlen)
    as (sub & Hsub & Hshsub & Hlensub & Hcells).
  rewrite Hsub, bind_Ok.
  set (lo := (Np.slice_bounds M start (or_int stop (Z.of_nat M))).1) in *.
  set (w := (Np.slice_bounds M start (or_int stop (Z.of_nat M))).2) in *.
  assert (Hlw : lo + w <= M).
  { subst lo w. unfold Np.slice_bounds. simpl.
    pose proof (clamp_le M start).
    pose proof (clamp_le M (or_int stop (Z.of_nat M))). lia. }
  assert (Hlr : length (range (Z.of_nat T)) = T)
    by (rewrite length_range; lia).
  rewrite Hlr.
  change [Z.of_nat T; Z.of_nat N; Z.of_nat N] with (Z.of_nat <$> [T; N; N]).
  rewrite zeros_of_nat, bind_Ok.
  destruct (for_each_inv
    (fun (k : nat) (A : Np.ndarray Np.npfloat) =>
       Np.shape A = [T; N; N] /\ length (Np.data A) = T * N * N /\
       forall t i j, t < k -> i < N -> j < N ->
         Np.data A !! ((t * N + i) * N + j)
         = Some (trial_covariance (_spikes_arr self) t lo w i j))
    (enumerate (range (Z.of_nat T)))
    (fun '(t, trial) new_arr =>
       m ← Np.getitem0 sub trial;
       c ← Np.cov m;
       Np.setitem0 new_arr t c)
    (Np.map Np.Fin
       (Np.NDArray [T; N; N] (replicate (Np.size_of [T; N; N]) 0%Q))))
    as (R & HR & HshR & HlenR & HcellsR).
  - split; [done|]. split; [|intros; lia].
    simpl. rewrite length_fmap, length_replicate. lia.
  - intros k [tz trial] A0 Hk (HshA & HlenA & HcellsA).
    apply enumerate_lookup_inv in Hk as [-> Hk].
    assert (Hklt : k < T).
    { apply lookup_lt_Some in Hk. by rewrite Hlr in Hk. }
    rewrite range_lookup in Hk by lia. injection Hk as <-.
    destruct (getitem0_rows sub T N w k Hshsub Hlensub Hklt)
      as (m & Hm & Hshm & Hrows).
    rewrite Hm, bind_Ok.
    destruct (Np.cov m) as [c|e] eqn:Ec.
    2:{ unfold Np.cov in Ec. by rewrite Hshm in Ec. }
    rewrite bind_Ok.
    assert (Hc : Np.shape c = [N; N] /\ length (Np.data c) = N * N /\
              forall i j, i < N -> j < N ->
                Np.data c !! (i * N + j)
                = Some (trial_covariance (_spikes_arr self) k lo w i j)).
    { unfold Np.cov in Ec. rewrite Hshm in Ec. injection Ec as <-. simpl.
      split; [done|]. split; [apply length_comprehension2|].
      intros i j Hi Hj. rewrite comprehension2_lookup by done.
      unfold trial_covariance. do 2 f_equal.
      - destruct (Hrows i Hi) as [Hl Hr].
        apply (row_trial_samples _ sub m T N M lo w k i); try done.
        intros q Hq. rewrite Hr by done. by apply Hcells.
      - destruct (Hrows j Hj) as [Hl Hr].
        apply (row_trial_samples _ sub m T N M lo w k j); try done.
        intros q Hq. rewrite Hr by done. by apply Hcells. }
    destruct Hc as (Hshc & Hlenc & Hcc).
    destruct (setitem0_spec A0 c T N N k HshA HlenA Hklt Hshc Hlenc)
      as (A1 & HA1 & HshA1 & HlenA1 & HcellsA1).
    exists A1. split; [done|]. split; [done|]. split; [done|].
    intros t i j Ht Hi Hj. rewrite HcellsA1 by (done || lia).
    case_decide as Hd.
    + subst t. by apply Hcc.
    + apply HcellsA; (done || lia).
  - exists R. split; [done|]. split; [done|].
    intros t i j Ht Hi Hj.
    rewrite (get3_lookup R T N N) by done.
    apply HcellsR; try done. by rewrite length_enumerate, Hlr.
Qed.


(** C2, as amended.  The source has no guard on the divisor: when the
    global maximum of the per-trial matrices is zero, [covariance] raises
    nothing and returns matrices all of whose entries are [nan], the
    quotient [0 / 0]. *)
Theorem covariance_zero_maximum_unguarded (self : Spikes) (T N M : nat)
    (trials : option (list Z)) (start : Z) (stop : option Z)
    (R : Np.ndarray Np.npfloat) (g : Q) :
  spikes_wf self T N M ->
  covariance_raw self trials start stop = Ok R ->
  Np.amax R = Ok (Np.Fin g) ->
  (g == 0)%Q ->
  exists C,
    covariance self trials start stop None = Ok (Some C) /\
    Np.shape C = [length (or_list trials (range (_T self))); N; N] /\
    forall t i j,
      t < length (or_list trials (range (_T self))) -> i < N -> j < N ->
      Np.get3 C t i j = Some Np.NaN.
Proof.
  intros Hwf Hraw Hmax Hg.
  destruct (covariance_entries self T N M trials start stop R g Hwf Hraw Hmax)
    as (Hrun & HshR & Hg0 & Hentries).
  assert (Hgb : Qeq_bool g 0 = true) by (by apply Qeq_bool_iff).
  eexists. split; [exact Hrun|]. split; [done|].
  intros t i j Ht Hi Hj.
  destruct (Hentries t i j Ht Hi Hj) as (r & r' & Hr & Hr' & Hsym & Hup & Hlo).
  rewrite get3_map, (get3_lookup R _ N N) by done.
  rewrite Hr. simpl. rewrite Hgb.
  assert (Hr0 : (r == 0)%Q) by lra.
  by rewrite (proj1 (Qeq_alt r 0) Hr0).
Qed.


Lemma covariance_zero_maximum_unguarded_witness :
  spikes_wf s123_zero 1 2 3 /\
  covariance_raw s123_zero None 0 None = Ok raw123_zero /\
  Np.amax raw123_zero = Ok (Np.Fin max123_zero) /\
  (max123_zero == 0)%Q /\
  exists C,
    covariance s123_zero None 0 None None = Ok (Some C) /\
    Np.shape C = [1; 2; 2] /\
    Np.get3 C 0 0 0 = Some Np.NaN /\ Np.get3 C 0 0 1 = Some Np.NaN /\
    Np.get3 C 0 1 0 = Some Np.NaN /\ Np.get3 C 0 1 1 = Some Np.NaN.
Proof.
  assert (H1 : spikes_wf s123_zero 1 2 3) by (repeat split).
  assert (H2 : covariance_raw s123_zero None 0 None = Ok raw123_zero)
    by (vm_compute; reflexivity).
  assert (H3 : Np.amax raw123_zero = Ok (Np.Fin max123_zero))
    by (vm_compute; reflexivity).
  assert (H4 : (max123_zero == 0)%Q) by (vm_compute; reflexivity).
  split; [exact H1|]. split; [exact H2|]. split; [exact H3|]. split; [exact H4|].
  destruct (covariance_zero_maximum_unguarded s123_zero 1 2 3 None 0 None
              raw123_zero max123_zero H1 H2 H3 H4) as (C & Hrun & Hsh & Hall).
  exists C. split; [exact Hrun|]. split; [exact Hsh|].
  repeat split; apply Hall; simpl; lia.
Defined.

(** C2 fails as stated: on an all-zero [1 x 2 x 3] tensor the global
    maximum is zero and [covariance] returns four [nan] entries. *)
Lemma covariance_returns_nan_on_zero_input :
  (exists R g, covariance_raw s123_zero None 0 None = Ok R /\
     Np.amax R = Ok (Np.Fin g) /\ (g == 0)%Q) /\
  covariance s123_zero None 0 None None
    = Ok (Some (Np.NDArray [1; 2; 2] [Np.NaN; Np.NaN; Np.NaN; Np.NaN])).
Proof.
  split; [|vm_compute; reflexivity].
  exists raw123_zero, max123_zero. repeat split; vm_compute; reflexivity.
Qed.


(** C1.  The loop reads the already selected trials at the trial number
    instead of the position: selecting [[1]] of two trials raises
    [IndexError], and for the selection [[1, 0]] the first matrix is the
    covariance of trial 0 and not that of the first selected trial 1. *)
Lemma covariance_trial_index_slip :
  covariance s223 (Some [1%Z]) 0 None None = Raise IndexError /\
  (exists R x y,
     covariance_raw s223 (Some [1; 0]%Z) 0 None = Ok R /\
     Np.get3 R 0 0 1 = Some (Np.Fin x) /\
     trial_covariance (_spikes_arr s223) 0 0 3 0 1 = Np.Fin x /\
     trial_covariance (_spikes_arr s223) 1 0 3 0 1 = Np.Fin y /\
     (x == -1 # 6)%Q /\ (y == 1 # 3)%Q).
Proof.
  split; [vm_compute; reflexivity|].
  eexists _, _, _. split; [vm_compute; reflexivity|].
  split; [vm_compute; reflexivity|].
  split; [vm_compute; reflexivity|].
  split; [vm_compute; reflexivity|].
  split; vm_compute; reflexivity.
Qed.

(** * Further properties *)

(** ** Preprocessing and construction *)

Lemma binarize_idem (x : Q) : binarize (binarize x) = binarize x.
Proof. apply binarize_binary, binarize_01. Qed.

Lemma map_binarize_binary (a : Np.ndarray Q) :
  binary a -> Np.map binarize a = a.
Proof.
  destruct a as [sh dat]. intros Hbin. unfold Np.map. simpl in *. f_equal.
  rewrite <- (list_fmap_id dat) at 2. apply list_fmap_ext.
  intros i x Hx. apply binarize_binary, Hbin.
  by eapply list_elem_of_lookup_2.
Qed.

Lemma binary_map_binarize (a : Np.ndarray Q) : binary (Np.map binarize a).
Proof.
  intros x. simpl. intros (y & -> & _)%list_elem_of_fmap. apply binarize_01.
Qed.

Lemma binary_double (a : Np.ndarray Q) : binary a -> binary (Np.double a).
Proof. intros H x. rewrite double_data. apply H. Qed.

(** X1.  Binarising twice is binarising once.  A tensor that is already
    binary keeps its items, and is left exactly as it is unless it holds
    exactly one item (whose axes [np.double] drops). *)
Theorem preprocess_idempotent (self : Spikes) :
  preprocess (preprocess self) = preprocess self /\
  (binary (_spikes_arr self) ->
   Np.data (_spikes_arr (preprocess self)) = Np.data (_spikes_arr self) /\
   (Np.size_of (Np.shape (_spikes_arr self)) <> 1 -> preprocess self = self)).
Proof.
  split.
  - unfold preprocess. cbn [_spikes_arr _T _N _M idx mean_activities].
    f_equal.
    rewrite (map_binarize_binary (Np.double _))
      by apply binary_double, binary_map_binarize.
    unfold Np.double at 1. rewrite double_shape.
    destruct (Np.size_of (Np.shape (Np.map binarize (_spikes_arr self))) =? 1)
      eqn:E; [|by rewrite E].
    change (Np.size_of [] =? 1) with true. cbv iota.
    rewrite double_data. unfold Np.double. by rewrite E.
  - intros Hbin. destruct self as [a T N M ix ma].
    unfold preprocess. simpl in *. rewrite map_binarize_binary by done.
    split; [apply double_data|]. intros Hne. by rewrite double_many.
Qed.

Lemma preprocess_idempotent_witness :
  binary (_spikes_arr scenario_B) /\ preprocess scenario_B = scenario_B.
Proof.
  assert (H : binary (_spikes_arr scenario_B)).
  { intros x Hx. simpl in Hx.
    repeat (apply elem_of_cons in Hx as [->|Hx]; [auto|]).
    by apply elem_of_nil in Hx. }
  assert (H1 : Np.size_of (Np.shape (_spikes_arr scenario_B)) <> 1)
    by (simpl; lia).
  split; [exact H|].
  exact (proj2 (proj2 (preprocess_idempotent scenario_B) H) H1).
Defined.

(** Writing a [1] keeps the shape, the size and binary entries. *)
Lemma setitem2_inv (arr arr' : Np.ndarray Q) (r c : Z) :
  Np.setitem2 arr r c 1%Q = Ok arr' ->
  Np.shape arr' = Np.shape arr /\
  length (Np.data arr') = length (Np.data arr) /\
  (binary arr -> binary arr').
Proof.
  unfold Np.setitem2.
  destruct (Np.shape arr) as [|d0 [|d1 [|? ?]]] eqn:Hsh; try done.
  destruct (Np.norm_index d0 r) as [r'|]; [|done]. rewrite bind_Ok.
  destruct (Np.norm_index d1 c) as [c'|]; [|done]. rewrite bind_Ok.
  intros [= <-]. simpl. split; [done|]. split; [by rewrite length_insert|].
  intros Hbin x Hx. apply list_elem_of_lookup in Hx as [k Hk]. simpl in Hk.
  destruct (decide (k = r' * d1 + c')) as [->|Hne].
  - apply list_lookup_insert_Some in Hk as [(_ & <- & _)|[? _]]; [by right|done].
  - rewrite list_lookup_insert_ne in Hk by done.
    apply Hbin. by eapply list_elem_of_lookup_2.
Qed.

(** Whatever the event times, a grid that binning returns has one row
    per source, as many items as its shape says, and only zeros and
    ones. *)
Lemma load_from_spikes_times_inv (lists : list (list Z)) (bin_size : pynum)
    (grid : Np.ndarray Q) :
  load_from_spikes_times lists bin_size = Ok (Some grid) ->
  exists M, Np.shape grid = [length lists; M] /\ Np.wf grid /\ binary grid.
Proof.
  unfold load_from_spikes_times.
  destruct (length lists =? 0); [done|].
  destruct (max_millisec lists) as [mx|]; [|done]. rewrite bind_Ok.
  destruct (py_int_f mx) as [k|]; [|done]. rewrite bind_Ok.
  destruct (grid_columns k bin_size) as [cols|]; [|done]. rewrite bind_Ok.
  unfold Np.zeros.
  destruct (forallb _ _) eqn:Hnn; [|done]. rewrite bind_Ok.
  set (arr0 := Np.NDArray _ _).
  destruct (for_each _ _ arr0) as [arr1|] eqn:Hloop; [|done].
  rewrite bind_Ok. intros [= <-].
  pose (I := fun (k : nat) (a : Np.ndarray Q) =>
    Np.shape a = Np.shape arr0 /\
    length (Np.data a) = length (Np.data arr0) /\ binary a).
  assert (HI : I (length (enumerate lists)) arr1).
  { eapply (for_each_inv_partial I); [| |exact Hloop].
    - split; [done|]. split; [done|].
      intros x Hx. simpl in Hx. apply elem_of_replicate in Hx as [-> _]. by left.
    - intros i [c l] a0 a1 _ Ha0. cbv beta iota.
      intros Hrow.
      eapply (for_each_inv_partial (fun _ => I i)); [exact Ha0| |exact Hrow].
      intros j t a2 a3 _ (Hs2 & Hl2 & Hb2) Hstep.
      destruct (py_truediv _ _) as [d|]; [|done]. rewrite bind_Ok in Hstep.
      cbv zeta in Hstep.
      destruct (Np.shape_at _ _) as [w|]; [|done]. rewrite bind_Ok in Hstep.
      destruct (py_int d <? w)%Z.
      + apply setitem2_inv in Hstep as (Hs3 & Hl3 & Hb3).
        split; [congruence|]. split; [congruence|]. by apply Hb3.
      + injection Hstep as <-. done. }
  destruct HI as (Hs & Hl & Hb).
  exists (Z.to_nat cols). split; [rewrite Hs; simpl; by rewrite Nat2Z.id|].
  split; [|done]. unfold Np.wf. rewrite Hl, Hs. simpl.
  by rewrite length_replicate.
Qed.

Lemma reshape_inv {A} (a a' : Np.ndarray A) (sh : list nat) :
  Np.reshape a (Z.of_nat <$> sh) = Ok a' ->
  a' = Np.NDArray sh (Np.data a) /\ Np.wf a'.
Proof.
  unfold Np.reshape, Np.infer_dims.
  rewrite forallb_nonneg_of_nat, to_nat_of_nat_list.
  destruct (Nat.eqb_spec (Np.size_of sh) (length (Np.data a))); [|done].
  rewrite bind_Ok. intros [= <-]. by split.
Qed.

Lemma shape_at_inv (sh : list nat) (k : nat) (z : Z) :
  Np.shape_at sh k = Ok z -> exists d, sh !! k = Some d /\ z = Z.of_nat d.
Proof.
  unfold Np.shape_at. destruct (sh !! k) as [d|]; [|done].
  intros [= <-]. eauto.
Qed.

(** X2.  Whatever the source (an array or event times), an object that
    the constructor builds with its default [preprocess=True] holds a
    binary array; the stored [T], [N] and [M] are the first three
    dimensions of the array as it was before [preprocess], which the
    held array keeps unless it has exactly one item (it is then a scalar
    without axes, with [T = N = M = 1] stored); it holds exactly as many
    items as its shape says when the given array did. *)
Theorem init_default_invariant (src : source) (s : Spikes) :
  __init__ src true = Ok s ->
  binary (_spikes_arr s) /\
  (exists T N M rest,
     _T s = Z.of_nat T /\ _N s = Z.of_nat N /\ _M s = Z.of_nat M /\
     Np.shape (_spikes_arr s)
     = (if Np.size_of (T :: N :: M :: rest) =? 1 then []
        else T :: N :: M :: rest)) /\
  ((forall a, src = FromArray a -> Np.wf a) -> Np.wf (_spikes_arr s)) /\
  idx s = None /\ mean_activities s = None.
Proof.
  unfold __init__.
  destruct (match src with FromArray _ => _ | _ => _ end) as [arr0|] eqn:E0;
    [|done].
  rewrite bind_Ok. cbv zeta.
  assert (Hwf0 : (forall a, src = FromArray a -> Np.wf a) -> Np.wf arr0).
  { intros Hsrc. destruct src as [a|ts b].
    - injection E0 as <-. by apply Hsrc.
    - destruct (load_from_spikes_times ts _) as [[g|]|] eqn:El; try done.
      rewrite bind_Ok in E0. injection E0 as <-.
      by destruct (load_from_spikes_times_inv _ _ _ El) as (M & _ & Hwf & _). }
  destruct (if length (Np.shape arr0) =? 2 then _ else _) as [arr|] eqn:E1;
    [|done].
  rewrite bind_Ok.
  assert (Hwf1 : Np.wf arr0 -> Np.wf arr).
  { intros H0. destruct (length (Np.shape arr0) =? 2).
    - destruct (Np.shape_at _ 0) as [s0|] eqn:E2; [|done]. rewrite bind_Ok in E1.
      destruct (Np.shape_at _ 1) as [s1|] eqn:E3; [|done]. rewrite bind_Ok in E1.
      apply shape_at_inv in E2 as (n0 & _ & ->).
      apply shape_at_inv in E3 as (n1 & _ & ->).
      change [1%Z; Z.of_nat n0; Z.of_nat n1] with (Z.of_nat <$> [1; n0; n1]) in E1.
      by apply reshape_inv in E1 as [_ ?].
    - by injection E1 as <-. }
  destruct (Np.shape_at (Np.shape arr) 0) as [T|] eqn:ET; [|done].
  rewrite bind_Ok.
  destruct (Np.shape_at (Np.shape arr) 1) as [N|] eqn:EN; [|done].
  rewrite bind_Ok.
  destruct (Np.shape_at (Np.shape arr) 2) as [M|] eqn:EM; [|done].
  rewrite bind_Ok. intros [= <-].
  apply shape_at_inv in ET as (T' & HT & ->).
  apply shape_at_inv in EN as (N' & HN & ->).
  apply shape_at_inv in EM as (M' & HM & ->).
  unfold preprocess. cbn [_spikes_arr _T _N _M idx mean_activities].
  split; [apply binary_double, binary_map_binarize|].
  split.
  { destruct (Np.shape arr) as [|d0 [|d1 [|d2 rest]]] eqn:Hsh; try done.
    simpl in HT, HN, HM. injection HT as <-. injection HN as <-.
    injection HM as <-.
    exists d0, d1, d2, rest. split; [done|]. split; [done|]. split; [done|].
    rewrite double_shape. simpl Np.shape. by rewrite Hsh. }
  split; [|done].
  intros Hsrc. apply double_wf. unfold Np.wf, Np.map. simpl.
  rewrite length_fmap. by apply Hwf1, Hwf0.
Qed.

Lemma init_default_invariant_witness :
  __init__ (FromSpikeTimes scenario_A (PyInt 1)) true
    = Ok (MkSpikes (Np.NDArray [1; 2; 3] [0; 1; 1; 0; 1; 0]%Q) 1 2 3 None None) /\
  binary (Np.NDArray [1; 2; 3] [0; 1; 1; 0; 1; 0]%Q).
Proof.
  assert (H : __init__ (FromSpikeTimes scenario_A (PyInt 1)) true
    = Ok (MkSpikes (Np.NDArray [1; 2; 3] [0; 1; 1; 0; 1; 0]%Q) 1 2 3 None None))
    by (vm_compute; reflexivity).
  split; [exact H|].
  exact (proj1 (init_default_invariant _ _ H)).
Defined.

(** ** Binning: failures and completeness *)

Lemma for_each_raise {St A} (xs : list A) (body : A -> St -> result St)
    (bad : A -> Prop) (e : exn) (s : St) :
  (forall x s', bad x -> body x s' = Raise e) ->
  (forall x s', x ∈ xs -> ~ bad x -> exists s'', body x s' = Ok s'') ->
  (forall x, x ∈ xs -> Decision (bad x)) ->
  (exists x, x ∈ xs /\ bad x) ->
  for_each xs body s = Raise e.
Proof.
  intros Hbad Hgood Hdec. revert s.
  induction xs as [|x xs IH]; intros s (y & Hy & Hby).
  - by apply elem_of_nil in Hy.
  - simpl. destruct (Hdec x) as [Hx|Hx]; [left| |].
    + by rewrite Hbad.
    + destruct (Hgood x s) as [s'' ->]; [left|done|]. rewrite bind_Ok.
      apply IH.
      * intros. apply Hgood; [by right|done].
      * intros. apply Hdec. by right.
      * apply elem_of_cons in Hy as [->|Hy]; [done|]. eauto.
Qed.

Lemma largest_last (lists : list (list Z)) :
  lists ≠ [] -> (forall l, l ∈ lists -> l ≠ []) ->
  exists L,
    (exists l, l ∈ lists /\ last l = Some L) /\
    (forall l x, l ∈ lists -> last l = Some x -> (x <= L)%Z).
Proof.
  induction lists as [|l lists IH]; intros Hnil Hne; [done|].
  assert (exists x, last l = Some x) as [x Hx].
  { destruct (last l) eqn:E; [eauto|]. apply last_None in E.
    exfalso. eapply Hne; [left|done]. }
  destruct lists as [|l1 lists].
  - exists x. split; [exists l; split; [left|done]|].
    intros l' x' [->|Hl']%elem_of_cons Hx'.
    + rewrite Hx in Hx'. injection Hx' as <-. lia.
    + by apply elem_of_nil in Hl'.
  - destruct IH as (L & (l0 & Hl0 & HL0) & Hmax); [done| |].
    { intros. apply Hne. by right. }
    destruct (Z.le_ge_cases x L).
    + exists L. split; [exists l0; split; [by right|done]|].
      intros l' x' [->|Hl']%elem_of_cons Hx'.
      * rewrite Hx in Hx'. injection Hx' as <-. lia.
      * eauto.
    + exists x. split; [exists l; split; [left|done]|].
      intros l' x' [->|Hl']%elem_of_cons Hx'.
      * rewrite Hx in Hx'. injection Hx' as <-. lia.
      * pose proof (Hmax l' x' Hl' Hx'). lia.
Qed.

(** X3.  How binning fails: an empty collection is a no-op that leaves
    no array; a source without any event makes the horizon loop raise
    [IndexError]; with events in every source, a zero bin width (the
    integer or the double) raises [ZeroDivisionError]. *)
Theorem load_from_spikes_times_errors (lists : list (list Z))
    (bin_size : pynum) :
  (lists = [] -> load_from_spikes_times lists bin_size = Ok None) /\
  ([] ∈ lists -> load_from_spikes_times lists bin_size = Raise IndexError) /\
  (lists ≠ [] -> (forall l, l ∈ lists -> l ≠ []) ->
   bin_size = PyInt 0 \/ (exists q, bin_size = PyFloat q /\ (q == 0)%Q) ->
   load_from_spikes_times lists bin_size = Raise ZeroDivisionError).
Proof.
  split; [by intros ->|]. split.
  - intros Hin. unfold load_from_spikes_times.
    destruct lists as [|l0 lists0] eqn:E; [by apply elem_of_nil in Hin|].
    rewrite <- E in *. replace (length lists =? 0) with false by (by rewrite E).
    unfold max_millisec.
    rewrite (for_each_raise lists _ (fun l => l = []) IndexError); [done| | | |].
    + by intros x s' ->.
    + intros x s' _ Hx. destruct (last x) as [t|] eqn:El.
      * rewrite (last_item_Some _ _ El), bind_Ok. eauto.
      * by apply last_None in El.
    + intros x _. apply _.
    + eauto.
  - intros Hne Hall Hzero. unfold load_from_spikes_times.
    destruct lists as [|l0 lists0] eqn:E; [done|].
    rewrite <- E in *. replace (length lists =? 0) with false by (by rewrite E).
    destruct (max_millisec_some lists Hne Hall) as (q & l & x & -> & _).
    rewrite bind_Ok. unfold py_int_f. rewrite bind_Ok.
    destruct Hzero as [->|(z & -> & Hz)]; [done|].
    unfold grid_columns, py_truediv.
    apply Qeq_bool_iff in Hz. by rewrite Hz.
Qed.

Lemma load_from_spikes_times_errors_witness :
  [] ∈ [[1000%Z]; []] /\
  load_from_spikes_times [[1000%Z]; []] (PyInt 1) = Raise IndexError /\
  load_from_spikes_times scenario_A (PyInt 0) = Raise ZeroDivisionError.
Proof.
  assert (H1 : [] ∈ [[1000%Z]; []]) by (right; left).
  split; [exact H1|]. split.
  - exact (proj1 (proj2 (load_from_spikes_times_errors _ (PyInt 1))) H1).
  - refine (proj2 (proj2 (load_from_spikes_times_errors scenario_A (PyInt 0)))
              _ _ (or_introl eq_refl)).
    + done.
    + unfold scenario_A. intros l Hl.
      repeat (apply elem_of_cons in Hl as [->|Hl]; [done|]).
      by apply elem_of_nil in Hl.
Defined.

(** The run of [load_from_spikes_times] on well-formed input. *)
Lemma load_from_spikes_times_cells (lists : list (list Z)) (b : positive) :
  lists ≠ [] ->
  (forall l, l ∈ lists -> l ≠ [] /\ forall t, t ∈ l -> (0 <= t < 2 ^ 53)%Z) ->
  (1000 * Zpos b < 2 ^ 53)%Z ->
  exists L grid,
    (exists l, l ∈ lists /\ last l = Some L) /\
    (forall l x, l ∈ lists -> last l = Some x -> (x <= L)%Z) /\
    load_from_spikes_times lists (PyInt (Zpos b)) = Ok (Some grid) /\
    Np.shape grid = [length lists; Z.to_nat (grid_width L (Zpos b))] /\
    forall c l j, lists !! c = Some l -> j < Z.to_nat (grid_width L (Zpos b)) ->
      Np.get2 grid c j
      = Some (if existsb (fun t => (bin_index t (Zpos b) =? Z.of_nat j)%Z) l
              then 1%Q else 0%Q).
Proof.
  intros Hne Hlists Hwidth.
  destruct (largest_last lists Hne) as (L & HL & Hmax).
  { intros. by apply Hlists. }
  assert (Hlast : forall l x, l ∈ lists -> last l = Some x ->
                    (0 <= x < 2 ^ 53)%Z).
  { intros l x Hl Hx. apply (proj2 (Hlists l Hl)).
    apply last_Some in Hx as [l' ->]. apply elem_of_app. right. left. }
  assert (HL0 : (0 <= L)%Z).
  { destruct HL as (l & Hl & Hx). by apply (Hlast l L). }
  set (M := Z.to_nat (grid_width L (Zpos b))).
  exists L. unfold load_from_spikes_times.
  destruct (Nat.eqb_spec (length lists) 0) as [E|_].
  { destruct lists; [done|simpl in E; lia]. }
  destruct (max_millisec_largest_last lists L) as (q & -> & Hpq);
    [intros; by apply Hlists|done|done|done|].
  rewrite bind_Ok. unfold py_int_f. rewrite bind_Ok, Hpq.
  unfold grid_columns, py_floordiv. change (Z.pos b =? 0)%Z with false.
  cbv iota. rewrite !bind_Ok.
  assert (Hq : (0 <= L / 1000 / Z.pos b)%Z).
  { apply Z.div_pos; [apply Z.div_pos|]; lia. }
  replace [Z.of_nat (length lists); (L / 1000 / Z.pos b + 1)%Z]
    with (Z.of_nat <$> [length lists; M]).
  2:{ csimpl. do 2 f_equal. subst M. rewrite grid_width_eq. lia. }
  rewrite zeros_of_nat, bind_Ok.
  destruct (binning_grid lists b M) with
    (arr := Np.NDArray [length lists; M]
              (replicate (Np.size_of [length lists; M]) 0%Q))
    as (grid & Hgrid & Hsh & Hlen & Hcells).
  - intros l t Hl Ht. by apply (proj2 (Hlists l Hl)).
  - done.
  - done.
  - simpl. f_equal. lia.
  - cbv zeta in Hgrid. rewrite Hgrid, bind_Ok.
    exists grid. split; [done|]. split; [done|]. split; [done|]. split; [done|].
    intros c l j Hl Hj.
    rewrite (get2_lookup grid (length lists) M); [by apply Hcells|done| |done].
    by eapply lookup_lt_Some.
Qed.

(** X4.  With an integer bin width [bin_size > 0], [1000 * bin_size <
    2^53], integer timestamps in [0 .. 2^53) and no timestamp of a
    source later than its last one (as in a time-sorted source), binning
    loses no event: every timestamp falls inside the grid and its cell
    holds [1]. *)
Theorem load_from_spikes_times_keeps_all (lists : list (list Z)) (bin_size : Z) :
  lists ≠ [] ->
  (forall l, l ∈ lists -> l ≠ [] /\ forall t, t ∈ l -> (0 <= t < 2 ^ 53)%Z) ->
  (forall l t x, l ∈ lists -> t ∈ l -> last l = Some x -> (t <= x)%Z) ->
  (0 < bin_size)%Z -> (1000 * bin_size < 2 ^ 53)%Z ->
  exists grid M,
    load_from_spikes_times lists (PyInt bin_size) = Ok (Some grid) /\
    Np.shape grid = [length lists; M] /\
    forall c l t, lists !! c = Some l -> t ∈ l ->
      (0 <= bin_index t bin_size < Z.of_nat M)%Z /\
      Np.get2 grid c (Z.to_nat (bin_index t bin_size)) = Some 1%Q.
Proof.
  intros Hne Hlists Hsorted Hbin Hwidth.
  destruct bin_size as [|b|b]; try lia. clear Hbin.
  destruct (load_from_spikes_times_cells lists b Hne Hlists Hwidth)
    as (L & grid & HL & Hmax & Hrun & Hsh & Hcells).
  exists grid, (Z.to_nat (grid_width L (Zpos b))).
  split; [done|]. split; [done|].
  intros c l t Hl Ht.
  assert (Hlin : l ∈ lists) by (by eapply list_elem_of_lookup_2).
  assert (Ht0 : (0 <= t < 2 ^ 53)%Z) by (by apply (proj2 (Hlists l Hlin))).
  assert (HtL : (t <= L)%Z).
  { destruct (last l) as [x|] eqn:Ex.
    - pose proof (Hsorted l t x Hlin Ht Ex). pose proof (Hmax l x Hlin Ex). lia.
    - apply last_None in Ex. subst l. by apply elem_of_nil in Ht. }
  assert (Hb : (0 <= bin_index t (Zpos b) < Z.of_nat (Z.to_nat (grid_width L (Zpos b))))%Z).
  { rewrite bin_index_eq, grid_width_eq.
    assert (0 <= t / (1000 * Z.pos b))%Z by (apply Z.div_pos; lia).
    assert (t / (1000 * Z.pos b) <= L / (1000 * Z.pos b))%Z
      by (apply Z.div_le_mono; lia).
    rewrite Z.div_div by lia. lia. }
  split; [done|].
  rewrite (Hcells c l) by (done || lia).
  replace (existsb _ l) with true; [done|].
  symmetry. apply existsb_exists. exists t.
  split; [by apply list_elem_of_In|]. apply Z.eqb_eq. lia.
Qed.

Lemma load_from_spikes_times_keeps_all_witness :
  scenario_A ≠ [] /\
  exists grid M,
    load_from_spikes_times scenario_A (PyInt 1) = Ok (Some grid) /\
    Np.shape grid = [2; M] /\
    Np.get2 grid 1 (Z.to_nat (bin_index 1500 1)) = Some 1%Q.
Proof.
  assert (H1 : scenario_A ≠ []) by done.
  assert (H2 : forall l, l ∈ scenario_A ->
                 l ≠ [] /\ forall t, t ∈ l -> (0 <= t < 2 ^ 53)%Z).
  { unfold scenario_A. intros l Hl.
    repeat (apply elem_of_cons in Hl as [->|Hl]);
      [| |by apply elem_of_nil in Hl].
    - split; [done|]. intros t Ht.
      repeat (apply elem_of_cons in Ht as [->|Ht]); try lia.
      by apply elem_of_nil in Ht.
    - split; [done|]. intros t Ht.
      repeat (apply elem_of_cons in Ht as [->|Ht]); try lia.
      by apply elem_of_nil in Ht. }
  assert (H3 : forall l t x, l ∈ scenario_A -> t ∈ l -> last l = Some x ->
                 (t <= x)%Z).
  { unfold scenario_A. intros l t x Hl Ht.
    repeat (apply elem_of_cons in Hl as [->|Hl]);
      [| |by apply elem_of_nil in Hl]; simpl; intros [= <-];
      repeat (apply elem_of_cons in Ht as [->|Ht]); try lia;
      by apply elem_of_nil in Ht. }
  assert (H4 : (0 < 1)%Z) by lia.
  assert (H5 : (1000 * 1 < 2 ^ 53)%Z) by lia.
  split; [exact H1|].
  destruct (load_from_spikes_times_keeps_all scenario_A 1 H1 H2 H3 H4 H5)
    as (grid & M & Hrun & Hsh & Hall).
  exists grid, M. split; [exact Hrun|]. split; [exact Hsh|].
  apply (Hall 1 [1500%Z]); [reflexivity|left].
Defined.

(** X5.  Construction from event times is binning followed by shape
    normalisation: an empty collection leaves no array and the
    constructor fails with [AttributeError]; a bin width of [0] is
    replaced by [1]; an error of the binning is the constructor's error;
    and a grid [N x M] becomes the single trial of an object with
    [T = 1] that holds the [1 x N x M] array of the grid's items, passed
    through [np.double] when [preprocess] is set (which drops the axes
    of a one-item array and changes nothing else: the grid is binary). *)
Theorem init_from_spike_times (lists : list (list Z)) (bin_size : pynum)
    (p : bool) :
  (lists = [] ->
   __init__ (FromSpikeTimes lists bin_size) p = Raise AttributeError) /\
  __init__ (FromSpikeTimes lists (PyInt 0)) p
    = __init__ (FromSpikeTimes lists (PyInt 1)) p /\
  (forall e,
     load_from_spikes_times lists (or_num bin_size (PyInt 1)) = Raise e ->
     __init__ (FromSpikeTimes lists bin_size) p = Raise e) /\
  (forall grid,
     load_from_spikes_times lists (or_num bin_size (PyInt 1)) = Ok (Some grid) ->
     exists M,
       Np.shape grid = [length lists; M] /\
       let A := Np.NDArray [1; length lists; M] (Np.data grid) in
       __init__ (FromSpikeTimes lists bin_size) p
       = Ok (MkSpikes (if p then Np.double A else A)
               1 (Z.of_nat (length lists)) (Z.of_nat M) None None) /\
       (length lists * M <> 1 -> Np.double A = A)).
Proof.
  split; [by intros ->|]. split; [done|]. split.
  - intros e He. unfold __init__. by rewrite He.
  - intros grid Hrun.
    destruct (load_from_spikes_times_inv _ _ _ Hrun) as (M & Hsh & Hwf & Hbin).
    exists M. split; [done|]. cbv zeta. split.
    2:{ intros Hne. apply double_many. simpl. lia. }
    unfold __init__. rewrite Hrun, !bind_Ok. cbv zeta. rewrite Hsh.
    simpl length. cbv iota.
    change (2 =? 2) with true. cbv iota.
    rewrite (shape_at_lookup _ 0 (length lists)), bind_Ok by done.
    rewrite (shape_at_lookup _ 1 M), bind_Ok by done.
    change [1%Z; Z.of_nat (length lists); Z.of_nat M]
      with (Z.of_nat <$> [1; length lists; M]).
    rewrite reshape_of_nat.
    2:{ rewrite Hwf, Hsh. simpl. lia. }
    rewrite bind_Ok. simpl Np.shape.
    rewrite (shape_at_lookup _ 0 1), bind_Ok by done.
    rewrite (shape_at_lookup _ 1 (length lists)), bind_Ok by done.
    rewrite (shape_at_lookup _ 2 M), bind_Ok by done.
    destruct p; [|done]. f_equal.
    unfold preprocess. cbn [_spikes_arr _T _N _M idx mean_activities].
    rewrite map_binarize_binary; [done|].
    intros x Hx. by apply Hbin.
Qed.

Lemma init_from_spike_times_witness :
  exists M,
    __init__ (FromSpikeTimes scenario_A (PyInt 1)) true
    = Ok (MkSpikes (Np.double (Np.NDArray [1; 2; M] [0; 1; 1; 0; 1; 0]%Q))
            1 2 (Z.of_nat M) None None).
Proof.
  destruct (proj2 (proj2 (proj2
              (init_from_spike_times scenario_A (PyInt 1) true)))
              (Np.NDArray [2; 3] [0; 1; 1; 0; 1; 0]%Q) eq_refl)
    as (M & Hsh & H & _).
  exists M. exact H.
Defined.

(** ** Index lists *)

Lemma norm_index_inv (n : nat) (i : Z) (k : nat) :
  Np.norm_index n i = Ok k ->
  k < n /\ (Z.of_nat k = i \/ Z.of_nat k = (i + Z.of_nat n)%Z /\ (i < 0)%Z).
Proof.
  unfold Np.norm_index.
  destruct (Z.leb_spec 0 i), (Z.ltb_spec i (Z.of_nat n)); simpl;
    try (intros [= <-]; lia);
    destruct (Z.leb_spec (- Z.of_nat n) i), (Z.ltb_spec i 0); simpl;
    try done; intros [= <-]; lia.
Qed.

Lemma norm_index_in_range (n : nat) (i : Z) :
  (- Z.of_nat n <= i < Z.of_nat n)%Z -> exists k, Np.norm_index n i = Ok k.
Proof.
  intros Hi. unfold Np.norm_index.
  destruct (Z.leb_spec 0 i), (Z.ltb_spec i (Z.of_nat n)); simpl;
    try (by eexists); try lia.
  destruct (Z.leb_spec (- Z.of_nat n) i), (Z.ltb_spec i 0); simpl;
    try (by eexists); lia.
Qed.

Lemma norm_index_out_of_range (n : nat) (i : Z) :
  (i < - Z.of_nat n \/ Z.of_nat n <= i)%Z ->
  Np.norm_index n i = Raise IndexError.
Proof.
  intros Hi. unfold Np.norm_index.
  destruct (Z.leb_spec 0 i), (Z.ltb_spec i (Z.of_nat n)); simpl; try lia;
    destruct (Z.leb_spec (- Z.of_nat n) i), (Z.ltb_spec i 0); simpl;
    try done; lia.
Qed.

Lemma norm_index_result (n : nat) (i : Z) :
  (exists k, Np.norm_index n i = Ok k) \/ Np.norm_index n i = Raise IndexError.
Proof.
  destruct (decide (- Z.of_nat n <= i < Z.of_nat n)%Z) as [H|H].
  - left. by apply norm_index_in_range.
  - right. apply norm_index_out_of_range. lia.
Qed.

Lemma mapM_norm_index_ok (T : nat) (trials : list Z) :
  (forall t, t ∈ trials -> (- Z.of_nat T <= t < Z.of_nat T)%Z) ->
  exists ts,
    mapM (Np.norm_index T) trials = Ok ts /\
    Forall2 (fun t t' => Np.norm_index T t = Ok t') trials ts.
Proof.
  induction trials as [|t trials IH]; intros H.
  - exists []. split; [done|constructor].
  - destruct IH as (ts & E & HF). { intros. apply H. by right. }
    destruct (norm_index_in_range T t) as [k Hk]. { apply H. left. }
    exists (k :: ts). split; [|by constructor].
    cbn [mapM]. by rewrite Hk, bind_Ok, E.
Qed.

Lemma mapM_norm_index_raise (T : nat) (trials : list Z) :
  (exists t, t ∈ trials /\ (t < - Z.of_nat T \/ Z.of_nat T <= t)%Z) ->
  mapM (Np.norm_index T) trials = Raise IndexError.
Proof.
  induction trials as [|t trials IH]; intros (t0 & Hin & Hbad).
  - by apply elem_of_nil in Hin.
  - cbn [mapM].
    destruct (norm_index_result T t) as [[k Hk]|Hk]; rewrite Hk; [|done].
    rewrite bind_Ok.
    apply elem_of_cons in Hin as [->|Hin].
    + rewrite norm_index_out_of_range in Hk by done. done.
    + rewrite IH; [done|]. by exists t0.
Qed.

(** [a[trials, :, lo:hi]] for index lists within range: block [c] of the
    result is the time range of the trial that [trials[c]] denotes. *)
Lemma getitem_list_spec {A} (a : Np.ndarray A) (T N M : nat)
    (trials : list Z) (ts : list nat) (lo hi : Z) :
  Np.shape a = [T; N; M] -> length (Np.data a) = T * N * M ->
  Forall2 (fun t t' => Np.norm_index T t = Ok t') trials ts ->
  mapM (Np.norm_index T) trials = Ok ts ->
  exists sub,
    Np.getitem_list_all_slice a trials lo hi = Ok sub /\
    Np.shape sub = [length trials; N; (Np.slice_bounds M lo hi).2] /\
    length (Np.data sub) = length trials * N * (Np.slice_bounds M lo hi).2 /\
    forall c t' n k, ts !! c = Some t' -> n < N ->
      k < (Np.slice_bounds M lo hi).2 ->
      Np.data sub !! ((c * N + n) * (Np.slice_bounds M lo hi).2 + k)
      = Np.data a !! ((t' * N + n) * M + ((Np.slice_bounds M lo hi).1 + k)).
Proof.
  intros Hsh Hlen HF Hts. unfold Np.getitem_list_all_slice. rewrite Hsh.
  rewrite Hts, bind_Ok.
  destruct (Np.slice_bounds M lo hi) as [l w] eqn:Esl. simpl.
  assert (Hlw : l + w <= M).
  { unfold Np.slice_bounds in Esl. injection Esl as <- <-.
    pose proof (clamp_le M lo). pose proof (clamp_le M hi). lia. }
  assert (HtsT : forall t', t' ∈ ts -> t' < T).
  { intros t' Ht'. apply list_elem_of_lookup in Ht' as [c Hc].
    destruct (Forall2_lookup_r _ _ _ _ _ HF Hc) as (t & _ & Hn).
    by apply norm_index_inv in Hn as [? _]. }
  set (ks := ts ≫= _).
  assert (Hks : ks = ts ≫= fun t => seq 0 N ≫= fun n =>
                  (fun m => (t * N + n) * M + m) <$> seq l w).
  { subst ks. f_equal. }
  assert (Hin : forall k', k' ∈ ks -> k' < length (Np.data a)).
  { rewrite Hks. intros k' (t & Hk' & Ht)%list_elem_of_bind.
    apply list_elem_of_bind in Hk' as (n & Hk' & Hn).
    apply list_elem_of_fmap in Hk' as (m & -> & Hm).
    apply HtsT in Ht. apply elem_of_seq in Hn, Hm.
    rewrite Hlen. apply idx3_lt; lia. }
  assert (Hinner : forall t, length (seq 0 N ≫= fun n =>
                  (fun m => (t * N + n) * M + m) <$> seq l w) = N * w).
  { intros t. rewrite (length_bind_const _ _ w), length_seq; [done|].
    intros. by rewrite length_fmap, length_seq. }
  pose proof (Forall2_length _ _ _ HF) as Hlts.
  eexists. split; [reflexivity|]. simpl. rewrite <- Hlts.
  split; [done|]. split.
  - rewrite length_gather by done. rewrite Hks.
    rewrite (length_bind_const _ _ (N * w)); [lia|done].
  - intros c t' n k Hc Hn Hk.
    rewrite (gather_lookup _ _ _ ((t' * N + n) * M + (l + k))); [done|done|].
    rewrite Hks.
    replace ((c * N + n) * w + k) with (c * (N * w) + (n * w + k)) by lia.
    rewrite (lookup_bind_const _ _ (N * w) c (n * w + k) t');
      [|done|done|by apply idx2_lt].
    rewrite (lookup_bind_const _ _ w n k n); [| |by apply lookup_seq_lt|done].
    + by rewrite list_lookup_fmap, lookup_seq_lt.
    + intros. by rewrite length_fmap, length_seq.
Qed.

Lemma norm_index_mod (n : nat) (i : Z) :
  (- Z.of_nat n <= i < Z.of_nat n)%Z ->
  Np.norm_index n i = Ok (Z.to_nat (i mod Z.of_nat n)).
Proof.
  intros Hi. destruct (norm_index_in_range n i Hi) as [k Hk]. rewrite Hk.
  f_equal. apply norm_index_inv in Hk as [Hkn [Hk|[Hk Hneg]]].
  - rewrite Z.mod_small by lia. lia.
  - replace i with (Z.of_nat k + (-1) * Z.of_nat n)%Z by lia.
    rewrite Z.mod_add by lia. rewrite Z.mod_small by lia. lia.
Qed.

Lemma Forall2_norm_index_range (T : nat) :
  Forall2 (fun t t' => Np.norm_index T t = Ok t')
    (range (Z.of_nat T)) (seq 0 T).
Proof.
  unfold range. rewrite Nat2Z.id. apply Forall2_fmap_l, Forall_Forall2_diag.
  apply Forall_forall. intros k Hk%elem_of_seq. apply norm_index_nat. lia.
Qed.

(** ** The raster *)

(** The run of [rasterize] when the requested width [stop - start] is
    the width of the slice. *)
Lemma rasterize_run (self : Spikes) (T N M : nat) (trials : option (list Z))
    (start : Z) (stop : option Z) (ts : list nat) :
  spikes_wf self T N M ->
  Forall2 (fun t t' => Np.norm_index T t = Ok t')
    (or_list trials (range (_T self))) ts ->
  mapM (Np.norm_index T) (or_list trials (range (_T self))) = Ok ts ->
  (or_int stop (_M self) - start
   = Z.of_nat (Np.slice_bounds M start (or_int stop (_M self))).2)%Z ->
  exists m,
    rasterize self trials start stop None = Ok (Some m) /\
    (forall name, rasterize self trials start stop (Some name) = Ok None) /\
    Np.shape m
    = [length (or_list trials (range (_T self))) * N;
       (Np.slice_bounds M start (or_int stop (_M self))).2] /\
    length (Np.data m)
    = length (or_list trials (range (_T self))) * N
      * (Np.slice_bounds M start (or_int stop (_M self))).2 /\
    forall c t' n k, ts !! c = Some t' -> n < N ->
      k < (Np.slice_bounds M start (or_int stop (_M self))).2 ->
      Np.data m !! ((c * N + n)
                    * (Np.slice_bounds M start (or_int stop (_M self))).2 + k)
      = Np.data (_spikes_arr self)
          !! ((t' * N + n) * M
              + ((Np.slice_bounds M start (or_int stop (_M self))).1 + k)).
Proof.
  intros (Hsh & Hwf & HT & HN & HM) HF Hts Hw.
  assert (Hlen : length (Np.data (_spikes_arr self)) = T * N * M).
  { rewrite Hwf, Hsh. simpl. lia. }
  destruct (getitem_list_spec (_spikes_arr self) T N M _ ts start
              (or_int stop (_M self)) Hsh Hlen HF Hts)
    as (sub & Hsub & Hssh & Hslen & Hcells).
  set (sel := or_list trials (range (_T self))) in *.
  set (w := (Np.slice_bounds M start (or_int stop (_M self))).2) in *.
  assert (Hre : Np.reshape sub
                  [(Z.of_nat (length sel) * _N self)%Z;
                   (or_int stop (_M self) - start)%Z]
                = Ok (Np.NDArray [length sel * N; w] (Np.data sub))).
  { rewrite Hw, HN, <- Nat2Z.inj_mul.
    change [Z.of_nat (length sel * N); Z.of_nat w]
      with (Z.of_nat <$> [length sel * N; w]).
    apply reshape_of_nat. rewrite Hslen. simpl. lia. }
  exists (Np.NDArray [length sel * N; w] (Np.data sub)).
  unfold rasterize. fold sel. rewrite Hsub, !bind_Ok, Hre, !bind_Ok.
  split; [done|]. split; [done|]. split; [done|]. split; [done|].
  intros c t' n k Hc Hn Hk. simpl. by apply Hcells.
Qed.

(** X6.  For a time range [0 <= start <= stop <= M] and trial indices in
    [-T .. T-1], [rasterize] returns a matrix with one row per selected
    trial and source, in that order, and one column per time bin of the
    range: row [c * N + n], column [k] is item [(t mod T, n, start + k)]
    of the held tensor, where [t] is the [c]-th selected trial.  With a
    picture name nothing is returned. *)
Theorem rasterize_rows (self : Spikes) (T N M : nat)
    (trials : option (list Z)) (start : Z) (stop : option Z) :
  spikes_wf self T N M ->
  (forall t, t ∈ or_list trials (range (_T self)) ->
     (- Z.of_nat T <= t < Z.of_nat T)%Z) ->
  (0 <= start <= or_int stop (_M self))%Z ->
  (or_int stop (_M self) <= Z.of_nat M)%Z ->
  let sel := or_list trials (range (_T self)) in
  let w := Z.to_nat (or_int stop (_M self) - start) in
  (exists m,
     rasterize self trials start stop None = Ok (Some m) /\
     Np.shape m = [length sel * N; w] /\ Np.wf m /\
     forall c t n k, sel !! c = Some t -> n < N -> k < w ->
       Np.get2 m (c * N + n) k
       = Np.get3 (_spikes_arr self) (Z.to_nat (t mod Z.of_nat T)) n
           (Z.to_nat start + k) /\
       is_Some (Np.get2 m (c * N + n) k)) /\
  forall name, rasterize self trials start stop (Some name) = Ok None.
Proof.
  intros Hwf Hsel Hstart Hstop sel w.
  pose proof Hwf as (Hsh & Hwfa & HT & HN & HM).
  destruct (mapM_norm_index_ok T sel Hsel) as (ts & Hts & HF).
  assert (Hc1 : Np.clamp M start = Z.to_nat start).
  { rewrite <- (clamp_nat M (Z.to_nat start)) by lia. f_equal. lia. }
  assert (Hc2 : Np.clamp M (or_int stop (_M self))
                = Z.to_nat (or_int stop (_M self))).
  { rewrite <- (clamp_nat M (Z.to_nat (or_int stop (_M self)))) by lia.
    f_equal. lia. }
  assert (Hlo : (Np.slice_bounds M start (or_int stop (_M self))).1
                = Z.to_nat start) by done.
  assert (Hw : (Np.slice_bounds M start (or_int stop (_M self))).2 = w).
  { unfold Np.slice_bounds. simpl. rewrite Hc1, Hc2. subst w. lia. }
  destruct (rasterize_run self T N M trials start stop ts Hwf HF Hts)
    as (m & Hrun & Hpng & Hmsh & Hmlen & Hcells).
  { rewrite Hw. subst w. lia. }
  fold sel in Hmsh, Hmlen. rewrite Hw in Hmsh, Hmlen.
  split; [|done]. exists m. split; [done|]. split; [done|].
  split. { red. rewrite Hmlen, Hmsh. simpl. lia. }
  intros c t n k Hc Hn Hk.
  destruct (Forall2_lookup_l _ _ _ _ _ HF Hc) as (t' & Hc' & Ht').
  rewrite norm_index_mod in Ht' by (apply Hsel; by eapply list_elem_of_lookup_2).
  injection Ht' as <-.
  assert (HtT : Z.to_nat (t mod Z.of_nat T) < T).
  { assert (- Z.of_nat T <= t < Z.of_nat T)%Z
      by (apply Hsel; by eapply list_elem_of_lookup_2).
    pose proof (Z.mod_pos_bound t (Z.of_nat T)). lia. }
  assert (HcN : c * N + n < length sel * N).
  { apply idx2_lt; [by eapply lookup_lt_Some|done]. }
  rewrite (get2_lookup m (length sel * N) w) by done.
  rewrite (get3_lookup _ T N M) by (done || lia).
  pose proof (Hcells c _ n k Hc' Hn) as Hcell.
  rewrite Hw, Hlo in Hcell. rewrite Hcell by done.
  split; [done|]. apply lookup_lt_is_Some.
  rewrite Hwfa, Hsh. simpl. rewrite Nat.mul_1_r, Nat.mul_assoc.
  apply idx3_lt; [done|done|lia].
Qed.

Lemma rasterize_rows_witness :
  spikes_wf s223 2 2 3 /\
  exists m,
    rasterize s223 (Some [-1]%Z) 1 (Some 3%Z) None = Ok (Some m) /\
    Np.shape m = [1 * 2; 2] /\
    Np.get2 m (0 * 2 + 1) 1 = Np.get3 (_spikes_arr s223) 1 1 2.
Proof.
  assert (Hwf : spikes_wf s223 2 2 3) by (repeat split).
  assert (Hsel : forall t, t ∈ or_list (Some [-1]%Z) (range (_T s223)) ->
                   (- Z.of_nat 2 <= t < Z.of_nat 2)%Z).
  { simpl. intros t Ht. apply elem_of_cons in Ht as [->|Ht]; [lia|].
    by apply elem_of_nil in Ht. }
  assert (H1 : (0 <= 1 <= or_int (Some 3) (_M s223))%Z) by (simpl; lia).
  assert (H2 : (or_int (Some 3) (_M s223) <= Z.of_nat 3)%Z) by (simpl; lia).
  split; [exact Hwf|].
  destruct (rasterize_rows s223 2 2 3 (Some [-1]%Z) 1 (Some 3%Z)
              Hwf Hsel H1 H2) as [(m & Hrun & Hsh & _ & Hcells) _].
  exists m. split; [exact Hrun|]. split; [exact Hsh|].
  apply (Hcells 0 (-1)%Z 1 1); [reflexivity|lia|simpl; lia].
Defined.

(** The requested width [stop - start] is not clamped, the slice is:
    when they differ the reshape fails. *)
Lemma rasterize_width_mismatch (self : Spikes) (T N M : nat)
    (trials : option (list Z)) (start : Z) (stop : option Z)
    (save_png_name : option string) :
  spikes_wf self T N M -> 1 <= T -> 1 <= N ->
  (forall t, t ∈ or_list trials (range (_T self)) ->
     (- Z.of_nat T <= t < Z.of_nat T)%Z) ->
  (Z.of_nat (Np.slice_bounds M start (or_int stop (_M self))).2
   < or_int stop (_M self) - start)%Z ->
  rasterize self trials start stop save_png_name = Raise ValueError.
Proof.
  intros (Hsh & Hwf & HT & HN & HM) HT1 HN1 Hsel Hw.
  assert (Hlen : length (Np.data (_spikes_arr self)) = T * N * M).
  { rewrite Hwf, Hsh. simpl. lia. }
  destruct (mapM_norm_index_ok T _ Hsel) as (ts & Hts & HF).
  destruct (getitem_list_spec (_spikes_arr self) T N M _ ts start
              (or_int stop (_M self)) Hsh Hlen HF Hts)
    as (sub & Hsub & Hssh & Hslen & _).
  assert (Hne : 1 <= length (or_list trials (range (_T self)))).
  { assert (1 <= length (range (_T self))).
    { rewrite length_range. lia. }
    destruct trials as [[|t l]|]; simpl; lia. }
  unfold rasterize. rewrite Hsub, bind_Ok.
  set (sel := or_list trials (range (_T self))) in *.
  set (w := (Np.slice_bounds M start (or_int stop (_M self))).2) in *.
  rewrite reshape_mismatch; [done| |].
  - cbn [forallb]. rewrite andb_true_r. apply andb_true_intro.
    split; apply Z.leb_le; lia.
  - rewrite Hslen, HN. simpl.
    rewrite Z2Nat.inj_mul, !Nat2Z.id by lia. nia.
Qed.

(** X7.  How [rasterize] fails on a tensor with at least one trial and
    one source, whether or not a picture is asked for: a trial index
    outside [-T .. T-1] raises [IndexError]; a stop beyond the last bin
    and beyond the start, or a negative start with a stop that is not
    negative, raises [ValueError], because the slice is clamped to the
    tensor while the requested width [stop - start] is not. *)
Theorem rasterize_errors (self : Spikes) (T N M : nat)
    (trials : option (list Z)) (start : Z) (stop : option Z)
    (save_png_name : option string) :
  spikes_wf self T N M ->
  ((exists t, t ∈ or_list trials (range (_T self)) /\
      (t < - Z.of_nat T \/ Z.of_nat T <= t)%Z) ->
   rasterize self trials start stop save_png_name = Raise IndexError) /\
  (1 <= T -> 1 <= N ->
   (forall t, t ∈ or_list trials (range (_T self)) ->
      (- Z.of_nat T <= t < Z.of_nat T)%Z) ->
   ((0 <= start < or_int stop (_M self))%Z /\
    (Z.of_nat M < or_int stop (_M self))%Z) \/
   (start < 0 <= or_int stop (_M self))%Z ->
   rasterize self trials start stop save_png_name = Raise ValueError).
Proof.
  intros Hwf. pose proof Hwf as (Hsh & Hwfa & HT & HN & HM). split.
  - intros Hbad. unfold rasterize, Np.getitem_list_all_slice.
    rewrite Hsh, (mapM_norm_index_raise T) by done. done.
  - intros HT1 HN1 Hsel Hcase.
    apply (rasterize_width_mismatch self T N M); try done.
    unfold Np.slice_bounds, Np.clamp. simpl.
    destruct (Z.ltb_spec start 0), (Z.ltb_spec (or_int stop (_M self)) 0);
      lia.
Qed.

Lemma rasterize_errors_witness :
  spikes_wf s223 2 2 3 /\
  rasterize s223 (Some [2%Z]) 0 None None = Raise IndexError /\
  rasterize s223 None 0 (Some 4%Z) None = Raise ValueError /\
  rasterize s223 None (-1) None None = Raise ValueError.
Proof.
  assert (Hwf : spikes_wf s223 2 2 3) by (repeat split).
  assert (Hsel : forall t, t ∈ or_list None (range (_T s223)) ->
                   (- Z.of_nat 2 <= t < Z.of_nat 2)%Z).
  { simpl. intros t Ht.
    repeat (apply elem_of_cons in Ht as [->|Ht]; [lia|]).
    by apply elem_of_nil in Ht. }
  split; [exact Hwf|]. split; [|split].
  - apply (proj1 (rasterize_errors s223 2 2 3 (Some [2%Z]) 0 None None Hwf)).
    exists 2%Z. split; [left|simpl; lia].
  - apply (proj2 (rasterize_errors s223 2 2 3 None 0 (Some 4%Z) None Hwf));
      [lia|lia|exact Hsel|simpl; lia].
  - apply (proj2 (rasterize_errors s223 2 2 3 None (-1) None None Hwf));
      [lia|lia|exact Hsel|simpl; lia].
Defined.

(** X8.  Called without arguments, [rasterize] returns the held buffer
    unchanged, laid out as [T * N] rows of [M] bins; [stop=0] is taken
    for no stop at all and gives the same matrix, not an empty one. *)
Theorem rasterize_default (self : Spikes) (T N M : nat) :
  spikes_wf self T N M ->
  rasterize self None 0 None None
  = Ok (Some (Np.NDArray [T * N; M] (Np.data (_spikes_arr self)))) /\
  rasterize self None 0 (Some 0%Z) None = rasterize self None 0 None None.
Proof.
  intros Hwf. split; [|done].
  pose proof Hwf as (Hsh & Hwfa & HT & HN & HM).
  assert (Hlen : length (Np.data (_spikes_arr self)) = T * N * M).
  { rewrite Hwfa, Hsh. simpl. lia. }
  assert (Hb : Np.slice_bounds M 0 (or_int None (_M self)) = (0, M)).
  { simpl. rewrite HM. unfold Np.slice_bounds.
    rewrite (clamp_nat M M) by lia.
    replace (Np.clamp M 0) with 0 by (unfold Np.clamp; simpl; lia).
    f_equal. lia. }
  destruct (rasterize_run self T N M None 0 None (seq 0 T) Hwf)
    as (m & Hrun & _ & Hmsh & Hmlen & Hcells).
  { simpl. rewrite HT. apply Forall2_norm_index_range. }
  { simpl. rewrite HT. unfold range. rewrite Nat2Z.id.
    apply mapM_norm_index_nat. intros k Hk%elem_of_seq. lia. }
  { rewrite Hb. simpl. lia. }
  rewrite Hrun. do 2 f_equal.
  rewrite Hb in Hmsh, Hmlen, Hcells. simpl in Hmsh, Hmlen, Hcells.
  rewrite HT, length_range, Nat2Z.id in Hmsh, Hmlen.
  destruct m as [msh mdat]. simpl in *. subst msh. f_equal.
  apply list_eq_same_length with (T * N * M); [done|done|].
  intros i x y Hi Hx Hy.
  destruct (idx3_decomp T N M i Hi) as (c & n & k & Hc & Hn & Hk & ->).
  rewrite (Hcells c c n k) in Hx by (done || by apply lookup_seq_lt).
  congruence.
Qed.

Lemma rasterize_default_witness :
  spikes_wf s223 2 2 3 /\
  rasterize s223 None 0 None None
  = Ok (Some (Np.NDArray [2 * 2; 3] (Np.data (_spikes_arr s223)))).
Proof.
  assert (Hwf : spikes_wf s223 2 2 3) by (repeat split).
  split; [exact Hwf|]. exact (proj1 (rasterize_default s223 2 2 3 Hwf)).
Defined.

(** The width [stop - start = -1] is the placeholder of [reshape]: with
    [start = 0] and [stop = -1] the raster comes back without its last
    bin. *)
Lemma rasterize_placeholder_width :
  rasterize s223 None 0 (Some (-1)%Z) None
  = Ok (Some (Np.NDArray [4; 2] [1; 0;  0; 1;  1; 1;  1; 1]%Q)).
Proof. reflexivity. Qed.

(** ** Selecting sources *)

Lemma elem_of_gather {A} (ks : list nat) (buf : list A) (x : A) :
  x ∈ Np.gather ks buf -> x ∈ buf.
Proof.
  unfold Np.gather. intros (k & _ & Hk)%list_elem_of_omap.
  by eapply list_elem_of_lookup_2.
Qed.

(** [a[:, sel, :]] for positions within range. *)
Lemma getitem_sel_spec {A} (a : Np.ndarray A) (T N M : nat) (sel : list nat) :
  Np.shape a = [T; N; M] -> length (Np.data a) = T * N * M ->
  (forall n, n ∈ sel -> n < N) ->
  exists arr,
    Np.getitem_all_list_all a sel = Ok arr /\
    Np.shape arr = [T; length sel; M] /\
    length (Np.data arr) = T * length sel * M /\
    (forall t i n m, t < T -> sel !! i = Some n -> m < M ->
       Np.data arr !! ((t * length sel + i) * M + m)
       = Np.data a !! ((t * N + n) * M + m)) /\
    (forall x, x ∈ Np.data arr -> x ∈ Np.data a).
Proof.
  intros Hsh Hlen Hsel. unfold Np.getitem_all_list_all. rewrite Hsh.
  set (ks := seq 0 T ≫= _).
  assert (Hks : ks = seq 0 T ≫= fun t => sel ≫= fun n =>
                  (fun m => (t * N + n) * M + m) <$> seq 0 M).
  { subst ks. f_equal. }
  assert (Hin : forall k', k' ∈ ks -> k' < length (Np.data a)).
  { rewrite Hks. intros k' (t & Hk' & Ht)%list_elem_of_bind.
    apply list_elem_of_bind in Hk' as (n & Hk' & Hn).
    apply list_elem_of_fmap in Hk' as (m & -> & Hm).
    apply Hsel in Hn. apply elem_of_seq in Ht, Hm.
    rewrite Hlen. apply idx3_lt; lia. }
  assert (Hinner : forall t, length (sel ≫= fun n =>
                  (fun m => (t * N + n) * M + m) <$> seq 0 M)
                  = length sel * M).
  { intros t. rewrite (length_bind_const _ _ M); [done|].
    intros. by rewrite length_fmap, length_seq. }
  eexists. split; [reflexivity|]. simpl. split; [done|]. split; [|split].
  - rewrite length_gather by done. rewrite Hks.
    rewrite (length_bind_const _ _ (length sel * M)), length_seq; [lia|done].
  - intros t i n m Ht Hi Hm.
    rewrite (gather_lookup _ _ _ ((t * N + n) * M + m)); [done|done|].
    rewrite Hks.
    replace ((t * length sel + i) * M + m)
      with (t * (length sel * M) + (i * M + m)) by lia.
    rewrite (lookup_bind_const _ _ (length sel * M) t (i * M + m) t);
      [|done|by apply lookup_seq_lt|].
    2:{ apply idx2_lt; [by eapply lookup_lt_Some|done]. }
    rewrite (lookup_bind_const _ _ M i m n); [| |done|done].
    + by rewrite list_lookup_fmap, lookup_seq_lt.
    + intros. by rewrite length_fmap, length_seq.
  - intros x. apply elem_of_gather.
Qed.

Lemma clamp_neg (n k : nat) : 1 <= k -> Np.clamp n (- Z.of_nat k) = n - k.
Proof.
  intros Hk. unfold Np.clamp.
  destruct (Z.ltb_spec (- Z.of_nat k) 0); lia.
Qed.

(** X9.  Keeping the [K] most active of [N] sources, [1 <= K <= N], with
    any [argsort] that returns a sorting permutation: [idx] holds [K]
    distinct source positions, no source left out is more active than a
    source kept, [mean_activities] lists the kept sources' activities in
    non-decreasing order, and the new tensor is [T x K x M] with source
    [i] the old source [idx[i]]; the stored dimensions follow, and a
    binary tensor stays binary. *)
Theorem restrict_top_neurons (argsort : list Q -> list nat)
    (self : Spikes) (T N M K : nat) :
  argsort_spec argsort ->
  spikes_wf self T N M -> 1 <= T -> 1 <= M -> 1 <= K <= N ->
  exists s' sel ma activity,
    restrict_to_most_active_neurons argsort self (Some (Z.of_nat K)) = Ok s' /\
    idx s' = Some sel /\ mean_activities s' = Some ma /\
    Np.mean_axis0_mean_axis1 (_spikes_arr self) = Ok activity /\
    length sel = K /\ NoDup sel /\ (forall n, n ∈ sel -> n < N) /\
    (forall n n' x y, n ∈ sel -> n' < N -> n' ∉ sel ->
       activity !! n = Some x -> activity !! n' = Some y -> (y <= x)%Q) /\
    length ma = K /\
    (forall i n, sel !! i = Some n -> ma !! i = activity !! n) /\
    (forall i j x y, i <= j -> ma !! i = Some x -> ma !! j = Some y ->
       (x <= y)%Q) /\
    spikes_wf s' T K M /\
    (forall t i n m, t < T -> sel !! i = Some n -> m < M ->
       Np.get3 (_spikes_arr s') t i m = Np.get3 (_spikes_arr self) t n m) /\
    (binary (_spikes_arr self) -> binary (_spikes_arr s')).
Proof.
  intros Hsort (Hsh & Hwf & HT & HN & HM) HT1 HM1 HK.
  assert (Hlen : length (Np.data (_spikes_arr self)) = T * N * M).
  { rewrite Hwf, Hsh. simpl. lia. }
  destruct (mean_axes_length _ T N M Hsh HT1 HM1) as (activity & Hact & Hlact).
  destruct (Hsort activity) as [Hperm Hsorted]. rewrite Hlact in Hperm.
  set (ix := argsort activity) in *.
  assert (Hlix : length ix = N).
  { by rewrite (Permutation_length Hperm), length_seq. }
  assert (Hor : or_int (Some (Z.of_nat K)) (_N self) = Z.of_nat K).
  { simpl. destruct (Z.eqb_spec (Z.of_nat K) 0); [lia|done]. }
  assert (Hsl : Np.slice_from ix (- Z.of_nat K) = drop (N - K) ix).
  { unfold Np.slice_from. by rewrite Hlix, clamp_neg by lia. }
  set (sel := drop (N - K) ix).
  assert (Hlsel : length sel = K).
  { subst sel. rewrite length_drop. lia. }
  assert (Hix : forall n, n ∈ ix <-> n < N).
  { intros n. rewrite Hperm, elem_of_seq. lia. }
  assert (Hsub : forall n, n ∈ sel -> n ∈ ix).
  { intros n Hn. rewrite <- (take_drop (N - K) ix). apply elem_of_app. by right. }
  assert (HselN : forall n, n ∈ sel -> n < N).
  { intros n Hn. by apply Hix, Hsub. }
  assert (Hnd : NoDup ix). { rewrite Hperm. apply NoDup_seq. }
  destruct (getitem_sel_spec (_spikes_arr self) T N M sel Hsh Hlen HselN)
    as (arr & Harr & Hash & Halen & Hcells & Helems).
  rewrite Hlsel in Hash, Halen, Hcells.
  assert (Hbound : forall k, k ∈ sel -> k < length activity).
  { intros k Hk. rewrite Hlact. by apply HselN. }
  unfold restrict_to_most_active_neurons.
  rewrite Hact, bind_Ok, Hor. fold ix. rewrite Hsl. fold sel.
  rewrite Harr, bind_Ok.
  eexists _, sel, _, activity. split; [reflexivity|]. simpl.
  split; [done|]. split; [done|]. split; [done|]. split; [done|].
  split. { subst sel. rewrite <- (take_drop (N - K) ix) in Hnd.
           by apply NoDup_app in Hnd as (_ & _ & ?). }
  split; [done|]. split.
  { intros n n' x y Hn Hn' Hnot Hx Hy.
    apply list_elem_of_lookup in Hn as [i Hi]. subst sel.
    rewrite lookup_drop in Hi.
    assert (Hn'ix : n' ∈ take (N - K) ix).
    { apply Hix in Hn'. rewrite <- (take_drop (N - K) ix) in Hn'.
      apply elem_of_app in Hn' as [?|?]; done. }
    apply list_elem_of_lookup in Hn'ix as [j Hj].
    assert (j < N - K).
    { apply lookup_lt_Some in Hj. rewrite length_take in Hj. lia. }
    rewrite lookup_take_lt in Hj by done.
    apply (Hsorted j (N - K + i) n' n); [lia|done|done|done|done]. }
  split. { rewrite length_gather by done. done. }
  split. { intros i n Hi. by apply gather_lookup. }
  split.
  { intros i j x y Hij Hx Hy.
    destruct (lookup_lt_is_Some_2 sel i) as [a Ha].
    { apply lookup_lt_Some in Hx. by rewrite length_gather in Hx. }
    destruct (lookup_lt_is_Some_2 sel j) as [b Hb].
    { apply lookup_lt_Some in Hy. by rewrite length_gather in Hy. }
    rewrite (gather_lookup _ _ i a) in Hx by done.
    rewrite (gather_lookup _ _ j b) in Hy by done.
    subst sel. rewrite lookup_drop in Ha, Hb.
    apply (Hsorted (N - K + i) (N - K + j) a b); [lia|done..]. }
  split.
  { split; [done|]. split; [|done].
    unfold Np.wf. simpl. rewrite Halen, Hash. simpl. lia. }
  split.
  { intros t i n m Ht Hi Hm.
    assert (i < K). { rewrite <- Hlsel. by eapply lookup_lt_Some. }
    rewrite (get3_lookup arr T K M) by done.
    rewrite (get3_lookup _ T N M) by (done || apply HselN; by eapply list_elem_of_lookup_2).
    by apply Hcells. }
  intros Hbin x Hx. by apply Hbin, Helems.
Qed.

Lemma restrict_top_neurons_witness :
  argsort_spec insertion_argsort /\ spikes_wf s232 2 3 2 /\
  exists s' sel,
    restrict_to_most_active_neurons insertion_argsort s232 (Some 2%Z) = Ok s' /\
    idx s' = Some sel /\ length sel = 2 /\ spikes_wf s' 2 2 2.
Proof.
  assert (H1 : spikes_wf s232 2 3 2) by (repeat split).
  assert (H2 : 1 <= 2) by lia.
  assert (H3 : 1 <= 2 <= 3) by lia.
  split; [exact insertion_argsort_spec|]. split; [exact H1|].
  destruct (restrict_top_neurons insertion_argsort s232 2 3 2 2
              insertion_argsort_spec H1 H2 H2 H3)
    as (s' & sel & ma & activity & Hrun & Hidx & _ & _ & Hl & _ & _ & _ & _
        & _ & _ & Hwf & _).
  exists s', sel. split; [exact Hrun|]. split; [exact Hidx|].
  split; [exact Hl|exact Hwf].
Defined.

(** X10.  A target count larger than the number of sources is not
    rejected: every source is kept, but the stored source count becomes
    the target count and no longer matches the held tensor, and a
    following [rasterize] fails with [ValueError]. *)
Theorem restrict_oversized_count (argsort : list Q -> list nat)
    (self : Spikes) (T N M K : nat) :
  argsort_spec argsort ->
  spikes_wf self T N M -> 1 <= T -> 1 <= M -> N < K ->
  exists s' sel,
    restrict_to_most_active_neurons argsort self (Some (Z.of_nat K)) = Ok s' /\
    idx s' = Some sel /\ sel ≡ₚ seq 0 N /\
    Np.shape (_spikes_arr s') = [T; N; M] /\ _N s' = Z.of_nat K /\
    (forall T' N' M', ~ spikes_wf s' T' N' M') /\
    forall save_png_name,
      rasterize s' None 0 None save_png_name = Raise ValueError.
Proof.
  intros Hsort (Hsh & Hwf & HT & HN & HM) HT1 HM1 HK.
  assert (Hlen : length (Np.data (_spikes_arr self)) = T * N * M).
  { rewrite Hwf, Hsh. simpl. lia. }
  destruct (mean_axes_length _ T N M Hsh HT1 HM1) as (activity & Hact & Hlact).
  destruct (Hsort activity) as [Hperm _]. rewrite Hlact in Hperm.
  set (ix := argsort activity) in *.
  assert (Hlix : length ix = N).
  { by rewrite (Permutation_length Hperm), length_seq. }
  assert (Hor : or_int (Some (Z.of_nat K)) (_N self) = Z.of_nat K).
  { simpl. destruct (Z.eqb_spec (Z.of_nat K) 0); [lia|done]. }
  assert (Hsl : Np.slice_from ix (- Z.of_nat K) = ix).
  { unfold Np.slice_from. rewrite Hlix, clamp_neg by lia.
    by replace (N - K) with 0 by lia. }
  assert (HixN : forall n, n ∈ ix -> n < N).
  { intros n. rewrite Hperm, elem_of_seq. lia. }
  destruct (getitem_sel_spec (_spikes_arr self) T N M ix Hsh Hlen HixN)
    as (arr & Harr & Hash & Halen & _).
  rewrite Hlix in Hash, Halen.
  unfold restrict_to_most_active_neurons.
  rewrite Hact, bind_Ok, Hor. fold ix. rewrite Hsl, Harr, bind_Ok.
  eexists _, ix. split; [reflexivity|]. simpl.
  split; [done|]. split; [done|]. split; [done|]. split; [done|]. split.
  { intros T' N' M' (Hsh' & _ & _ & HN' & _). simpl in Hsh', HN'.
    rewrite Hash in Hsh'. injection Hsh' as _ <- _. lia. }
  intros png. unfold rasterize.
  cbn [or_int or_list _spikes_arr _T _N _M]. rewrite HT, HM.
  destruct (getitem_list_spec arr T N M (range (Z.of_nat T)) (seq 0 T) 0
              (Z.of_nat M) Hash Halen (Forall2_norm_index_range T))
    as (sub & Hsub & Hssh & Hslen & _).
  { unfold range. rewrite Nat2Z.id. apply mapM_norm_index_nat.
    intros k Hk%elem_of_seq. lia. }
  rewrite Hsub, bind_Ok.
  assert (Hb : (Np.slice_bounds M 0 (Z.of_nat M)).2 = M).
  { unfold Np.slice_bounds. simpl. rewrite (clamp_nat M M) by lia.
    replace (Np.clamp M 0) with 0 by (unfold Np.clamp; simpl; lia). lia. }
  rewrite Hb, length_range, Nat2Z.id in Hslen.
  rewrite reshape_mismatch; [done| |].
  - cbn [forallb]. rewrite andb_true_r. apply andb_true_intro.
    split; apply Z.leb_le; lia.
  - rewrite Hslen, length_range. simpl.
    rewrite Z2Nat.inj_mul, !Nat2Z.id by lia.
    replace (Z.to_nat (Z.of_nat M - 0)) with M by lia.
    rewrite Nat.mul_1_r. intros E.
    apply Nat.mul_cancel_r in E; [|lia]. apply Nat.mul_cancel_l in E; lia.
Qed.

Lemma restrict_oversized_count_witness :
  argsort_spec insertion_argsort /\ spikes_wf s232 2 3 2 /\
  exists s',
    restrict_to_most_active_neurons insertion_argsort s232 (Some 5%Z) = Ok s' /\
    Np.shape (_spikes_arr s') = [2; 3; 2] /\ _N s' = 5%Z /\
    rasterize s' None 0 None None = Raise ValueError.
Proof.
  assert (H1 : spikes_wf s232 2 3 2) by (repeat split).
  assert (H2 : 1 <= 2) by lia.
  assert (H3 : 3 < 5) by lia.
  split; [exact insertion_argsort_spec|]. split; [exact H1|].
  destruct (restrict_oversized_count insertion_argsort s232 2 3 2 5
              insertion_argsort_spec H1 H2 H2 H3)
    as (s' & sel & Hrun & _ & _ & Hsh & HN & _ & Hr).
  exists s'. split; [exact Hrun|]. split; [exact Hsh|]. split; [exact HN|].
  apply Hr.
Defined.

(** ** More on the covariance *)

Lemma fmax_either (a b : Np.npfloat) : Np.fmax a b = a \/ Np.fmax a b = b.
Proof.
  destruct a, b; simpl; auto. destruct (Qle_bool q q0); auto.
Qed.

Lemma foldl_fmax_elem (xs : list Np.npfloat) (x : Np.npfloat) :
  foldl Np.fmax x xs ∈ x :: xs.
Proof.
  revert x. induction xs as [|y ys IH]; intros x; simpl; [left|].
  specialize (IH (Np.fmax x y)).
  apply elem_of_cons in IH as [E|IH].
  - rewrite E. destruct (fmax_either x y) as [-> | ->]; [left|right; left].
  - right. by right.
Qed.

Lemma amax_attained (A : Np.ndarray Np.npfloat) (mx : Np.npfloat) :
  Np.amax A = Ok mx -> exists k, Np.data A !! k = Some mx.
Proof.
  unfold Np.amax. destruct (Np.data A) as [|x xs]; [done|].
  intros [= <-]. apply list_elem_of_lookup, foldl_fmax_elem.
Qed.

Lemma amax_nonempty (A : Np.ndarray Np.npfloat) :
  Np.data A ≠ [] -> exists mx, Np.amax A = Ok mx.
Proof. unfold Np.amax. destruct (Np.data A); [done|]. by eexists. Qed.

(** The whole call with the default selection. *)
Lemma covariance_default_run (self : Spikes) (T N M : nat) (start : Z)
    (stop : option Z) :
  spikes_wf self T N M ->
  exists R,
    covariance_raw self None start stop = Ok R /\
    Np.shape R = [T; N; N] /\ length (Np.data R) = T * N * N /\
    (forall t i j, t < T -> i < N -> j < N ->
       Np.data R !! ((t * N + i) * N + j)
       = Some (trial_covariance (_spikes_arr self) t
                 (Np.slice_bounds M start (or_int stop (Z.of_nat M))).1
                 (Np.slice_bounds M start (or_int stop (Z.of_nat M))).2 i j)) /\
    (forall mx, Np.amax R = Ok mx ->
       covariance self None start stop None
       = Ok (Some (Np.map (fun x => Np.fdiv x mx) R))).
Proof.
  intros Hwf. pose proof Hwf as (Hsh & _ & HT & HN & _).
  destruct (covariance_default_trials self T N M start stop Hwf)
    as (R & HR & HshR & Hcells).
  destruct (covariance_raw_blocks self T N M None start stop R Hsh HN HR)
    as (_ & HlenR & _).
  simpl in HlenR. rewrite HT, length_range, Nat2Z.id in HlenR.
  exists R. split; [done|]. split; [done|]. split; [done|]. split.
  - intros t i j Ht Hi Hj. rewrite <- (get3_lookup R T N N) by done.
    by apply Hcells.
  - intros mx Hmx. unfold covariance. by rewrite HR, bind_Ok, Hmx, bind_Ok.
Qed.

(** X12.  On a tensor without trials or without sources the per-trial
    array is empty and has no maximum: [covariance] raises [ValueError],
    whether or not a picture is asked for. *)
Theorem covariance_empty_raises (self : Spikes) (T N M : nat) (start : Z)
    (stop : option Z) (save_png_name : option string) :
  spikes_wf self T N M -> T = 0 \/ N = 0 ->
  covariance self None start stop save_png_name = Raise ValueError.
Proof.
  intros Hwf Hempty.
  destruct (covariance_default_run self T N M start stop Hwf)
    as (R & HR & HshR & HlenR & _).
  assert (E : Np.data R = []).
  { apply nil_length_inv. rewrite HlenR. destruct Hempty; subst; lia. }
  unfold covariance. rewrite HR, bind_Ok. unfold Np.amax. by rewrite E.
Qed.

Lemma covariance_empty_raises_witness :
  spikes_wf (MkSpikes (Np.NDArray [0; 2; 3] []) 0 2 3 None None) 0 2 3 /\
  covariance (MkSpikes (Np.NDArray [0; 2; 3] []) 0 2 3 None None)
    None 0 None None = Raise ValueError.
Proof.
  assert (H1 : spikes_wf (MkSpikes (Np.NDArray [0; 2; 3] []) 0 2 3 None None)
                 0 2 3) by (repeat split).
  split; [exact H1|].
  apply (covariance_empty_raises _ 0 2 3 0 None None H1). left. reflexivity.
Defined.

(** X13.  Over a time range of fewer than two bins no covariance is
    defined: with the default selection every entry of the returned
    array is [nan]. *)
Theorem covariance_short_range_nan (self : Spikes) (T N M : nat) (start : Z)
    (stop : option Z) :
  spikes_wf self T N M -> 1 <= T -> 1 <= N ->
  (Np.slice_bounds M start (or_int stop (Z.of_nat M))).2 <= 1 ->
  exists C,
    covariance self None start stop None = Ok (Some C) /\
    Np.shape C = [T; N; N] /\
    forall t i j, t < T -> i < N -> j < N -> Np.get3 C t i j = Some Np.NaN.
Proof.
  intros Hwf HT1 HN1 Hw.
  destruct (covariance_default_run self T N M start stop Hwf)
    as (R & HR & HshR & HlenR & Hcells & Hrun).
  assert (Hnan : forall t i j, t < T -> i < N -> j < N ->
            Np.data R !! ((t * N + i) * N + j) = Some Np.NaN).
  { intros t i j Ht Hi Hj. rewrite Hcells by done.
    unfold trial_covariance. by rewrite cov_entry_nan. }
  destruct (amax_nonempty R) as [mx Hmx].
  { intros E. rewrite E in HlenR. simpl in HlenR. nia. }
  assert (Hmxnan : mx = Np.NaN).
  { destruct (amax_attained R mx Hmx) as [k Hk].
    destruct (idx3_decomp T N N k) as (t & i & j & Ht & Hi & Hj & ->).
    { rewrite <- HlenR. by eapply lookup_lt_Some. }
    rewrite Hnan in Hk by done. congruence. }
  subst mx.
  exists (Np.map (fun x => Np.fdiv x Np.NaN) R).
  split; [by apply Hrun|]. split; [done|].
  intros t i j Ht Hi Hj.
  rewrite get3_map, (get3_lookup R T N N) by done.
  by rewrite Hnan.
Qed.

Lemma covariance_short_range_nan_witness :
  spikes_wf s111 1 1 1 /\
  exists C,
    covariance s111 None 0 None None = Ok (Some C) /\
    Np.get3 C 0 0 0 = Some Np.NaN.
Proof.
  assert (H1 : spikes_wf s111 1 1 1) by (repeat split).
  assert (H2 : 1 <= 1) by lia.
  assert (H3 : (Np.slice_bounds 1 0 (or_int None (Z.of_nat 1))).2 <= 1)
    by (vm_compute; lia).
  split; [exact H1|].
  destruct (covariance_short_range_nan s111 1 1 1 0 None H1 H2 H2 H3)
    as (C & Hrun & _ & Hcells).
  exists C. split; [exact Hrun|]. apply (Hcells 0 0 0); lia.
Defined.

(** X14.  The normalisation is tight: whenever the per-trial matrices
    are computed and their global maximum is a nonzero number, some
    entry of the returned array equals [1]. *)
Theorem covariance_maximum_is_one (self : Spikes) (T N M : nat)
    (trials : option (list Z)) (start : Z) (stop : option Z)
    (R : Np.ndarray Np.npfloat) (g : Q) :
  spikes_wf self T N M ->
  covariance_raw self trials start stop = Ok R ->
  Np.amax R = Ok (Np.Fin g) ->
  ~ (g == 0)%Q ->
  exists C t i j x,
    covariance self trials start stop None = Ok (Some C) /\
    t < length (or_list trials (range (_T self))) /\ i < N /\ j < N /\
    Np.get3 C t i j = Some (Np.Fin x) /\ (x == 1)%Q.
Proof.
  intros Hwf Hraw Hmax Hg.
  pose proof Hwf as (Hsh & _ & _ & HN & _).
  destruct (covariance_entries self T N M trials start stop R g Hwf Hraw Hmax)
    as (Hrun & HshR & _ & _).
  destruct (covariance_raw_blocks self T N M trials start stop R Hsh HN Hraw)
    as (_ & HlenR & _).
  destruct (amax_attained R _ Hmax) as [k Hk].
  destruct (idx3_decomp (length (or_list trials (range (_T self)))) N N k)
    as (t & i & j & Ht & Hi & Hj & ->).
  { rewrite <- HlenR. by eapply lookup_lt_Some. }
  assert (Hgb : Qeq_bool g 0 = false).
  { apply not_true_is_false. rewrite Qeq_bool_iff. done. }
  exists (Np.map (fun x => Np.fdiv x (Np.Fin g)) R), t, i, j, (g / g)%Q.
  split; [done|]. split; [done|]. split; [done|]. split; [done|]. split.
  - rewrite get3_map, (get3_lookup R _ N N) by done.
    rewrite Hk. simpl. by rewrite Hgb.
  - by apply Qmult_inv_r.
Qed.

Lemma covariance_maximum_is_one_witness :
  spikes_wf s223 2 2 3 /\
  covariance_raw s223 None 0 None = Ok raw223 /\
  Np.amax raw223 = Ok (Np.Fin max223) /\
  ~ (max223 == 0)%Q /\
  exists C t i j x,
    covariance s223 None 0 None None = Ok (Some C) /\
    Np.get3 C t i j = Some (Np.Fin x) /\ (x == 1)%Q.
Proof.
  assert (H1 : spikes_wf s223 2 2 3) by (repeat split).
  assert (H2 : covariance_raw s223 None 0 None = Ok raw223)
    by (vm_compute; reflexivity).
  assert (H3 : Np.amax raw223 = Ok (Np.Fin max223)) by (vm_compute; reflexivity).
  assert (H4 : ~ (max223 == 0)%Q) by (vm_compute; discriminate).
  split; [exact H1|]. split; [exact H2|]. split; [exact H3|]. split; [exact H4|].
  destruct (covariance_maximum_is_one s223 2 2 3 None 0 None raw223 max223
              H1 H2 H3 H4) as (C & t & i & j & x & Hrun & _ & _ & _ & Hx & Hx1).
  exists C, t, i, j, x. split; [exact Hrun|]. split; [exact Hx|exact Hx1].
Defined.

Lemma for_each_raise_inv {St A} (I : St -> Prop) (xs : list A)
    (body : A -> St -> result St) (bad : A -> Prop) (e : exn) (s : St) :
  I s ->
  (forall x s', x ∈ xs -> I s' -> bad x -> body x s' = Raise e) ->
  (forall x s', x ∈ xs -> I s' -> ~ bad x ->
     exists s'', body x s' = Ok s'' /\ I s'') ->
  (forall x, x ∈ xs -> bad x \/ ~ bad x) ->
  (exists x, x ∈ xs /\ bad x) ->
  for_each xs body s = Raise e.
Proof.
  intros HI Hbad Hgood Hdec. revert s HI.
  induction xs as [|x xs IH]; intros s HI (y & Hy & Hby).
  - by apply elem_of_nil in Hy.
  - simpl. destruct (Hdec x) as [Hx|Hx]; [left| |].
    + rewrite Hbad; [done|left|done|done].
    + destruct (Hgood x s) as (s'' & -> & HI''); [left|done|done|].
      rewrite bind_Ok. apply IH.
      * intros. apply Hbad; [by right|done|done].
      * intros. apply Hgood; [by right|done|done].
      * intros. apply Hdec. by right.
      * done.
      * apply elem_of_cons in Hy as [->|Hy]; [done|]. eauto.
Qed.

(** X15.  With an explicit selection, the loop reads the sub-array at
    the trial's number, not at its position: as soon as the selection
    names a trial whose number is not a valid index into the selection
    itself (it is at least the number of selected trials, or below its
    negative), [covariance] raises [IndexError]. *)
Theorem covariance_selection_raises (self : Spikes) (T N M : nat)
    (trials : option (list Z)) (start : Z) (stop : option Z)
    (save_png_name : option string) :
  spikes_wf self T N M ->
  (forall t, t ∈ or_list trials (range (_T self)) ->
     (- Z.of_nat T <= t < Z.of_nat T)%Z) ->
  (exists t, t ∈ or_list trials (range (_T self)) /\
     (t < - Z.of_nat (length (or_list trials (range (_T self)))) \/
      Z.of_nat (length (or_list trials (range (_T self)))) <= t)%Z) ->
  covariance self trials start stop save_png_name = Raise IndexError.
Proof.
  intros (Hsh & Hwf & HT & HN & HM) Hsel Hbad.
  assert (Hlen : length (Np.data (_spikes_arr self)) = T * N * M).
  { rewrite Hwf, Hsh. simpl. lia. }
  destruct (mapM_norm_index_ok T _ Hsel) as (ts & Hts & HF).
  destruct (getitem_list_spec (_spikes_arr self) T N M _ ts start
              (or_int stop (_M self)) Hsh Hlen HF Hts)
    as (sub & Hsub & Hssh & Hslen & _).
  set (sel := or_list trials (range (_T self))) in *.
  set (w := (Np.slice_bounds M start (or_int stop (_M self))).2) in *.
  unfold covariance, covariance_raw. fold sel. rewrite Hsub, bind_Ok, HN.
  change [Z.of_nat (length sel); Z.of_nat N; Z.of_nat N]
    with (Z.of_nat <$> [length sel; N; N]).
  rewrite zeros_of_nat, bind_Ok.
  rewrite (for_each_raise_inv
    (fun A : Np.ndarray Np.npfloat =>
       Np.shape A = [length sel; N; N] /\
       length (Np.data A) = length sel * N * N)
    _ _ (fun x : Z * Z => (x.2 < - Z.of_nat (length sel) \/
                           Z.of_nat (length sel) <= x.2)%Z) IndexError);
    [done| | | | |].
  - split; [done|]. simpl. rewrite length_fmap, length_replicate. lia.
  - intros [t trial] A _ _ Hb. simpl in Hb.
    unfold Np.getitem0. rewrite Hssh.
    by rewrite norm_index_out_of_range.
  - intros [t trial] A Hin (HshA & HlenA) Hb. simpl in Hb.
    apply list_elem_of_lookup in Hin as [k Hk].
    apply enumerate_lookup_inv in Hk as [-> Hk].
    assert (Hklt : k < length sel) by (by eapply lookup_lt_Some).
    destruct (norm_index_in_range (length sel) trial) as [k' Hk']; [lia|].
    assert (Hm : exists m, Np.getitem0 sub trial = Ok m).
    { unfold Np.getitem0. rewrite Hssh, Hk', bind_Ok. by eexists. }
    destruct Hm as [m Hm]. rewrite Hm, bind_Ok.
    pose proof (getitem0_shape sub m _ _ _ trial Hssh Hm) as Hshm.
    assert (Hc : exists c, Np.cov m = Ok c).
    { unfold Np.cov. rewrite Hshm. by eexists. }
    destruct Hc as [c Hc]. rewrite Hc, bind_Ok.
    destruct (cov_matrix m c N w Hshm Hc) as (Hshc & Hlenc & _).
    destruct (setitem0_spec A c (length sel) N N k HshA HlenA Hklt Hshc Hlenc)
      as (A' & HA' & HshA' & HlenA' & _).
    exists A'. done.
  - intros [t trial] _. simpl. lia.
  - destruct Hbad as (t & Ht & Hge).
    apply list_elem_of_lookup in Ht as [k Hk].
    exists (Z.of_nat k, t). split; [|simpl; lia].
    apply list_elem_of_lookup. exists k. by apply enumerate_lookup.
Qed.

Lemma covariance_selection_raises_witness :
  spikes_wf (MkSpikes (Np.NDArray [7; 1; 2] (replicate 14 0%Q)) 7 1 2 None None)
    7 1 2 /\
  covariance (MkSpikes (Np.NDArray [7; 1; 2] (replicate 14 0%Q)) 7 1 2 None None)
    (Some [0; 1; 5; 6]%Z) 0 None None = Raise IndexError.
Proof.
  assert (H1 : spikes_wf
                 (MkSpikes (Np.NDArray [7; 1; 2] (replicate 14 0%Q))
                    7 1 2 None None) 7 1 2) by (repeat split).
  split; [exact H1|].
  apply (covariance_selection_raises _ 7 1 2 (Some [0; 1; 5; 6]%Z) 0 None None H1).
  - simpl. intros t Ht.
    repeat (apply elem_of_cons in Ht as [->|Ht]; [lia|]).
    by apply elem_of_nil in Ht.
  - exists 5%Z. split; [simpl|simpl; lia].
    apply elem_of_cons. right. apply elem_of_cons. right. left.
Defined.

(** ** More on the windows *)

(** X17.  With windows of one bin, the sample matrix is the raster with
    rows and columns exchanged inside every trial: sample
    [c * M + i], feature [n] is raster row [c * N + n], column [i]. *)
Theorem windowed_samples_transpose_raster (self : Spikes) (T N M : nat)
    (trials : option (list Z)) :
  spikes_wf self T N M -> 1 <= M ->
  (forall t, t ∈ or_list trials (range (_T self)) -> (0 <= t < Z.of_nat T)%Z) ->
  let sel := or_list trials (range (_T self)) in
  exists Y R,
    to_windowed self 1 trials true = Ok (WMatrix Y) /\
    rasterize self trials 0 None None = Ok (Some R) /\
    Np.shape Y = [length sel * M; N] /\ Np.shape R = [length sel * N; M] /\
    forall c n i, c < length sel -> n < N -> i < M ->
      Np.get2 Y (c * M + i) n = Np.get2 R (c * N + n) i /\
      is_Some (Np.get2 Y (c * M + i) n).
Proof.
  intros Hwf HM1 Hsel sel.
  destruct (to_windowed_run self T N M 1 trials Hwf) as
    (X & Y & HshX & HlenX & Hcells & _ & Htrue & HshY & HlenY & HcellsY);
    [lia|done|].
  fold sel in HshX, HlenX, Hcells, HshY, HlenY, HcellsY.
  change (Z.to_nat 1) with 1 in *.
  replace (M - 1 + 1) with M in * by lia.
  rewrite Nat.mul_1_l in *.
  pose proof Hwf as (Hsh & Hwfa & HT & HN & HM).
  assert (Hlen : length (Np.data (_spikes_arr self)) = T * N * M).
  { rewrite Hwfa, Hsh. simpl. lia. }
  assert (Hsel' : forall t, t ∈ sel -> (- Z.of_nat T <= t < Z.of_nat T)%Z).
  { intros t Ht. apply Hsel in Ht. lia. }
  destruct (mapM_norm_index_ok T sel Hsel') as (ts & Hts & HF).
  assert (Hb : Np.slice_bounds M 0 (or_int None (_M self)) = (0, M)).
  { simpl. rewrite HM. unfold Np.slice_bounds.
    rewrite (clamp_nat M M) by lia.
    replace (Np.clamp M 0) with 0 by (unfold Np.clamp; simpl; lia).
    f_equal. lia. }
  destruct (rasterize_run self T N M trials 0 None ts Hwf HF Hts)
    as (R & Hrun & _ & HshR & HlenR & HcellsR).
  { rewrite Hb. simpl. lia. }
  fold sel in HshR, HlenR, HcellsR. rewrite Hb in HshR, HlenR, HcellsR.
  simpl in HshR, HlenR, HcellsR.
  exists Y, R. split; [done|]. split; [done|]. split; [done|]. split; [done|].
  intros c n i Hc Hn Hi.
  destruct (lookup_lt_is_Some_2 sel c Hc) as [t Ht].
  destruct (Forall2_lookup_l _ _ _ _ _ HF Ht) as (t' & Ht' & Hnorm).
  assert (Htr : (0 <= t < Z.of_nat T)%Z).
  { apply Hsel. by eapply list_elem_of_lookup_2. }
  rewrite norm_index_Z in Hnorm by done. injection Hnorm as <-.
  rewrite (get2_lookup Y (length sel * M) N); [|done|nia|done].
  rewrite (get2_lookup R (length sel * N) M); [|done|nia|done].
  rewrite HcellsY by done.
  pose proof (Hcells c t i n 0 Ht) as Hcell.
  rewrite Nat.mul_1_r, !Nat.add_0_r in Hcell. rewrite Hcell by lia.
  rewrite (HcellsR c _ n i Ht') by done.
  split; [done|]. apply lookup_lt_is_Some. rewrite Hlen. apply idx3_lt; lia.
Qed.

Lemma windowed_samples_transpose_raster_witness :
  spikes_wf s223 2 2 3 /\
  exists Y R,
    to_windowed s223 1 None true = Ok (WMatrix Y) /\
    rasterize s223 None 0 None None = Ok (Some R) /\
    Np.get2 Y (1 * 3 + 2) 1 = Np.get2 R (1 * 2 + 1) 2.
Proof.
  assert (H1 : spikes_wf s223 2 2 3) by (repeat split).
  assert (H2 : 1 <= 3) by lia.
  assert (H3 : forall t, t ∈ or_list None (range (_T s223)) ->
                 (0 <= t < Z.of_nat 2)%Z).
  { simpl. intros t Ht.
    repeat (apply elem_of_cons in Ht as [->|Ht]; [lia|]).
    by apply elem_of_nil in Ht. }
  split; [exact H1|].
  destruct (windowed_samples_transpose_raster s223 2 2 3 None H1 H2 H3)
    as (Y & R & HY & HR & _ & _ & Hcells).
  exists Y, R. split; [exact HY|]. split; [exact HR|].
  apply (Hcells 1 1 2); simpl; lia.
Defined.

(** ** Activities of a binary tensor *)

Lemma sum_unit_interval (l : list Q) :
  (forall x, x ∈ l -> (0 <= x <= 1)%Q) ->
  (0 <= Np.sum l <= inject_Z (Z.of_nat (length l)))%Q.
Proof.
  induction l as [|x l IH]; intros H.
  - simpl. split; apply Qle_refl.
  - destruct IH as [IH1 IH2]. { intros. apply H. by right. }
    destruct (H x) as [Hx0 Hx1]; [left|].
    change (Np.sum (x :: l)) with (x + Np.sum l)%Q.
    change (length (x :: l)) with (S (length l)).
    rewrite Nat2Z.inj_succ. unfold Z.succ. rewrite inject_Z_plus.
    change (inject_Z 1) with 1%Q. split; lra.
Qed.

Lemma mean_unit_interval (l : list Q) :
  (forall x, x ∈ l -> (0 <= x <= 1)%Q) -> (0 <= Np.mean l <= 1)%Q.
Proof.
  intros H. destruct (sum_unit_interval l H) as [H0 H1]. unfold Np.mean.
  destruct l as [|y l'] eqn:E.
  - split; vm_compute; discriminate.
  - rewrite <- E in *.
    assert (Hpos : (0 < inject_Z (Z.of_nat (length l)))%Q).
    { rewrite E. simpl length. rewrite Nat2Z.inj_succ.
      change 0%Q with (inject_Z 0). rewrite <- Zlt_Qlt. lia. }
    split.
    + apply Qle_shift_div_l; [done|]. lra.
    + apply Qle_shift_div_r; [done|]. lra.
Qed.

(** X18.  On a binary tensor every mean activity that
    [restrict_to_most_active_neurons] records is a rate between [0] and
    [1], whatever the target count and the sort. *)
Theorem mean_activities_are_rates (argsort : list Q -> list nat)
    (self s' : Spikes) (top_neurons : option Z) (ma : list Q) :
  binary (_spikes_arr self) ->
  restrict_to_most_active_neurons argsort self top_neurons = Ok s' ->
  mean_activities s' = Some ma ->
  forall x, x ∈ ma -> (0 <= x <= 1)%Q.
Proof.
  intros Hbin Hrun Hma x Hx. unfold restrict_to_most_active_neurons in Hrun.
  destruct (Np.mean_axis0_mean_axis1 (_spikes_arr self)) as [activity|e] eqn:Ea;
    [|done].
  rewrite bind_Ok in Hrun.
  destruct (Np.getitem_all_list_all _ _) as [arr|e]; [|done].
  rewrite bind_Ok in Hrun. injection Hrun as <-. simpl in Hma.
  injection Hma as <-. apply elem_of_gather in Hx.
  unfold Np.mean_axis0_mean_axis1 in Ea.
  destruct (Np.shape (_spikes_arr self)) as [|d0 [|d1 [|d2 [|? ?]]]];
    try (unfold Np.bad_rank in Ea; simpl in Ea; done).
  destruct ((d0 =? 0) || (d2 =? 0)); [done|]. injection Ea as <-.
  apply list_elem_of_fmap in Hx as (n & -> & _).
  apply mean_unit_interval. intros y (m & -> & _)%list_elem_of_fmap.
  apply mean_unit_interval. intros z Hz%elem_of_gather.
  destruct (Hbin z Hz) as [-> | ->]; split; vm_compute; discriminate.
Qed.

Lemma mean_activities_are_rates_witness :
  binary (_spikes_arr s232) /\
  exists s' ma,
    restrict_to_most_active_neurons insertion_argsort s232 None = Ok s' /\
    mean_activities s' = Some ma /\
    forall x, x ∈ ma -> (0 <= x <= 1)%Q.
Proof.
  assert (H1 : binary (_spikes_arr s232)).
  { intros x Hx. simpl in Hx.
    repeat (apply elem_of_cons in Hx as [->|Hx]; [auto|]).
    by apply elem_of_nil in Hx. }
  split; [exact H1|].
  eexists _, _. split; [vm_compute; reflexivity|]. split; [reflexivity|].
  eapply (mean_activities_are_rates insertion_argsort s232 _ None _ H1);
    [vm_compute; reflexivity|reflexivity].
Defined.

(** ** The representation *)

(** X19.  [__repr__] never returns a string: its template asks for a
    field [m] while the bin count is passed under the name [u], so the
    call raises [KeyError] for [m] on every object.  With the bin count
    passed as [m] the same template gives the intended text. *)
Theorem repr_raises_key_error (self : Spikes) :
  __repr__ self = KeyError "m" /\
  str_format "<Spikes: {n} neurons, {m} bins, {t} trials>" None
    [("n", pretty (_N self)); ("m", pretty (_M self)); ("t", pretty (_T self))]
  = Formatted ("<Spikes: " +:+ pretty (_N self) +:+ " neurons, "
               +:+ pretty (_M self) +:+ " bins, " +:+ pretty (_T self)
               +:+ " trials>").
Proof.
  unfold __repr__.
  generalize (pretty (_N self)), (pretty (_M self)), (pretty (_T self)).
  intros n m t. split; reflexivity.
Qed.
